(** * GameAP daemon: game-server commands, task scheduler, server repository
    and the WinSW process manager, embedded from the Go sources.

    Conventions of the embedding.
    - Go [int] values (command results, exit codes, ids) are [Z].
    - Go [error] values are their messages; [None] is the nil error.
    - [[]byte] output is [list byte].
    - An object behind an interface is a state together with its methods as
      state-passing functions.
    - Objects shared through pointers live in an explicit heap where sharing
      matters (the tasks of the scheduler, the servers of the repository).
    - Where a sub-command, the task source, the API client or the executor is
      an interface, its answers are a parameter and the calls made on it are
      recorded in call order. *)

From Stdlib Require Import ZArith Strings.Byte Strings.Ascii Lia.
From stdpp Require Import base option list gmap strings pretty.

Open Scope Z_scope.

(** Go errors, by message.  [errors.WithMessage err msg] prefixes the message. *)
Definition error := string.

Definition WithMessage (err : error) (msg : string) : error :=
  (msg +:+ ": " +:+ err)%string.

(** * Package [game_server_commands] *)

Module GameServerCommands.

(** commands.go, lines 15-19. *)
Definition UnknownResult : Z := -1.
Definition SuccessResult : Z := 0.
Definition ErrorResult : Z := 1.

(** commands.go, lines 149-193: the embedded [baseCommand] ([cfg], [executor]
    and the mutex carry no state of interest here). *)
Record baseCommand := mkBase { complete : bool; result : Z }.

Definition newBaseCommand : baseCommand :=
  {| complete := false; result := UnknownResult |}.

Definition Result (c : baseCommand) : Z := result c.

Definition SetResult (r : Z) (c : baseCommand) : baseCommand :=
  {| complete := complete c; result := r |}.

Definition IsComplete (c : baseCommand) : bool := complete c.

Definition SetComplete (c : baseCommand) : baseCommand :=
  {| complete := true; result := result c |}.

(** [domain.ServerCommand]: the verbs named in [LoadServerCommand]. *)
Inductive ServerCommand :=
| Start | Stop | Kill | Restart | Status | Install | Update
| Reinstall | Delete | Pause | Unpause.

(** commands.go, lines 253-259.  [output] is the [io.ReadWriter] of the embedded
    [bufCommand]; [None] is the nil interface value. *)
Record nilCommand := mkNil {
  nil_base : baseCommand;
  nil_output : option (list byte);
  message : string;
  resultCode : Z
}.

(** commands.go, lines 270-276.  The composite literal sets [baseCommand],
    [message] and [resultCode]; [bufCommand] keeps its zero value, whose
    [output] is nil. *)
Definition newNotImplementedCommand : nilCommand :=
  {| nil_base := newBaseCommand;
     nil_output := None;
     message := "not implemented command";
     resultCode := ErrorResult |}.

(** How a call ends: it returns a value, or the goroutine panics. *)
Inductive outcome (A : Type) :=
| Returned (a : A)
| Panicked (reason : string).
Arguments Returned {A} a.
Arguments Panicked {A} reason.

(** commands.go, lines 261-268.  [SetComplete] and [SetResult] run first; the
    method call [n.output.Write] on a nil interface value panics. *)
Definition nilCommand_Execute (n : nilCommand) : outcome (option error) * nilCommand :=
  let n1 := mkNil (SetComplete (nil_base n)) (nil_output n) (message n) (resultCode n) in
  let n2 := mkNil (SetResult (resultCode n1) (nil_base n1)) (nil_output n1) (message n1) (resultCode n1) in
  match nil_output n2 with
  | None => (Panicked "nil pointer dereference", n2)
  | Some buf =>
      (Returned None,
       mkNil (nil_base n2) (Some (buf ++ String.list_byte_of_string (message n2))) (message n2) (resultCode n2))
  end.

(** Which loader a start command is wired with: [factory.LoadServerCommand] or
    [nilLoadServerCommandFunc]. *)
Inductive loader := FactoryLoader | NilLoader.

(** The commands [LoadServerCommand] constructs, by constructor call. *)
#[local] Set Warnings "-register-all".
Inductive command :=
| startServer (l : loader)
| stopServer
| statusServer
| deleteServer
| restartServer (status stop start : command)
| installServer (status stop start : command)
| updateServer (status stop start : command)
| commandListOf (cs : list command)
| notImplemented (n : nilCommand).
#[local] Set Warnings "register-all".

(** commands.go, lines 46-108.  [None] is the nil interface value.  A Go
    [switch] case does not fall through: the empty [case domain.Pause:] leaves
    the switch and reaches the final [return nil]. *)
Definition LoadServerCommand (cmd : ServerCommand) : option command :=
  match cmd with
  | Start => Some (startServer FactoryLoader)
  | Stop | Kill => Some stopServer
  | Restart =>
      Some (restartServer statusServer stopServer (startServer FactoryLoader))
  | Status => Some statusServer
  | Install =>
      Some (installServer statusServer stopServer (startServer NilLoader))
  | Update =>
      Some (updateServer statusServer stopServer (startServer NilLoader))
  | Reinstall =>
      Some (commandListOf
              [deleteServer;
               installServer statusServer stopServer (startServer NilLoader)])
  | Delete => Some deleteServer
  | Pause => None
  | Unpause => Some (notImplemented newNotImplementedCommand)
  end.

Section Composite.

(** [World] is everything a command's [Execute] can read and change outside
    the command object (processes, files, the server aggregate); [Server] is
    the [*domain.Server] argument. *)
Context {World Server : Type}.

(** An object behind the interface [contracts.GameServerCommand]: its state
    and its four methods.  [ReadOutput] drains what it returns. *)
Record GameServerCommand := mkCommand {
  cmd_state : Type;
  cmd_st : cmd_state;
  cmd_execute : Server -> World -> cmd_state -> option error * cmd_state * World;
  cmd_readOutput : cmd_state -> list byte * cmd_state;
  cmd_result : cmd_state -> Z;
  cmd_isComplete : cmd_state -> bool
}.

Definition with_state (c : GameServerCommand) (s : cmd_state c) : GameServerCommand :=
  mkCommand (cmd_state c) s (cmd_execute c) (cmd_readOutput c) (cmd_result c)
            (cmd_isComplete c).

(** Method calls through the interface. *)
Definition call_Execute (c : GameServerCommand) (server : Server) (w : World)
  : option error * GameServerCommand * World :=
  let '(err, s, w') := cmd_execute c server w (cmd_st c) in
  (err, with_state c s, w').

Definition call_ReadOutput (c : GameServerCommand) : list byte * GameServerCommand :=
  let '(out, s) := cmd_readOutput c (cmd_st c) in (out, with_state c s).

Definition call_Result (c : GameServerCommand) : Z := cmd_result c (cmd_st c).

Definition call_IsComplete (c : GameServerCommand) : bool :=
  cmd_isComplete c (cmd_st c).

(** Instrumentation: one event per call of a sub-command's [Execute], in call
    order, with the index of the sub-command, the error the call returned and
    the sub-command's [Result()] right after the call. *)
Record event := mkEvent { ev_index : nat; ev_err : option error; ev_result : Z }.

(** commands.go, lines 207-222. *)
Record commandList := mkList {
  cl_base : baseCommand;
  commands : list GameServerCommand
}.

Definition newCommandList (cs : list GameServerCommand) : commandList :=
  {| cl_base := newBaseCommand; commands := cs |}.

(** commands.go, lines 224-231: the loop of [ReadOutput]. *)
Fixpoint readOutputs (cs : list GameServerCommand)
  : list byte * list GameServerCommand :=
  match cs with
  | [] => ([], [])
  | c :: rest =>
      let '(out, c') := call_ReadOutput c in
      let '(outs, rest') := readOutputs rest in
      (out ++ outs, c' :: rest')
  end.

Definition commandList_ReadOutput (c : commandList) : list byte * commandList :=
  let '(output, cs') := readOutputs (commands c) in
  (output, mkList (cl_base c) cs').

(** commands.go, lines 233-251: the loop of [Execute] from index [i] on, over
    the sub-commands [cs] not yet visited. *)
Fixpoint executeFrom (server : Server) (i : nat) (cs : list GameServerCommand)
    (b : baseCommand) (w : World)
  : option error * baseCommand * list GameServerCommand * World * list event :=
  match cs with
  | [] => (None, SetResult SuccessResult (SetComplete b), [], w, [])
  | c :: rest =>
      let '(err, c', w1) := call_Execute c server w in
      let ev := mkEvent i err (call_Result c') in
      match err with
      | Some e => (Some e, b, c' :: rest, w1, [ev])
      | None =>
          if decide (call_Result c' = SuccessResult) then
            let '(err', b', rest', w2, tr) := executeFrom server (S i) rest b w1 in
            (err', b', c' :: rest', w2, ev :: tr)
          else
            (None, SetComplete (SetResult (call_Result c') b), c' :: rest, w1, [ev])
      end
  end.

Definition commandList_Execute (c : commandList) (server : Server) (w : World)
  : option error * commandList * World * list event :=
  let '(err, b, cs', w', tr) := executeFrom server 0 (commands c) (cl_base c) w in
  (err, mkList b cs', w', tr).

(** The sub-commands of a restart. *)
Inductive step := StatusStep | StopStep | StartStep.

Record step_event := mkStep { st_step : step; st_err : option error; st_result : Z }.

(** part_003, lines 14-20.  [rs_output] is the content of [bufCommand.output];
    [rs_scriptsRestart] is [cmd.cfg.Scripts.Restart]. *)
Record defaultRestartServer := mkRestart {
  rs_output : list byte;
  statusServer' : GameServerCommand;
  stopServer' : GameServerCommand;
  startServer' : GameServerCommand;
  rs_base : baseCommand;
  rs_scriptsRestart : string
}.

(** [processManager.Restart(ctx, server, out)]: the result, the error, what it
    wrote to [out], and the world it leaves. *)
Variable pmRestart : Server -> World -> Z * option error * list byte * World.

(** part_003, lines 22-39. *)
Definition newDefaultRestartServer (scriptsRestart : string)
    (status stop start : GameServerCommand) : defaultRestartServer :=
  {| rs_output := [];
     statusServer' := status;
     stopServer' := stop;
     startServer' := start;
     rs_base := newBaseCommand;
     rs_scriptsRestart := scriptsRestart |}.

(** part_003, lines 58-83: the body of [restartViaStopStart], without the
    deferred call. *)
Definition restartViaStopStart_body (cmd : defaultRestartServer) (server : Server)
    (w : World)
  : option error * defaultRestartServer * World * list step_event :=
  let '(err, status, w1) := call_Execute (statusServer' cmd) server w in
  let ev1 := mkStep StatusStep err (call_Result status) in
  let cmd1 := mkRestart (rs_output cmd) status (stopServer' cmd) (startServer' cmd)
                        (rs_base cmd) (rs_scriptsRestart cmd) in
  match err with
  | Some e => (Some (WithMessage e "failed to check server status"), cmd1, w1, [ev1])
  | None =>
      let active := bool_decide (call_Result status = SuccessResult) in
      let start_phase (cmd2 : defaultRestartServer) (w2 : World) (tr : list step_event) :=
        let '(err3, start, w3) := call_Execute (startServer' cmd2) server w2 in
        let ev3 := mkStep StartStep err3 (call_Result start) in
        let cmd3 := mkRestart (rs_output cmd2) (statusServer' cmd2) (stopServer' cmd2)
                              start (rs_base cmd2) (rs_scriptsRestart cmd2) in
        match err3 with
        | Some e => (Some e, cmd3, w3, tr ++ [ev3])
        | None =>
            (None,
             mkRestart (rs_output cmd3) (statusServer' cmd3) (stopServer' cmd3)
                       (startServer' cmd3) (SetResult (call_Result start) (rs_base cmd3))
                       (rs_scriptsRestart cmd3),
             w3, tr ++ [ev3])
        end in
      if active then
        let '(err2, stop, w2) := call_Execute (stopServer' cmd1) server w1 in
        let ev2 := mkStep StopStep err2 (call_Result stop) in
        let cmd2 := mkRestart (rs_output cmd1) (statusServer' cmd1) stop
                              (startServer' cmd1) (rs_base cmd1) (rs_scriptsRestart cmd1) in
        match err2 with
        | Some e => (Some (WithMessage e "failed to stop server"), cmd2, w2, [ev1; ev2])
        | None =>
            if decide (call_Result stop = SuccessResult) then
              start_phase cmd2 w2 [ev1; ev2]
            else
              (None,
               mkRestart (rs_output cmd2) (statusServer' cmd2) (stopServer' cmd2)
                         (startServer' cmd2) (SetResult (call_Result stop) (rs_base cmd2))
                         (rs_scriptsRestart cmd2),
               w2, [ev1; ev2])
        end
      else start_phase cmd1 w1 [ev1]
  end.

(** part_003, lines 55-84: [defer cmd.SetComplete()] runs on every return. *)
Definition restartViaStopStart (cmd : defaultRestartServer) (server : Server)
    (w : World)
  : option error * defaultRestartServer * World * list step_event :=
  let '(err, cmd', w', tr) := restartViaStopStart_body cmd server w in
  (err,
   mkRestart (rs_output cmd') (statusServer' cmd') (stopServer' cmd') (startServer' cmd')
             (SetComplete (rs_base cmd')) (rs_scriptsRestart cmd'),
   w', tr).

(** part_003, lines 41-53. *)
Definition defaultRestartServer_Execute (cmd : defaultRestartServer)
    (server : Server) (w : World)
  : option error * defaultRestartServer * World * list step_event :=
  let cmd0 := mkRestart [] (statusServer' cmd) (stopServer' cmd) (startServer' cmd)
                        (rs_base cmd) (rs_scriptsRestart cmd) in
  if decide (rs_scriptsRestart cmd0 = ""%string) then
    restartViaStopStart cmd0 server w
  else
    let '(res, err, out, w') := pmRestart server w in
    (err,
     mkRestart (rs_output cmd0 ++ out) (statusServer' cmd0) (stopServer' cmd0)
               (startServer' cmd0) (SetComplete (SetResult res (rs_base cmd0)))
               (rs_scriptsRestart cmd0),
     w', []).

(** part_003, lines 86-105.  Reading the buffer drains it and does not fail. *)
Definition defaultRestartServer_ReadOutput (cmd : defaultRestartServer)
  : list byte * defaultRestartServer :=
  if decide (rs_scriptsRestart cmd = ""%string) then
    let '(statusOut, status) := call_ReadOutput (statusServer' cmd) in
    let '(stopOut, stop) := call_ReadOutput (stopServer' cmd) in
    let '(startOut, start) := call_ReadOutput (startServer' cmd) in
    ((([] ++ statusOut) ++ stopOut) ++ startOut,
     mkRestart (rs_output cmd) status stop start (rs_base cmd) (rs_scriptsRestart cmd))
  else
    (rs_output cmd,
     mkRestart [] (statusServer' cmd) (stopServer' cmd) (startServer' cmd)
               (rs_base cmd) (rs_scriptsRestart cmd)).

End Composite.

Arguments GameServerCommand : clear implicits.
Arguments commandList : clear implicits.
Arguments defaultRestartServer : clear implicits.

(** A sub-command with a fixed behaviour, for concrete runs: every [Execute]
    returns [err], leaves [r] as result, marks the command complete and appends
    [out] to its buffer.  The world counts the calls of [Execute]. *)
Definition scripted (err : option error) (r : Z) (out : list byte)
  : GameServerCommand nat unit :=
  mkCommand (baseCommand * list byte)%type (newBaseCommand, [])
    (fun _ w s => (err, (SetComplete (SetResult r s.1), s.2 ++ out), S w))
    (fun s => (s.2, (s.1, [])))
    (fun s => Result s.1)
    (fun s => IsComplete s.1).

(** A process manager whose [Restart] is never reached in the runs below. *)
Definition noRestart (_ : unit) (w : nat) : Z * option error * list byte * nat :=
  (ErrorResult, Some "unsupported"%string, [], w).

Definition bytes_of (s : string) : list byte := String.list_byte_of_string s.

(** A process manager whose [Restart] fails after writing a line. *)
Definition failingRestart (_ : unit) (w : nat) : Z * option error * list byte * nat :=
  (ErrorResult, Some "restart failed"%string, bytes_of "no such service", S w).

Section CompositeFacts.

Context {World Server : Type}.
Implicit Types (c : commandList World Server) (server : Server) (w : World).

(** An event of a sub-command that returned no error and left [SuccessResult]. *)
Definition ok_event (ev : event) : Prop :=
  ev_err ev = None /\ ev_result ev = SuccessResult.

Lemma executeFrom_shape server cs : forall i b w err b' cs' w' tr,
  executeFrom server i cs b w = (err, b', cs', w', tr) ->
  exists pre last,
    tr = pre ++ last /\ Forall ok_event pre /\
    map ev_index tr = seq i (length tr) /\
    length cs' = length cs /\
    drop (length tr) cs' = drop (length tr) cs /\
    (forall k ev, tr !! k = Some ev ->
       exists ck, cs' !! k = Some ck /\ call_Result ck = ev_result ev) /\
    ((last = [] /\ length pre = length cs /\ err = None /\
      b' = SetResult SuccessResult (SetComplete b))
     \/ (exists ev e, last = [ev] /\ ev_err ev = Some e /\ err = Some e /\ b' = b)
     \/ (exists ev, last = [ev] /\ ev_err ev = None /\
                    ev_result ev <> SuccessResult /\ err = None /\
                    b' = SetComplete (SetResult (ev_result ev) b))).
Proof.
  induction cs as [|c rest IH]; intros i b w err b' cs' w' tr H; simpl in H.
  - inversion H; subst. exists [], []. split_and!; try done. by left.
  - destruct (call_Execute c server w) as [[e1 c1] w1] eqn:E1.
    destruct e1 as [e|].
    + inversion H; subst. exists [], [mkEvent i (Some e) (call_Result c1)].
      split_and!; try done.
      * intros [|k] ev Hk; simplify_eq/=. by exists c1.
      * right; left. by eexists _, e.
    + destruct (decide (call_Result c1 = SuccessResult)) as [Hs|Hs].
      * destruct (executeFrom server (S i) rest b w1)
          as [[[[e2 b2] cs2] w2] tr2] eqn:E2.
        inversion H; subst.
        destruct (IH _ _ _ _ _ _ _ _ E2)
          as (pre & last & Htr & Hpre & Hidx & Hlen & Hdrop & Hres & Hcase).
        exists (mkEvent i None (call_Result c1) :: pre), last.
        split_and!.
        -- simpl. by rewrite Htr.
        -- by constructor.
        -- simpl. by rewrite Hidx.
        -- simpl. by rewrite Hlen.
        -- exact Hdrop.
        -- intros [|k] ev Hk; simplify_eq/=; [by exists c1|by apply Hres].
        -- destruct Hcase as [(Hl & Hn & He & Hb)|[(ev & e & Hl & He1 & He & Hb)|(ev & Hl & He1 & Hr & He & Hb)]].
           ++ left. simpl. by rewrite Hn.
           ++ right; left. by exists ev, e.
           ++ right; right. by exists ev.
      * inversion H; subst. exists [], [mkEvent i None (call_Result c1)].
        split_and!; try done.
        -- intros [|k] ev Hk; simplify_eq/=. by exists c1.
        -- right; right. by eexists.
Qed.

(** In a trace [pre ++ [ev]] whose [pre] holds only successes, an event that is
    no success is the last one. *)
Lemma failing_event_is_last (pre : list event) (ev ev' : event) (k : nat) :
  Forall ok_event pre -> (pre ++ [ev]) !! k = Some ev' -> ~ ok_event ev' ->
  ev' = ev /\ length (pre ++ [ev]) = S k.
Proof.
  intros Hpre Hk Hnok.
  destruct (decide (k < length pre)%nat) as [Hlt|Hge].
  - rewrite lookup_app_l in Hk by exact Hlt.
    rewrite Forall_lookup in Hpre. exfalso. apply Hnok. eapply Hpre, Hk.
  - rewrite lookup_app_r in Hk by lia.
    destruct (k - length pre)%nat as [|n] eqn:Hd; simpl in Hk.
    + inversion Hk; subst. split; [reflexivity|]. rewrite length_app. simpl. lia.
    + rewrite lookup_nil in Hk. discriminate.
Qed.

Lemma readOutputs_concat (cs : list (GameServerCommand World Server)) :
  (readOutputs cs).1 = concat (map (fun ck => (call_ReadOutput ck).1) cs).
Proof.
  induction cs as [|c rest IH]; simpl; [reflexivity|].
  destruct (call_ReadOutput c) as [out c1].
  destruct (readOutputs rest) as [outs rest1]. simpl in *. now rewrite IH.
Qed.

(** C5, as amended.  Let a composite [commandList] be executed and let no
    sub-command it runs return a Go error.  Then [Execute] returns nil and
    leaves the composite complete; it ran the sub-commands in list order (the
    calls are those of the indices 0, 1, 2, ... without gaps), each event
    carrying the [Result()] of its sub-command; an executed sub-command whose
    result is not [SuccessResult] is the last one executed, its result is the
    composite's result, and the sub-commands behind it were not touched; if
    every executed sub-command left [SuccessResult], all of them were executed
    and the composite's result is [SuccessResult]; and [ReadOutput] returns the
    sub-commands' outputs concatenated in list order. *)
Theorem commandList_Execute_without_errors c server w err c' w' tr :
  commandList_Execute c server w = (err, c', w', tr) ->
  Forall (fun ev => ev_err ev = None) tr ->
  err = None /\ IsComplete (cl_base c') = true /\
  map ev_index tr = seq 0 (length tr) /\
  (forall k ev, tr !! k = Some ev ->
     exists ck, commands c' !! k = Some ck /\ call_Result ck = ev_result ev) /\
  (forall k ev, tr !! k = Some ev -> ev_result ev <> SuccessResult ->
     length tr = S k /\ Result (cl_base c') = ev_result ev /\
     drop (S k) (commands c') = drop (S k) (commands c)) /\
  (Forall (fun ev => ev_result ev = SuccessResult) tr ->
     length tr = length (commands c) /\ Result (cl_base c') = SuccessResult) /\
  (commandList_ReadOutput c').1
    = concat (map (fun ck => (call_ReadOutput ck).1) (commands c')).
Proof.
  unfold commandList_Execute. intros H Hnoerr.
  destruct (executeFrom server 0 (commands c) (cl_base c) w)
    as [[[[e b] cs'] w1] tr1] eqn:E.
  inversion H; subst; clear H.
  destruct (executeFrom_shape _ _ _ _ _ _ _ _ _ _ E)
    as (pre & last & Htr & Hpre & Hidx & Hlen & Hdrop & Hres & Hcase).
  assert (Hout : (commandList_ReadOutput (mkList b cs')).1
                 = concat (map (fun ck => (call_ReadOutput ck).1) cs')).
  { unfold commandList_ReadOutput. simpl.
    rewrite <- readOutputs_concat. by destruct (readOutputs cs'). }
  destruct Hcase as [(Hl & Hn & He & Hb)
                    |[(ev & e0 & Hl & He1 & He & Hb)|(ev & Hl & He1 & Hr & He & Hb)]];
    subst.
  - rewrite app_nil_r in *. split_and!; try done.
    + intros k ev Hk Hr. exfalso. rewrite Forall_lookup in Hpre.
      destruct (Hpre _ _ Hk) as [_ Hok]. by apply Hr.
  - exfalso. rewrite Forall_app, Forall_singleton in Hnoerr.
    destruct Hnoerr as [_ Hn]. congruence.
  - split_and!; try done.
    + intros k ev' Hk Hr'.
      destruct (failing_event_is_last pre ev ev' k Hpre Hk) as [-> Hlast].
      { intros [_ Hok]. by apply Hr'. }
      split_and!; try done. simpl. by rewrite <- Hlast.
    + intros Hall. exfalso. rewrite Forall_app, Forall_singleton in Hall.
      destruct Hall as [_ Hall]. by apply Hr.
Qed.

(** C10.  If a sub-command's [Execute] returns a Go error, the composite's
    [Execute] returns that error, that sub-command is the last one executed
    (the sub-commands behind it are not touched), and the composite's
    [baseCommand] is unchanged: a composite made by [newCommandList] is still
    not complete and its result is still [UnknownResult] (-1). *)
Theorem commandList_Execute_propagates_error c server w err c' w' tr k ev e :
  commandList_Execute c server w = (err, c', w', tr) ->
  tr !! k = Some ev ->
  ev_err ev = Some e ->
  err = Some e /\ length tr = S k /\
  drop (S k) (commands c') = drop (S k) (commands c) /\
  cl_base c' = cl_base c /\
  (cl_base c = newBaseCommand ->
   IsComplete (cl_base c') = false /\ Result (cl_base c') = UnknownResult).
Proof.
  unfold commandList_Execute. intros H Hk He.
  destruct (executeFrom server 0 (commands c) (cl_base c) w)
    as [[[[e1 b] cs'] w1] tr1] eqn:E.
  inversion H; subst; clear H.
  destruct (executeFrom_shape _ _ _ _ _ _ _ _ _ _ E)
    as (pre & last & Htr & Hpre & Hidx & Hlen & Hdrop & Hres & Hcase).
  assert (Hnok : ~ ok_event ev) by (intros [Hn _]; congruence).
  destruct Hcase as [(Hl & Hn & He' & Hb)
                    |[(ev0 & e0 & Hl & He1 & He' & Hb)|(ev0 & Hl & He1 & Hr & He' & Hb)]];
    subst.
  - rewrite app_nil_r in Hk. rewrite Forall_lookup in Hpre.
    exfalso. apply Hnok. eauto.
  - destruct (failing_event_is_last pre ev0 ev k Hpre Hk Hnok) as [-> Hlast].
    assert (e0 = e) by congruence. subst.
    split_and!; try done.
    + by rewrite <- Hlast.
    + simpl. by intros ->.
  - destruct (failing_event_is_last pre ev0 ev k Hpre Hk Hnok) as [-> Hlast].
    congruence.
Qed.

(** C1, as amended.  Let a restart command be executed with
    [cfg.Scripts.Restart] empty and let no sub-command it runs return a Go
    error.  Then [Execute] returns nil and leaves the command complete; the
    Status sub-command is executed first; if it left [SuccessResult] (active),
    Stop is executed next, and if Stop's result is not [SuccessResult] nothing
    else is executed (the Start sub-command is untouched) and the result is
    Stop's result; otherwise Start is executed and the result is Start's
    result; and [ReadOutput] afterwards returns the status output, the stop
    output and the start output concatenated in that order. *)
Theorem restart_via_stop_start_without_errors
    (pm : Server -> World -> Z * option error * list byte * World)
    (cmd : defaultRestartServer World Server) server w err cmd' w' tr :
  rs_scriptsRestart cmd = ""%string ->
  defaultRestartServer_Execute pm cmd server w = (err, cmd', w', tr) ->
  Forall (fun ev => st_err ev = None) tr ->
  let rs := call_Result (statusServer' cmd') in
  let rp := call_Result (stopServer' cmd') in
  let ra := call_Result (startServer' cmd') in
  err = None /\ IsComplete (rs_base cmd') = true /\
  ((rs = SuccessResult /\ rp <> SuccessResult /\
    tr = [mkStep StatusStep None rs; mkStep StopStep None rp] /\
    Result (rs_base cmd') = rp /\ startServer' cmd' = startServer' cmd)
   \/ (rs = SuccessResult /\ rp = SuccessResult /\
       tr = [mkStep StatusStep None rs; mkStep StopStep None rp;
             mkStep StartStep None ra] /\
       Result (rs_base cmd') = ra)
   \/ (rs <> SuccessResult /\
       tr = [mkStep StatusStep None rs; mkStep StartStep None ra] /\
       Result (rs_base cmd') = ra /\ stopServer' cmd' = stopServer' cmd)) /\
  (defaultRestartServer_ReadOutput cmd').1
    = (call_ReadOutput (statusServer' cmd')).1
      ++ (call_ReadOutput (stopServer' cmd')).1
      ++ (call_ReadOutput (startServer' cmd')).1.
Proof.
  intros Hcfg H Hnoerr rs rp ra. subst rs rp ra.
  unfold defaultRestartServer_Execute in H. simpl in H.
  destruct (decide (rs_scriptsRestart cmd = ""%string)) as [_|Hne]; [|done].
  unfold restartViaStopStart, restartViaStopStart_body in H. simpl in H.
  destruct (call_Execute (statusServer' cmd) server w) as [[e1 c1] w1] eqn:E1.
  assert (Hread : forall o (x y z : GameServerCommand World Server) bs,
    (defaultRestartServer_ReadOutput
       (mkRestart o x y z bs (rs_scriptsRestart cmd))).1
    = (call_ReadOutput x).1 ++ (call_ReadOutput y).1 ++ (call_ReadOutput z).1).
  { intros o x y z bs. unfold defaultRestartServer_ReadOutput. simpl.
    rewrite Hcfg. simpl.
    destruct (call_ReadOutput x), (call_ReadOutput y), (call_ReadOutput z).
    simpl. by rewrite <- app_assoc. }
  destruct e1 as [e|].
  { simplify_eq/=. by inversion Hnoerr. }
  case_bool_decide as Hs.
  - destruct (call_Execute (stopServer' cmd) server w1) as [[e2 c2] w2] eqn:E2.
    simpl in H. destruct e2 as [e|].
    { simplify_eq/=. inversion Hnoerr as [|? ? _ Hn]. by inversion Hn. }
    destruct (decide (call_Result c2 = SuccessResult)) as [Hp|Hp].
    + destruct (call_Execute (startServer' cmd) server w2) as [[e3 c3] w3] eqn:E3.
      simpl in H. destruct e3 as [e|].
      { simplify_eq/=. inversion Hnoerr as [|? ? _ Hn].
        inversion Hn as [|? ? _ Hn']. by inversion Hn'. }
      simplify_eq/=. split_and!; try done. right; left. by rewrite Hs, Hp.
    + simplify_eq/=. split_and!; try done. left. by rewrite Hs.
  - destruct (call_Execute (startServer' cmd) server w1) as [[e3 c3] w3] eqn:E3.
    simpl in H. destruct e3 as [e|].
    { simplify_eq/=. inversion Hnoerr as [|? ? _ Hn]. by inversion Hn. }
    simplify_eq/=. split_and!; try done. right; right. done.
Qed.

(** X12.  With a restart script configured ([cfg.Scripts.Restart] not empty)
    the restart command runs none of its sub-commands: it calls the process
    manager's [Restart], returns its error, and is complete with its result
    also when that call fails.  [ReadOutput] then returns what the process
    manager wrote, once: a second read returns nothing. *)
Theorem restart_with_script_uses_process_manager
    (pm : Server -> World -> Z * option error * list byte * World)
    (cmd : defaultRestartServer World Server) server w res err out w1 :
  rs_scriptsRestart cmd <> ""%string ->
  pm server w = (res, err, out, w1) ->
  let run := defaultRestartServer_Execute pm cmd server w in
  let cmd' := run.1.1.2 in
  run.1.1.1 = err /\ run.1.2 = w1 /\ run.2 = [] /\
  IsComplete (rs_base cmd') = true /\ Result (rs_base cmd') = res /\
  statusServer' cmd' = statusServer' cmd /\
  stopServer' cmd' = stopServer' cmd /\
  startServer' cmd' = startServer' cmd /\
  (defaultRestartServer_ReadOutput cmd').1 = out /\
  (defaultRestartServer_ReadOutput (defaultRestartServer_ReadOutput cmd').2).1 = [].
Proof.
  intros Hcfg Hpm run cmd'. subst run cmd'.
  unfold defaultRestartServer_Execute. simpl.
  destruct (decide (rs_scriptsRestart cmd = ""%string)) as [|_]; [done|].
  rewrite Hpm. simpl. unfold defaultRestartServer_ReadOutput. simpl.
  destruct (decide (rs_scriptsRestart cmd = ""%string)) as [|_]; [done|].
  simpl. destruct (decide (rs_scriptsRestart cmd = ""%string)) as [|_]; [done|].
  done.
Qed.

(** X13.  When a sub-command of a restart without script returns a Go error,
    the restart stops at that sub-command and returns the error: with the
    prefix "failed to check server status" for Status, "failed to stop server"
    for Stop, and as it is for Start.  The restart is marked complete all the
    same, and its result is the one it had before. *)
Theorem restart_via_stop_start_on_error
    (pm : Server -> World -> Z * option error * list byte * World)
    (cmd : defaultRestartServer World Server) server w err cmd' w' tr k ev e :
  rs_scriptsRestart cmd = ""%string ->
  defaultRestartServer_Execute pm cmd server w = (err, cmd', w', tr) ->
  tr !! k = Some ev ->
  st_err ev = Some e ->
  length tr = S k /\
  err = Some (match st_step ev with
              | StatusStep => WithMessage e "failed to check server status"
              | StopStep => WithMessage e "failed to stop server"
              | StartStep => e
              end) /\
  IsComplete (rs_base cmd') = true /\
  Result (rs_base cmd') = Result (rs_base cmd).
Proof.
  intros Hcfg H Hk He.
  unfold defaultRestartServer_Execute in H. simpl in H.
  destruct (decide (rs_scriptsRestart cmd = ""%string)) as [_|Hne]; [|done].
  unfold restartViaStopStart, restartViaStopStart_body in H. simpl in H.
  destruct (call_Execute (statusServer' cmd) server w) as [[e1 c1] w1] eqn:E1.
  destruct e1 as [e1|].
  { simplify_eq/=. destruct k as [|k]; simplify_eq/=. done. }
  case_bool_decide as Hs.
  - destruct (call_Execute (stopServer' cmd) server w1) as [[e2 c2] w2] eqn:E2.
    simpl in H. destruct e2 as [e2|].
    { simplify_eq/=. destruct k as [|[|k]]; simplify_eq/=. done. }
    destruct (decide (call_Result c2 = SuccessResult)) as [Hp|Hp].
    + destruct (call_Execute (startServer' cmd) server w2) as [[e3 c3] w3] eqn:E3.
      simpl in H. destruct e3 as [e3|].
      * simplify_eq/=. destruct k as [|[|[|k]]]; simplify_eq/=. done.
      * simplify_eq/=. destruct k as [|[|[|k]]]; simplify_eq/=.
    + simplify_eq/=. destruct k as [|[|k]]; simplify_eq/=.
  - destruct (call_Execute (startServer' cmd) server w1) as [[e3 c3] w3] eqn:E3.
    simpl in H. destruct e3 as [e3|].
    + simplify_eq/=. destruct k as [|[|k]]; simplify_eq/=. done.
    + simplify_eq/=. destruct k as [|[|k]]; simplify_eq/=.
Qed.

End CompositeFacts.

(** ** Concrete runs *)

(** C3 at its failing input.  [LoadServerCommand(domain.Pause)] returns nil:
    the empty [case domain.Pause:] does not fall through to the Unpause case.
    For Unpause the not-implemented command is returned, and its [Execute]
    sets complete and [ErrorResult] and then panics at the write, its [output]
    being nil. *)
Theorem LoadServerCommand_Pause_is_nil :
  LoadServerCommand Pause = None /\
  LoadServerCommand Unpause = Some (notImplemented newNotImplementedCommand) /\
  nilCommand_Execute newNotImplementedCommand
  = (Panicked "nil pointer dereference",
     mkNil (mkBase true ErrorResult) None "not implemented command" ErrorResult).
Proof. by split_and!. Qed.

(** C5 as stated fails: the first sub-command returns a Go error and leaves
    the result [ErrorResult]; the composite neither completes nor adopts that
    result. *)
Lemma commandList_Execute_error_counterexample :
  let c := newCommandList
             [scripted (Some "exec failed"%string) ErrorResult (bytes_of "x");
              scripted None SuccessResult (bytes_of "y")] in
  let '(err, c', _, tr) := commandList_Execute c () 0%nat in
  tr = [mkEvent 0 (Some "exec failed"%string) ErrorResult] /\
  ErrorResult <> SuccessResult /\
  IsComplete (cl_base c') = false /\
  Result (cl_base c') <> ErrorResult.
Proof. by vm_compute. Qed.

Lemma commandList_Execute_without_errors_witness :
  let c := newCommandList
             [scripted None SuccessResult (bytes_of "a");
              scripted None ErrorResult (bytes_of "b");
              scripted None SuccessResult (bytes_of "c")] in
  let '(err, c', _, tr) := commandList_Execute c () 0%nat in
  err = None /\ IsComplete (cl_base c') = true /\
  map ev_index tr = [0; 1]%nat /\
  Result (cl_base c') = ErrorResult /\
  (commandList_ReadOutput c').1 = bytes_of "ab".
Proof.
  intros c.
  pose proof (commandList_Execute_without_errors c () 0%nat _ _ _ _ eq_refl)
    as H.
  destruct H as (He & Hc & Hi & _ & Hfail & _ & Hout).
  { repeat constructor. }
  destruct (Hfail 1%nat _ eq_refl) as (_ & Hr & _); [done|].
  split_and!; [exact He|exact Hc|exact Hi|exact Hr|exact Hout].
Defined.

Lemma commandList_Execute_propagates_error_witness :
  let c := newCommandList
             [scripted None SuccessResult (bytes_of "a");
              scripted (Some "exec failed"%string) ErrorResult (bytes_of "b");
              scripted None SuccessResult (bytes_of "c")] in
  let '(err, c', _, tr) := commandList_Execute c () 0%nat in
  err = Some "exec failed"%string /\ length tr = 2%nat /\
  IsComplete (cl_base c') = false /\ Result (cl_base c') = UnknownResult.
Proof.
  intros c.
  pose proof (commandList_Execute_propagates_error c () 0%nat _ _ _ _ 1%nat _
                "exec failed"%string eq_refl eq_refl eq_refl) as H.
  destruct H as (He & Hl & _ & _ & Hfresh).
  destruct (Hfresh eq_refl) as [Hc Hr].
  split_and!; [exact He|exact Hl|exact Hc|exact Hr].
Defined.

(** C1 as stated fails: Status reports active, Stop returns a Go error and
    leaves the result [ErrorResult]; the restart completes with
    [UnknownResult], not with Stop's result. *)
Lemma restart_via_stop_start_error_counterexample :
  let cmd := newDefaultRestartServer ""
               (scripted None SuccessResult (bytes_of "status"))
               (scripted (Some "exec failed"%string) ErrorResult (bytes_of "stop"))
               (scripted None SuccessResult (bytes_of "start")) in
  let '(err, cmd', _, tr) := defaultRestartServer_Execute noRestart cmd () 0%nat in
  tr = [mkStep StatusStep None SuccessResult;
        mkStep StopStep (Some "exec failed"%string) ErrorResult] /\
  call_Result (stopServer' cmd') = ErrorResult /\
  ErrorResult <> SuccessResult /\
  IsComplete (rs_base cmd') = true /\
  Result (rs_base cmd') = UnknownResult /\
  Result (rs_base cmd') <> call_Result (stopServer' cmd').
Proof. by vm_compute. Qed.

Lemma restart_via_stop_start_without_errors_witness :
  let cmd := newDefaultRestartServer ""
               (scripted None SuccessResult (bytes_of "status"))
               (scripted None ErrorResult (bytes_of "stop failed"))
               (scripted None SuccessResult (bytes_of "start")) in
  let '(err, cmd', _, tr) := defaultRestartServer_Execute noRestart cmd () 0%nat in
  err = None /\ IsComplete (rs_base cmd') = true /\
  map st_step tr = [StatusStep; StopStep] /\
  Result (rs_base cmd') = ErrorResult /\
  (defaultRestartServer_ReadOutput cmd').1 = bytes_of "statusstop failed".
Proof.
  intros cmd.
  pose proof (restart_via_stop_start_without_errors noRestart cmd () 0%nat
                _ _ _ _ eq_refl eq_refl) as H.
  destruct H as (He & Hc & Hshape & Hout).
  { repeat constructor. }
  destruct Hshape as [(_ & _ & Htr & Hr & _)|[(_ & Hp & _)|(Hs & _)]];
    [|done|done].
  split_and!; [exact He|exact Hc|by rewrite Htr|exact Hr|exact Hout].
Defined.

Lemma restart_with_script_uses_process_manager_witness :
  let cmd := newDefaultRestartServer "restart.sh"
               (scripted None SuccessResult (bytes_of "status"))
               (scripted None SuccessResult (bytes_of "stop"))
               (scripted None SuccessResult (bytes_of "start")) in
  let run := defaultRestartServer_Execute failingRestart cmd () 0%nat in
  run.1.1.1 = Some "restart failed"%string /\ run.2 = [] /\
  IsComplete (rs_base run.1.1.2) = true /\
  Result (rs_base run.1.1.2) = ErrorResult /\
  (defaultRestartServer_ReadOutput run.1.1.2).1 = bytes_of "no such service".
Proof.
  intros cmd run. subst run.
  destruct (restart_with_script_uses_process_manager failingRestart cmd () 0%nat
              ErrorResult (Some "restart failed"%string) (bytes_of "no such service")
              1%nat) as (H1 & _ & H3 & H4 & H5 & _ & _ & _ & H9 & _); [done|done|].
  split_and!; [exact H1|exact H3|exact H4|exact H5|exact H9].
Defined.

Lemma restart_via_stop_start_on_error_witness :
  let cmd := newDefaultRestartServer ""
               (scripted (Some "exec failed"%string) UnknownResult (bytes_of ""))
               (scripted None SuccessResult (bytes_of "stop"))
               (scripted None SuccessResult (bytes_of "start")) in
  let '(err, cmd', _, tr) := defaultRestartServer_Execute noRestart cmd () 0%nat in
  err = Some "failed to check server status: exec failed"%string /\
  length tr = 1%nat /\
  IsComplete (rs_base cmd') = true /\ Result (rs_base cmd') = UnknownResult.
Proof.
  intros cmd.
  destruct (restart_via_stop_start_on_error noRestart cmd () 0%nat _ _ _ _ 0%nat _
              "exec failed"%string eq_refl eq_refl eq_refl eq_refl)
    as (H1 & H2 & H3 & H4).
  split_and!; [exact H2|exact H1|exact H3|exact H4].
Defined.

End GameServerCommands.

(** * Go time values

    A [time.Time] is a count of nanoseconds; a [time.Duration] is an [int64]
    count of nanoseconds.  [Time.Sub] saturates, [Duration] addition wraps. *)

Definition minDuration : Z := - 2 ^ 63.
Definition maxDuration : Z := 2 ^ 63 - 1.
Definition Second : Z := 1000000000.

Definition wrap64 (x : Z) : Z := (x + 2 ^ 63) mod 2 ^ 64 - 2 ^ 63.

(** [t.Sub(u)]. *)
Definition Sub (t u : Z) : Z :=
  if decide (t - u < minDuration) then minDuration
  else if decide (maxDuration < t - u) then maxDuration
  else t - u.

(** [time.Since(t)] and [time.Until(t)] at the clock reading [now]. *)
Definition Since (now t : Z) : Z := Sub now t.
Definition Until (now t : Z) : Z := Sub t now.

(** * Package [gdaemon_scheduler] *)

Module Scheduler.

Import GameServerCommands.

(** Modelled from the spec: [domain.GDTaskStatus], [domain.GDTaskCommand] and
    [domain.GDTask] (the package [domain] is not part of the sources).
    [GDTaskUnknown] stands for a task command outside the named ones. *)
Inductive GDTaskStatus :=
| GDTaskStatusWaiting | GDTaskStatusWorking | GDTaskStatusError
| GDTaskStatusSuccess | GDTaskStatusCanceled.

Inductive GDTaskCommand :=
| GDTaskCommandExecute
| GDTaskGameServerStart | GDTaskGameServerPause | GDTaskGameServerStop
| GDTaskGameServerKill | GDTaskGameServerRestart | GDTaskGameServerInstall
| GDTaskGameServerReinstall | GDTaskGameServerUpdate | GDTaskGameServerDelete
| GDTaskUnknown (name : string).

Record GDTask := mkTask {
  ID : Z;
  RunAfterID : Z;
  Server : option Z;
  Task : GDTaskCommand;
  Command : string;
  Status : GDTaskStatus
}.

#[export] Instance GDTaskStatus_eq_dec : EqDecision GDTaskStatus.
Proof. solve_decision. Defined.
#[export] Instance GDTaskCommand_eq_dec : EqDecision GDTaskCommand.
Proof. solve_decision. Defined.
#[export] Instance GDTask_eq_dec : EqDecision GDTask.
Proof. solve_decision. Defined.

Definition withStatus (t : GDTask) (s : GDTaskStatus) : GDTask :=
  mkTask (ID t) (RunAfterID t) (Server t) (Task t) (Command t) s.

Definition IsWaiting (t : GDTask) : bool := bool_decide (Status t = GDTaskStatusWaiting).
Definition IsWorking (t : GDTask) : bool := bool_decide (Status t = GDTaskStatusWorking).

(** Modelled from the spec: a task is complete once its status is Success,
    Error or Canceled. *)
Definition IsComplete (t : GDTask) : bool :=
  match Status t with
  | GDTaskStatusSuccess | GDTaskStatusError | GDTaskStatusCanceled => true
  | _ => false
  end.

(** Modelled from the spec: the legal status transitions are Waiting to
    Working, Working to Success, Working to Error, Working to Canceled, Waiting
    to Canceled and Waiting to Error; [SetStatus] rejects every other one. *)
Definition legalTransition (from to : GDTaskStatus) : bool :=
  match from, to with
  | GDTaskStatusWaiting, GDTaskStatusWorking
  | GDTaskStatusWorking, GDTaskStatusSuccess
  | GDTaskStatusWorking, GDTaskStatusError
  | GDTaskStatusWorking, GDTaskStatusCanceled
  | GDTaskStatusWaiting, GDTaskStatusCanceled
  | GDTaskStatusWaiting, GDTaskStatusError => true
  | _, _ => false
  end.

Definition ErrInvalidStatusTransition : error := "invalid status transition".
Definition ErrInvalidTaskError : error := "invalid task".

Definition SetStatus (s : GDTaskStatus) (t : GDTask) : option error * GDTask :=
  if legalTransition (Status t) s then (None, withStatus t s)
  else (Some ErrInvalidStatusTransition, t).

(** task_manager.go, lines 21-31. *)
Definition taskServerCommandMap (c : GDTaskCommand) : option ServerCommand :=
  match c with
  | GDTaskGameServerStart => Some Start
  | GDTaskGameServerPause => Some Pause
  | GDTaskGameServerStop => Some Stop
  | GDTaskGameServerKill => Some Kill
  | GDTaskGameServerRestart => Some Restart
  | GDTaskGameServerInstall => Some Install
  | GDTaskGameServerReinstall => Some Reinstall
  | GDTaskGameServerUpdate => Some Update
  | GDTaskGameServerDelete => Some Delete
  | GDTaskCommandExecute | GDTaskUnknown _ => None
  end.

(** What the scheduler reads of a command in progress
    ([contracts.CommandResultReader]): completion, result and the unread
    output.  A running command changes it from its own goroutine. *)
Record commandState := mkCmdState {
  cs_complete : bool;
  cs_result : Z;
  cs_output : list byte
}.

(** The calls made on the task source ([domain.GDTaskRepository]), in order. *)
Inductive repoCall :=
| CallFindByStatus (s : GDTaskStatus)
| CallSave (t : GDTask)
| CallAppendOutput (t : GDTask) (output : list byte).

(** The goroutines started with [go], in order; they run outside the step. *)
Inductive goroutine :=
| GoAppendTaskOutput (task : nat) (output : list byte)
| GoExecuteCommand (task : nat) (cmd : nat)
| GoExecuteGameCommand (task : nat) (cmd : option nat)
| GoRunWorker.

(** task_manager.go, lines 33-43 and 336-339.  Tasks and commands are shared
    through pointers: [tasks] and [cmds] hold the objects by address, [queue]
    is [queue.tasks], and [commandsInProgress] is keyed by the task value
    [*task] and holds a command address or the nil interface. *)
Record TaskManager := mkManager {
  lastUpdated : Z;
  tasks : gmap nat GDTask;
  queue : list nat;
  commandsInProgress : list (GDTask * option nat);
  cmds : gmap nat commandState;
  calls : list repoCall;
  spawned : list goroutine;
  noticed : list Z;
  panicked : option string
}.

Definition set_tasks (f : gmap nat GDTask -> gmap nat GDTask) (m : TaskManager) :=
  mkManager (lastUpdated m) (f (tasks m)) (queue m) (commandsInProgress m) (cmds m)
            (calls m) (spawned m) (noticed m) (panicked m).
Definition set_queue (q : list nat) (m : TaskManager) :=
  mkManager (lastUpdated m) (tasks m) q (commandsInProgress m) (cmds m)
            (calls m) (spawned m) (noticed m) (panicked m).
Definition set_inProgress (c : list (GDTask * option nat)) (m : TaskManager) :=
  mkManager (lastUpdated m) (tasks m) (queue m) c (cmds m)
            (calls m) (spawned m) (noticed m) (panicked m).
Definition set_cmds (c : gmap nat commandState) (m : TaskManager) :=
  mkManager (lastUpdated m) (tasks m) (queue m) (commandsInProgress m) c
            (calls m) (spawned m) (noticed m) (panicked m).
Definition call (c : repoCall) (m : TaskManager) :=
  mkManager (lastUpdated m) (tasks m) (queue m) (commandsInProgress m) (cmds m)
            (calls m ++ [c]) (spawned m) (noticed m) (panicked m).
Definition go (g : goroutine) (m : TaskManager) :=
  mkManager (lastUpdated m) (tasks m) (queue m) (commandsInProgress m) (cmds m)
            (calls m) (spawned m ++ [g]) (noticed m) (panicked m).
Definition notice (s : Z) (m : TaskManager) :=
  mkManager (lastUpdated m) (tasks m) (queue m) (commandsInProgress m) (cmds m)
            (calls m) (spawned m) (noticed m ++ [s]) (panicked m).
Definition panic (reason : string) (m : TaskManager) :=
  mkManager (lastUpdated m) (tasks m) (queue m) (commandsInProgress m) (cmds m)
            (calls m) (spawned m) (noticed m) (Some reason).
Definition set_lastUpdated (t : Z) (m : TaskManager) :=
  mkManager t (tasks m) (queue m) (commandsInProgress m) (cmds m)
            (calls m) (spawned m) (noticed m) (panicked m).

(** [sync.Map] operations on [commandsInProgress]. *)
Definition Store (k : GDTask) (v : option nat) (l : list (GDTask * option nat)) :=
  (k, v) :: filter (fun kv => kv.1 <> k) l.
Definition Load (k : GDTask) (l : list (GDTask * option nat)) : option (option nat) :=
  (fun r => r.2.2) <$> list_find (fun kv => kv.1 = k) l.
Definition Delete' (k : GDTask) (l : list (GDTask * option nat)) :=
  filter (fun kv => kv.1 <> k) l.

(** ** The task queue (task_manager.go, lines 336-451) *)

(** The ID of the task at address [a]. *)
Definition idOf (ts : gmap nat GDTask) (a : nat) : option Z := ID <$> ts !! a.

(** lines 419-427. *)
Fixpoint findByID (ts : gmap nat GDTask) (q : list nat) (id : Z) : option nat :=
  match q with
  | [] => None
  | a :: rest =>
      if decide (idOf ts a = Some id) then Some a else findByID ts rest id
  end.

(** lines 352-359. *)
Fixpoint insert' (ts : gmap nat GDTask) (q : list nat) (new : list nat) : list nat :=
  match new with
  | [] => q
  | t :: rest =>
      match idOf ts t with
      | Some id =>
          match findByID ts q id with
          | None => insert' ts (q ++ [t]) rest
          | Some _ => insert' ts q rest
          end
      | None => insert' ts q rest
      end
  end.

(** lines 368-378. *)
Definition dequeue (q : list nat) : option nat * list nat :=
  match q with
  | [] => (None, [])
  | task :: rest => (Some task, rest)
  end.

(** lines 381-393. *)
Definition Next (ts : gmap nat GDTask) (q : list nat) : option nat * list nat :=
  if decide (length q = 0%nat) then (None, q)
  else
    match dequeue q with
    | (Some task, q1) => (Some task, insert' ts q1 [task])
    | (None, q1) => (None, q1)
    end.

(** lines 395-410: the first index whose task has the ID, then the swap with
    the last element and the truncation. *)
Fixpoint indexOfID (ts : gmap nat GDTask) (q : list nat) (id : option Z) : option nat :=
  match q with
  | [] => None
  | a :: rest =>
      if decide (idOf ts a = id) then Some 0%nat
      else S <$> indexOfID ts rest id
  end.

Definition Remove (ts : gmap nat GDTask) (q : list nat) (task : nat) : list nat :=
  if decide (length q = 0%nat) then q
  else
    match indexOfID ts q (idOf ts task), last q with
    | Some i, Some l => take (length q - 1) (<[i := l]> q)
    | _, _ => q
    end.

(** ** The task manager (task_manager.go, lines 63-334) *)

Section Manager.

(** [repository.FindByStatus]: the tasks and the error the task source
    answers with, given the calls made on it so far. *)
Variable FindByStatus : list repoCall -> GDTaskStatus -> list GDTask * option error.

(** [serverCommandFactory.LoadServerCommand(cmd, task.Server())]: whether it
    returns a command ([true]) or nil.  The two-argument factory this file
    calls is not part of the sources. *)
Variable loadServerCommand : ServerCommand -> option Z -> bool.

(** line 19. *)
Definition updateTimeout : Z := 5 * Second.

Definition restartedMessage : list byte :=
  bytes_of "Working task failed. GameAP Daemon was restarted.".

(** lines 303-312.  [task] is the task value the pointer holds at the call. *)
Definition appendTaskOutput (task : GDTask) (output : list byte) (m : TaskManager)
  : TaskManager :=
  if decide (length output = 0%nat) then m
  else call (CallAppendOutput task output) m.

(** lines 122-134: the loop over [workingTasks]. *)
Fixpoint failWorkingTasks (workingTasks : list GDTask) (m : TaskManager) : TaskManager :=
  match workingTasks with
  | [] => m
  | task :: rest =>
      match SetStatus GDTaskStatusError task with
      | (Some _, _) => failWorkingTasks rest m
      | (None, task1) =>
          let m1 := appendTaskOutput task1 restartedMessage m in
          let m2 := call (CallSave task1) m1 in
          failWorkingTasks rest m2
      end
  end.

(** lines 116-135.  An error of [FindByStatus] is logged and the loop runs
    over what was returned. *)
Definition failWorkingTaskAfterRestart (m : TaskManager) : TaskManager :=
  let '(workingTasks, _) := FindByStatus (calls m) GDTaskStatusWorking in
  failWorkingTasks workingTasks (call (CallFindByStatus GDTaskStatusWorking) m).

(** A task returned by the task source becomes an object of its own. *)
Fixpoint allocTasks (ts : gmap nat GDTask) (new : list GDTask)
  : gmap nat GDTask * list nat :=
  match new with
  | [] => (ts, [])
  | t :: rest =>
      let a := fresh (dom ts) in
      let '(ts', addrs) := allocTasks (<[a := t]> ts) rest in
      (ts', a :: addrs)
  end.

(** lines 314-334, at the clock reading [now]. *)
Definition updateTasksIfNeeded (now : Z) (m : TaskManager) : option error * TaskManager :=
  if decide (Since now (lastUpdated m) <= updateTimeout) then (None, m)
  else
    let '(found, err) := FindByStatus (calls m) GDTaskStatusWaiting in
    let m1 := call (CallFindByStatus GDTaskStatusWaiting) m in
    match err with
    | Some e => (Some e, m1)
    | None =>
        let '(ts, addrs) := allocTasks (tasks m1) found in
        let m2 := set_tasks (fun _ => ts) m1 in
        let m3 := if decide (0 < length addrs)%nat
                  then set_queue (insert' ts (queue m2) addrs) m2 else m2 in
        (None, set_lastUpdated now m3)
    end.

(** lines 63-71: [Run] up to the start of the worker. *)
Definition Run_entry (now : Z) (m : TaskManager) : TaskManager :=
  let m1 := failWorkingTaskAfterRestart m in
  let '(_, m2) := updateTasksIfNeeded now m1 in
  go GoRunWorker m2.

(** lines 184-198. *)
Definition shouldTaskWaitForAnotherToComplete (m : TaskManager) (task : GDTask) : bool :=
  if decide (0 < RunAfterID task) then
    match findByID (tasks m) (queue m) (RunAfterID task) with
    | None => false
    | Some a =>
        match tasks m !! a with
        | Some t => if IsComplete t then false else true
        | None => false
        end
    end
  else false.

(** [task.SetStatus] through the pointer [a]. *)
Definition setStatusAt (a : nat) (s : GDTaskStatus) (m : TaskManager)
  : option error * TaskManager :=
  match tasks m !! a with
  | Some t => let '(err, t') := SetStatus s t in (err, set_tasks <[a := t']> m)
  | None => (None, m)
  end.

(** lines 296-301. *)
Definition failTask (a : nat) (m : TaskManager) : TaskManager :=
  (setStatusAt a GDTaskStatusError m).2.

Definition newExecuteCommand : commandState :=
  {| cs_complete := false; cs_result := 0; cs_output := [] |}.

Definition newGameCommand : commandState :=
  {| cs_complete := false; cs_result := UnknownResult; cs_output := [] |}.

(** lines 219-239. *)
Definition executeCommand (a : nat) (task : GDTask) (m : TaskManager)
  : option error * TaskManager :=
  let c := fresh (dom (cmds m)) in
  let m1 := set_cmds (<[c := newExecuteCommand]> (cmds m)) m in
  let m2 := set_inProgress (Store task (Some c) (commandsInProgress m1)) m1 in
  (None, go (GoExecuteCommand a c) m2).

(** lines 241-268. *)
Definition executeGameCommand (a : nat) (task : GDTask) (m : TaskManager)
  : option error * TaskManager :=
  match taskServerCommandMap (Task task) with
  | None => (Some ErrInvalidTaskError, m)
  | Some cmd =>
      if loadServerCommand cmd (Server task) then
        let c := fresh (dom (cmds m)) in
        let m1 := set_cmds (<[c := newGameCommand]> (cmds m)) m in
        let m2 := set_inProgress (Store task (Some c) (commandsInProgress m1)) m1 in
        (None, go (GoExecuteGameCommand a (Some c)) m2)
      else
        let m2 := set_inProgress (Store task None (commandsInProgress m)) m in
        (None, go (GoExecuteGameCommand a None) m2)
  end.

(** lines 200-217. *)
Definition executeTask (a : nat) (m : TaskManager) : option error * TaskManager :=
  match setStatusAt a GDTaskStatusWorking m with
  | (Some err, m1) => (Some err, m1)
  | (None, m1) =>
      match tasks m1 !! a with
      | None => (None, m1)
      | Some task =>
          let m2 := call (CallSave task) m1 in
          if decide (Task task = GDTaskCommandExecute) then executeCommand a task m2
          else executeGameCommand a task m2
      end
  end.

(** lines 270-294.  The type assertion on a nil interface value panics. *)
Definition proceedTask (a : nat) (task : GDTask) (m : TaskManager)
  : option error * TaskManager :=
  match Load task (commandsInProgress m) with
  | None =>
      (Some "[gdaemon_scheduler.TaskManager] task doesn't exist in working tasks"%string, m)
  | Some None => (None, panic "interface conversion: interface is nil" m)
  | Some (Some c) =>
      match cmds m !! c with
      | None => (None, m)
      | Some cmd =>
          let readOutput (m0 : TaskManager) :=
            go (GoAppendTaskOutput a (cs_output cmd))
               (set_cmds (<[c := mkCmdState (cs_complete cmd) (cs_result cmd) []]>
                            (cmds m0)) m0) in
          if cs_complete cmd then
            let m1 := set_inProgress (Delete' task (commandsInProgress m)) m in
            if decide (cs_result cmd = SuccessResult) then
              match setStatusAt a GDTaskStatusSuccess m1 with
              | (Some err, m2) => (Some err, m2)
              | (None, m2) => (None, readOutput m2)
              end
            else (None, readOutput (failTask a m1))
          else (None, readOutput m)
      end
  end.

(** lines 160-181: the end of [runNext], after the task at [a] was executed
    or proceeded with the error [err]. *)
Definition completeStep (a : nat) (err : option error) (m1 : TaskManager) : TaskManager :=
  match panicked m1 with
  | Some _ => m1
  | None =>
      let m2 :=
        match err with
        | Some e => failTask a (go (GoAppendTaskOutput a (bytes_of e)) m1)
        | None => m1
        end in
      match tasks m2 !! a with
      | None => m2
      | Some task2 =>
          if IsComplete task2 then
            let m3 := match Server task2 with
                      | Some s => notice s m2
                      | None => m2
                      end in
            let m4 := set_queue (Remove (tasks m3) (queue m3) a) m3 in
            call (CallSave task2) m4
          else m2
      end
  end.

(** lines 137-182. *)
Definition runNext (m : TaskManager) : TaskManager :=
  match Next (tasks m) (queue m) with
  | (None, _) => m
  | (Some a, q) =>
      let m0 := set_queue q m in
      match tasks m0 !! a with
      | None => m0
      | Some task =>
          if shouldTaskWaitForAnotherToComplete m0 task then m0
          else
            let '(err, m1) :=
              if IsWaiting task then executeTask a m0
              else if IsWorking task then proceedTask a task m0
              else (None, m0) in
            completeStep a err m1
      end
  end.

(** lines 88-101: one tick of the worker. *)
Definition workerTick (m : TaskManager) : TaskManager :=
  if decide (0 < length (queue m))%nat then runNext m else m.

End Manager.

(** ** The rest of the queue and of the manager's read side *)

(** task_manager.go, lines 429-444. *)
Definition WorkingTasks (ts : gmap nat GDTask) (q : list nat) : list Z * list nat :=
  let working := filter (fun a => from_option IsWorking false (ts !! a) = true) q in
  (omap (idOf ts) working, working).

(** lines 446-451. *)
Definition Len (q : list nat) : Z := Z.of_nat (length q).

(** lines 103-114: [WorkingCount] counts the entries of [commandsInProgress],
    [WaitingCount] is the queue length less that count. *)
Record GDTaskStats := mkStats { WorkingCount : Z; WaitingCount : Z }.

Definition Stats (m : TaskManager) : GDTaskStats :=
  let workingCount := Z.of_nat (length (commandsInProgress m)) in
  {| WorkingCount := workingCount; WaitingCount := Len (queue m) - workingCount |}.

(** The IDs of the queued tasks, in queue order. *)
Definition queueIDs (ts : gmap nat GDTask) (q : list nat) : list Z := omap (idOf ts) q.

(** The queue points to task objects only, and no two of them share an ID. *)
Definition wellFormed (ts : gmap nat GDTask) (q : list nat) : Prop :=
  Forall (fun a => is_Some (ts !! a)) q /\ NoDup (queueIDs ts q).

(** [n] calls of [Next] in a row: the tasks returned, in call order, and the
    queue left. *)
Fixpoint nextTimes (n : nat) (ts : gmap nat GDTask) (q : list nat)
  : list nat * list nat :=
  match n with
  | O => ([], q)
  | S k =>
      match Next ts q with
      | (Some a, q1) => let '(l, q2) := nextTimes k ts q1 in (a :: l, q2)
      | (None, q1) => ([], q1)
      end
  end.

(** ** The command of an execute task and its goroutine (lines 219-239 and
    453-511) *)

(** [strings.ReplaceAll] for a non-empty [old]: the occurrences of [old] are
    replaced from left to right, without overlap.  [skip] counts the characters
    of a replaced occurrence that are still to be passed over. *)
Fixpoint replaceFrom (old new : string) (skip : nat) (s : string) : string :=
  match s with
  | EmptyString => EmptyString
  | String c rest =>
      match skip with
      | S k => replaceFrom old new k rest
      | O =>
          if String.prefix old s
          then new +:+ replaceFrom old new (String.length old - 1) rest
          else String c (replaceFrom old new 0 rest)
      end
  end.

Definition ReplaceAll (s old new : string) : string := replaceFrom old new 0 s.

Section CommandGoroutine.

(** [config.WorkPath], and [executor.ExecWithWriter] on a command line: the
    exit code, the error and what was written to the command's buffer. *)
Variable workPath : string.
Variable execWithWriter : string -> Z * option error * list byte.

(** lines 476-477. *)
Definition expandNodePaths (command : string) : string :=
  let command := ReplaceAll command "{node_work_path}" workPath in
  ReplaceAll command "{node_tools_path}" (workPath +:+ "/tools").

(** lines 471-488. *)
Definition executeCommand_Execute (command : string) (cmd : commandState)
  : option error * commandState :=
  let '(result, err, written) := execWithWriter (expandNodePaths command) in
  (err, mkCmdState true result (cs_output cmd ++ written)).

(** lines 226-236: the goroutine that [executeCommand] starts for the task at
    [a] and the command at [c], run from its start to its end. *)
Definition runExecuteCommand (a c : nat) (m : TaskManager) : TaskManager :=
  match tasks m !! a, cmds m !! c with
  | Some task, Some cmd =>
      let '(err, cmd') := executeCommand_Execute (Command task) cmd in
      let m1 := set_cmds (<[c := cmd']> (cmds m)) m in
      match err with
      | Some e => failTask a (appendTaskOutput task (bytes_of e) m1)
      | None => m1
      end
  | _, _ => m
  end.

End CommandGoroutine.

(** line 163 and line 291: the goroutine [go manager.appendTaskOutput(ctx,
    task, output)], run from its start to its end. *)
Definition runAppendTaskOutput (a : nat) (output : list byte) (m : TaskManager)
  : TaskManager :=
  match tasks m !! a with
  | Some task => appendTaskOutput task output m
  | None => m
  end.

(** ** Concrete data, after the functional tests' task sequences *)

(** Task 3 runs a command line. *)
Definition task3 : GDTask :=
  mkTask 3 0 None GDTaskCommandExecute "{node_tools_path}/backup.sh" GDTaskStatusWaiting.

Definition onlyTask3 : TaskManager :=
  mkManager 0 (<[0%nat := task3]> ∅) [0]%nat [] ∅ [] [] [] None.

(** Executors: one whose command exits with 2 after writing a line, and one
    that cannot start the command. *)
Definition exitsWith2 (_ : string) : Z * option error * list byte :=
  (2, None, bytes_of "backup failed").
Definition cannotExec (_ : string) : Z * option error * list byte :=
  (-1, Some "executable file not found"%string, []).

Definition emptyManager : TaskManager :=
  mkManager 0 ∅ [] [] ∅ [] [] [] None.

(** Task 1 starts the server; task 2 stops it and runs after task 1. *)
Definition task1 : GDTask :=
  mkTask 1 0 (Some 1) GDTaskGameServerStart "" GDTaskStatusWaiting.
Definition task2 : GDTask :=
  mkTask 2 1 (Some 1) GDTaskGameServerStop "" GDTaskStatusWaiting.

(** Task 2 at the head of the queue, task 1 behind it. *)
Definition twoTasks : TaskManager :=
  mkManager 0 (<[0%nat := task2]> (<[1%nat := task1]> ∅)) [0; 1]%nat [] ∅ [] [] [] None.

(** Task 2 alone: its predecessor is not in the queue. *)
Definition onlyTask2 : TaskManager :=
  mkManager 0 (<[0%nat := task2]> ∅) [0]%nat [] ∅ [] [] [] None.

(** A task left in Working, alone in the queue, with no command in progress. *)
Definition lostTask : TaskManager :=
  mkManager 0 (<[0%nat := withStatus task1 GDTaskStatusWorking]> ∅) [0]%nat [] ∅ [] [] []
            None.

(** Task 1 in Working with its command at address 7; the command is in the
    given state. *)
Definition runningTask (cmd : commandState) : TaskManager :=
  mkManager 0 (<[0%nat := withStatus task1 GDTaskStatusWorking]> ∅) [0]%nat
            [(withStatus task1 GDTaskStatusWorking, Some 7%nat)] (<[7%nat := cmd]> ∅)
            [] [] [] None.

(** Task 1 in Working, registered with a nil command. *)
Definition nilCommandTask : TaskManager :=
  mkManager 0 (<[0%nat := withStatus task1 GDTaskStatusWorking]> ∅) [0]%nat
            [(withStatus task1 GDTaskStatusWorking, None)] ∅ [] [] [] None.

(** A waiting task with a task command the scheduler does not know. *)
Definition unknownTask : TaskManager :=
  mkManager 0 (<[0%nat := mkTask 9 0 None (GDTaskUnknown "gsmove") "" GDTaskStatusWaiting]> ∅)
            [0]%nat [] ∅ [] [] [] None.

(** Task 1 waiting, alone in the queue. *)
Definition onlyTask1 : TaskManager :=
  mkManager 0 (<[0%nat := task1]> ∅) [0]%nat [] ∅ [] [] [] None.

Definition neverLoads (_ : ServerCommand) (_ : option Z) : bool := false.

(** Task 1 already in Error, still queued and still registered with the
    command at address 7. *)
Definition failedTask : TaskManager :=
  mkManager 0 (<[0%nat := withStatus task1 GDTaskStatusError]> ∅) [0]%nat
            [(withStatus task1 GDTaskStatusWorking, Some 7%nat)]
            (<[7%nat := mkCmdState true ErrorResult []]> ∅) [] [] [] None.

(** A task source holding two tasks left in Working and none waiting. *)
Definition crashedSource (_ : list repoCall) (s : GDTaskStatus)
  : list GDTask * option error :=
  match s with
  | GDTaskStatusWorking =>
      ([withStatus task1 GDTaskStatusWorking; withStatus task2 GDTaskStatusWorking],
       None)
  | _ => ([], None)
  end.

Definition alwaysLoads (_ : ServerCommand) (_ : option Z) : bool := true.

(** ** Facts about the queue *)

Lemma findByID_Some ts q id a :
  findByID ts q id = Some a -> a ∈ q /\ idOf ts a = Some id.
Proof.
  induction q as [|x q IH]; simpl; [done|].
  destruct (decide (idOf ts x = Some id)) as [Hx|Hx].
  - intros [= <-]. split; [left|done].
  - intros H. destruct (IH H). split; [by right|done].
Qed.

Lemma findByID_None ts q id :
  (forall a, a ∈ q -> idOf ts a <> Some id) -> findByID ts q id = None.
Proof.
  induction q as [|x q IH]; simpl; [done|]. intros H.
  destruct (decide (idOf ts x = Some id)) as [Hx|Hx].
  - exfalso. eapply H; [left|done].
  - apply IH. intros a Ha. apply H. by right.
Qed.

Lemma findByID_is_Some ts q id a :
  a ∈ q -> idOf ts a = Some id -> is_Some (findByID ts q id).
Proof.
  induction q as [|x q IH]; simpl; intros Ha Hid; [by inversion Ha|].
  destruct (decide (idOf ts x = Some id)); [done|].
  apply IH; [|done]. inversion Ha; subst; [done|done].
Qed.

(** Rotating the queue keeps its members, and keeps some task of every ID it
    had. *)
Lemma Next_members ts q a q' :
  Next ts q = (Some a, q') ->
  head q = Some a /\ (forall x, x ∈ q' -> x ∈ q) /\
  (forall x id, x ∈ q -> idOf ts x = Some id ->
     exists y, y ∈ q' /\ idOf ts y = Some id).
Proof.
  unfold Next. destruct q as [|h rest]; simpl; [done|].
  destruct (idOf ts h) as [hid|] eqn:Hh.
  - destruct (findByID ts rest hid) as [d|] eqn:Hf; intros [= <- <-].
    + split_and!; [done|by right|].
      intros x id Hx Hid. inversion Hx; subst; [|by exists x].
      apply findByID_Some in Hf as [Hd Hdid]. exists d. split; [done|congruence].
    + split_and!; [done| |].
      * intros x Hx. apply elem_of_app in Hx as [Hx|Hx]; [by right|].
        apply list_elem_of_singleton in Hx as ->. left.
      * intros x id Hx Hid. exists x. split; [|done].
        inversion Hx; subst; apply elem_of_app; [right; by left|by left].
  - intros [= <- <-]. split_and!; [done|by right|].
    intros x id Hx Hid. inversion Hx; subst; [congruence|by exists x].
Qed.

Section ManagerFacts.

Variable FindByStatus : list repoCall -> GDTaskStatus -> list GDTask * option error.
Variable loadServerCommand : ServerCommand -> option Z -> bool.

Lemma setStatusAt_frame h s m a :
  a <> h -> tasks (setStatusAt h s m).2 !! a = tasks m !! a.
Proof.
  intros Hne. unfold setStatusAt. destruct (tasks m !! h) as [t|]; [|done].
  destruct (SetStatus s t). simpl. by rewrite lookup_insert_ne.
Qed.

Lemma executeTask_frame h m a :
  a <> h -> tasks (executeTask loadServerCommand h m).2 !! a = tasks m !! a.
Proof.
  intros Hne. unfold executeTask.
  pose proof (setStatusAt_frame h GDTaskStatusWorking m a Hne) as Hf.
  destruct (setStatusAt h GDTaskStatusWorking m) as [[e|] m1]; simpl in *; [done|].
  destruct (tasks m1 !! h) as [t|]; [|done].
  destruct (decide (Task t = GDTaskCommandExecute)); [done|].
  unfold executeGameCommand. destruct (taskServerCommandMap (Task t)); [|done].
  by destruct (loadServerCommand _ _).
Qed.

Lemma proceedTask_frame h t m a :
  a <> h -> tasks (proceedTask h t m).2 !! a = tasks m !! a.
Proof.
  intros Hne. unfold proceedTask.
  destruct (Load t (commandsInProgress m)) as [[c|]|]; [|done|done].
  destruct (cmds m !! c) as [cmd|]; [|done].
  destruct (cs_complete cmd); [|done].
  destruct (decide (cs_result cmd = SuccessResult)) as [Hres|Hres].
  - pose proof (setStatusAt_frame h GDTaskStatusSuccess
                  (set_inProgress (Delete' t (commandsInProgress m)) m) a Hne) as Hf.
    by destruct (setStatusAt h GDTaskStatusSuccess _) as [[e|] m2].
  - simpl. unfold failTask. by rewrite setStatusAt_frame.
Qed.

Lemma completeStep_frame h err m1 a :
  a <> h -> tasks (completeStep h err m1) !! a = tasks m1 !! a.
Proof.
  intros Hne. unfold completeStep. destruct (panicked m1); [done|]. cbv zeta.
  set (m2 := match err with
             | Some e => failTask h (go (GoAppendTaskOutput h (bytes_of e)) m1)
             | None => m1
             end).
  assert (Hm2 : tasks m2 !! a = tasks m1 !! a).
  { subst m2. destruct err; [|done]. unfold failTask. by rewrite setStatusAt_frame. }
  clearbody m2.
  destruct (tasks m2 !! h) as [t2|]; [|done].
  destruct (IsComplete t2); [|done]. by destruct (Server t2).
Qed.

(** A step of the worker changes no task object but the one at the head of
    the queue. *)
Lemma runNext_frame m a :
  head (queue m) <> Some a ->
  tasks (runNext loadServerCommand m) !! a = tasks m !! a.
Proof.
  intros Hhead. unfold runNext.
  destruct (Next (tasks m) (queue m)) as [[h|] q] eqn:HN; [|done].
  apply Next_members in HN as (Hh & _ & _).
  assert (Hne : a <> h) by congruence.
  cbv zeta. destruct (tasks (set_queue q m) !! h) as [t|] eqn:Ht; [|done].
  destruct (shouldTaskWaitForAnotherToComplete _ t); [done|].
  destruct (IsWaiting t).
  - pose proof (executeTask_frame h (set_queue q m) a Hne) as Hf.
    destruct (executeTask loadServerCommand h (set_queue q m)) as [err m1].
    by rewrite completeStep_frame.
  - destruct (IsWorking t).
    + pose proof (proceedTask_frame h t (set_queue q m) a Hne) as Hf.
      destruct (proceedTask h t (set_queue q m)) as [err m1].
      by rewrite completeStep_frame.
    + by rewrite completeStep_frame.
Qed.

Lemma executeTask_Waiting a m t :
  tasks m !! a = Some t -> Status t = GDTaskStatusWaiting ->
  exists err m',
    executeTask loadServerCommand a m = (err, m') /\
    calls m' = calls m ++ [CallSave (withStatus t GDTaskStatusWorking)] /\
    tasks m' = <[a := withStatus t GDTaskStatusWorking]> (tasks m) /\
    panicked m' = panicked m.
Proof.
  intros Ht Hs. unfold executeTask, setStatusAt. rewrite Ht.
  unfold SetStatus. rewrite Hs. simpl. rewrite lookup_insert_eq.
  destruct (decide (Task (withStatus t GDTaskStatusWorking) = GDTaskCommandExecute)).
  - by eexists _, _.
  - unfold executeGameCommand.
    destruct (taskServerCommandMap _); [|by eexists _, _].
    destruct (loadServerCommand _ _); by eexists _, _.
Qed.

(** The worker step proper: a waiting task whose predecessor is in the queue
    and not complete is left as it is; one whose predecessor is not in the
    queue is set to Working and saved when it is at the head of the queue. *)
Lemma runNext_RunAfterID m a t r :
  tasks m !! a = Some t ->
  Status t = GDTaskStatusWaiting ->
  RunAfterID t = r ->
  0 < r ->
  ((exists p, p ∈ queue m /\ idOf (tasks m) p = Some r) ->
   (forall p pt, p ∈ queue m -> tasks m !! p = Some pt -> ID pt = r ->
                 IsComplete pt = false) ->
   tasks (runNext loadServerCommand m) !! a = Some t)
  /\
  (head (queue m) = Some a ->
   (forall p, p ∈ queue m -> idOf (tasks m) p <> Some r) ->
   exists rest t',
     calls (runNext loadServerCommand m)
     = calls m ++ CallSave (withStatus t GDTaskStatusWorking) :: rest /\
     tasks (runNext loadServerCommand m) !! a = Some t' /\
     Status t' <> GDTaskStatusWaiting).
Proof.
  intros Ht Hs Hr Hpos. split.
  - intros (p & Hp & Hpid) Hinc.
    destruct (decide (head (queue m) = Some a)) as [Hhead|Hhead];
      [|by rewrite runNext_frame].
    unfold runNext.
    destruct (Next (tasks m) (queue m)) as [[h|] q] eqn:HN; [|done].
    apply Next_members in HN as (Hh & Hsub & Hkeep).
    assert (h = a) by congruence. subst h. cbv zeta.
    change (tasks (set_queue q m)) with (tasks m). rewrite Ht.
    unfold shouldTaskWaitForAnotherToComplete. rewrite Hr.
    destruct (decide (0 < r)); [|done].
    change (tasks (set_queue q m)) with (tasks m).
    change (queue (set_queue q m)) with q.
    destruct (Hkeep p r Hp Hpid) as (y & Hy & Hyid).
    destruct (findByID_is_Some _ _ _ _ Hy Hyid) as [d Hd]. rewrite Hd.
    apply findByID_Some in Hd as [Hdq Hdid].
    unfold idOf in Hdid. destruct (tasks m !! d) as [pt|] eqn:Hpt; [|done].
    simpl in Hdid. rewrite (Hinc d pt); [done|by apply Hsub|done|congruence].
  - intros Hhead Habsent. unfold runNext.
    destruct (Next (tasks m) (queue m)) as [[h|] q] eqn:HN.
    2:{ unfold Next in HN. by destruct (queue m). }
    apply Next_members in HN as (Hh & Hsub & _).
    assert (h = a) by congruence. subst h. cbv zeta.
    change (tasks (set_queue q m)) with (tasks m). rewrite Ht.
    unfold shouldTaskWaitForAnotherToComplete. rewrite Hr.
    destruct (decide (0 < r)); [|done].
    change (tasks (set_queue q m)) with (tasks m).
    change (queue (set_queue q m)) with q.
    rewrite findByID_None by (intros x Hx; apply Habsent, Hsub, Hx).
    unfold IsWaiting. rewrite Hs. simpl.
    destruct (executeTask_Waiting a (set_queue q m) t Ht Hs)
      as (err & m1 & -> & Hcalls & Htasks & Hpan).
    unfold completeStep. destruct (panicked m1).
    { exists [], (withStatus t GDTaskStatusWorking). split_and!.
      - exact Hcalls.
      - rewrite Htasks. apply lookup_insert_eq.
      - done. }
    cbv zeta. destruct err as [e|].
    + unfold failTask, setStatusAt. simpl. rewrite Htasks, lookup_insert_eq.
      simpl. rewrite lookup_insert_eq. simpl.
      exists [CallSave (withStatus (withStatus t GDTaskStatusWorking) GDTaskStatusError)],
             (withStatus (withStatus t GDTaskStatusWorking) GDTaskStatusError).
      destruct (Server t); simpl; rewrite ?lookup_insert_eq, Hcalls, <- ?app_assoc;
        by split_and!.
    + rewrite Htasks, lookup_insert_eq. simpl.
      exists [], (withStatus t GDTaskStatusWorking). split_and!.
      * exact Hcalls.
      * rewrite Htasks. apply lookup_insert_eq.
      * done.
Qed.

(** C2.  Let [t] be a waiting task with [RunAfterID = r > 0].  On a worker
    step, if a task with ID [r] is in the queue and the tasks with that ID in
    the queue are not complete, [t] is left as it is (it is not transitioned to
    Working); and if no task with ID [r] is in the queue, [t] does not have to
    wait, and when it is the task the step takes from the queue it proceeds:
    it is transitioned to Working and saved to the task source as such. *)
Theorem workerTick_honours_RunAfterID m a t r :
  tasks m !! a = Some t ->
  Status t = GDTaskStatusWaiting ->
  RunAfterID t = r ->
  0 < r ->
  ((exists p, p ∈ queue m /\ idOf (tasks m) p = Some r) ->
   (forall p pt, p ∈ queue m -> tasks m !! p = Some pt -> ID pt = r ->
                 IsComplete pt = false) ->
   tasks (workerTick loadServerCommand m) !! a = Some t)
  /\
  ((forall p, p ∈ queue m -> idOf (tasks m) p <> Some r) ->
   shouldTaskWaitForAnotherToComplete m t = false /\
   (head (queue m) = Some a ->
    exists rest t',
      calls (workerTick loadServerCommand m)
      = calls m ++ CallSave (withStatus t GDTaskStatusWorking) :: rest /\
      tasks (workerTick loadServerCommand m) !! a = Some t' /\
      Status t' <> GDTaskStatusWaiting)).
Proof.
  intros Ht Hs Hr Hpos.
  destruct (runNext_RunAfterID m a t r Ht Hs Hr Hpos) as [Hwait Hgo].
  split.
  - intros Hex Hinc. unfold workerTick.
    destruct (decide (0 < length (queue m))%nat); [by apply Hwait|done].
  - intros Habsent. split.
    + unfold shouldTaskWaitForAnotherToComplete. rewrite Hr.
      destruct (decide (0 < r)); [|done]. by rewrite findByID_None.
    + intros Hhead. unfold workerTick.
      destruct (decide (0 < length (queue m))%nat) as [Hlen|Hlen]; [by apply Hgo|].
      destruct (queue m); [done|]. simpl in Hlen. lia.
Qed.

Lemma failWorkingTasks_calls ws : forall m,
  exists ext,
    calls (failWorkingTasks ws m) = calls m ++ ext /\
    forall t, t ∈ ws -> Status t = GDTaskStatusWorking ->
      exists pre post,
        ext = pre ++ [CallAppendOutput (withStatus t GDTaskStatusError) restartedMessage;
                      CallSave (withStatus t GDTaskStatusError)] ++ post.
Proof.
  induction ws as [|w ws IH]; intros m; simpl.
  - exists []. split; [by rewrite app_nil_r|]. intros t Ht. by inversion Ht.
  - unfold SetStatus. destruct (legalTransition (Status w) GDTaskStatusError) eqn:Hl.
    + destruct (IH (call (CallSave (withStatus w GDTaskStatusError))
                      (appendTaskOutput (withStatus w GDTaskStatusError)
                                        restartedMessage m)))
        as (ext & Hext & Hall).
      exists ([CallAppendOutput (withStatus w GDTaskStatusError) restartedMessage;
               CallSave (withStatus w GDTaskStatusError)] ++ ext).
      split.
      * rewrite Hext. simpl. by rewrite <- !app_assoc.
      * intros t Ht Hs. inversion Ht; subst.
        -- by exists [], ext.
        -- destruct (Hall t) as (pre & post & ->); [done|done|].
           eexists (_ :: _ :: pre), post. done.
    + destruct (IH m) as (ext & Hext & Hall). exists ext. split; [done|].
      intros t Ht Hs. inversion Ht; subst; [|by apply Hall].
      by rewrite Hs in Hl.
Qed.

(** C6.  On entry of [Run], for every task the task source returns as
    Working: the task is transitioned to Error, the text "Working task failed.
    GameAP Daemon was restarted." is appended to its output at the task
    source, and right after that the task, in status Error, is saved to the
    task source. *)
Theorem Run_entry_fails_working_tasks now m t :
  t ∈ (FindByStatus (calls m) GDTaskStatusWorking).1 ->
  Status t = GDTaskStatusWorking ->
  SetStatus GDTaskStatusError t = (None, withStatus t GDTaskStatusError) /\
  Status (withStatus t GDTaskStatusError) = GDTaskStatusError /\
  exists pre post,
    calls (Run_entry FindByStatus now m)
    = calls m ++ pre
      ++ [CallAppendOutput (withStatus t GDTaskStatusError)
            (bytes_of "Working task failed. GameAP Daemon was restarted.");
          CallSave (withStatus t GDTaskStatusError)]
      ++ post.
Proof.
  intros Ht Hs. split_and!.
  - unfold SetStatus. by rewrite Hs.
  - done.
  - unfold Run_entry, failWorkingTaskAfterRestart.
    destruct (FindByStatus (calls m) GDTaskStatusWorking) as [ws e] eqn:HF.
    simpl in Ht.
    destruct (failWorkingTasks_calls ws (call (CallFindByStatus GDTaskStatusWorking) m))
      as (ext & Hext & Hall).
    destruct (Hall t Ht Hs) as (pre & post & ->).
    set (m1 := failWorkingTasks ws _) in *.
    assert (Hupd : exists ext2,
               calls (updateTasksIfNeeded FindByStatus now m1).2 = calls m1 ++ ext2).
    { unfold updateTasksIfNeeded.
      destruct (decide (Since now (lastUpdated m1) <= updateTimeout));
        [exists []; by rewrite app_nil_r|].
      destruct (FindByStatus (calls m1) GDTaskStatusWaiting) as [found [e'|]];
        [by eexists|].
      destruct (allocTasks _ found) as [ts addrs]. simpl.
      destruct (decide (0 < length addrs)%nat); by eexists. }
    destruct Hupd as (ext2 & Hext2).
    destruct (updateTasksIfNeeded FindByStatus now m1) as [e2 m2]. simpl in *.
    rewrite Hext2, Hext. simpl.
    exists (CallFindByStatus GDTaskStatusWorking :: pre), (post ++ ext2).
    by rewrite <- !app_assoc.
Qed.

End ManagerFacts.

Lemma workerTick_honours_RunAfterID_witness :
  tasks (workerTick alwaysLoads twoTasks) !! 0%nat = Some task2 /\
  exists rest t',
    calls (workerTick alwaysLoads onlyTask2)
    = calls onlyTask2 ++ CallSave (withStatus task2 GDTaskStatusWorking) :: rest /\
    tasks (workerTick alwaysLoads onlyTask2) !! 0%nat = Some t' /\
    Status t' <> GDTaskStatusWaiting.
Proof.
  split.
  - refine (proj1 (workerTick_honours_RunAfterID alwaysLoads twoTasks 0%nat task2 1
                     eq_refl eq_refl eq_refl eq_refl) _ _).
    + exists 1%nat. split; [|done]. right. left.
    + intros p pt Hp Hl Hid.
      apply elem_of_cons in Hp as [->|Hp].
      { vm_compute in Hl. by simplify_eq. }
      apply elem_of_cons in Hp as [->|Hp].
      { vm_compute in Hl. by simplify_eq. }
      by inversion Hp.
  - refine (proj2 (proj2 (workerTick_honours_RunAfterID alwaysLoads onlyTask2 0%nat
                            task2 1 eq_refl eq_refl eq_refl eq_refl) _) eq_refl).
    intros p Hp. apply elem_of_cons in Hp as [->|Hp]; [done|by inversion Hp].
Defined.

Lemma Run_entry_fails_working_tasks_witness :
  exists pre post,
    calls (Run_entry crashedSource (10 * Second) emptyManager)
    = calls emptyManager ++ pre
      ++ [CallAppendOutput (withStatus task2 GDTaskStatusError)
            (bytes_of "Working task failed. GameAP Daemon was restarted.");
          CallSave (withStatus task2 GDTaskStatusError)]
      ++ post.
Proof.
  refine (proj2 (proj2 (Run_entry_fails_working_tasks crashedSource (10 * Second)
                          emptyManager (withStatus task2 GDTaskStatusWorking) _ eq_refl))).
  simpl. right. left.
Defined.

(** ** Further facts about the queue *)

Lemma queueIDs_app ts q1 q2 :
  queueIDs ts (q1 ++ q2) = queueIDs ts q1 ++ queueIDs ts q2.
Proof. apply omap_app. Qed.

Lemma queueIDs_valid ts a t : ts !! a = Some t -> queueIDs ts [a] = [ID t].
Proof. intros H. unfold queueIDs, idOf. simpl. by rewrite H. Qed.

Lemma findByID_None_iff ts q id :
  findByID ts q id = None <-> id ∉ queueIDs ts q.
Proof.
  induction q as [|x q IH]; simpl.
  - split; [intros _ H; by inversion H|done].
  - unfold queueIDs in *. simpl.
    destruct (decide (idOf ts x = Some id)) as [Hx|Hx].
    + rewrite Hx. split; [done|]. intros H. exfalso. apply H. left.
    + rewrite IH. destruct (idOf ts x) as [y|]; [|done].
      rewrite not_elem_of_cons. split; [|tauto]. intros H. split; [congruence|done].
Qed.

Lemma findByID_app_l ts q1 q2 id b :
  findByID ts q1 id = Some b -> findByID ts (q1 ++ q2) id = Some b.
Proof.
  induction q1 as [|x q1 IH]; simpl; [done|].
  by destruct (decide (idOf ts x = Some id)).
Qed.

Lemma wellFormed_snoc ts q a t :
  wellFormed ts q -> ts !! a = Some t -> ID t ∉ queueIDs ts q ->
  wellFormed ts (q ++ [a]).
Proof.
  intros [Hv Hnd] Ha Hfresh. split.
  - apply Forall_app. split; [done|]. by repeat constructor.
  - rewrite queueIDs_app, (queueIDs_valid ts a t Ha).
    apply NoDup_app. split_and!; [done| |apply NoDup_singleton].
    intros x Hx Hx'. apply list_elem_of_singleton in Hx'. by subst.
Qed.

Lemma insert_spec ts q new :
  wellFormed ts q ->
  Forall (fun a => is_Some (ts !! a)) new ->
  wellFormed ts (insert' ts q new) /\
  q `prefix_of` insert' ts q new /\
  (forall id, id ∈ queueIDs ts (insert' ts q new)
              <-> id ∈ queueIDs ts q \/ id ∈ queueIDs ts new) /\
  (forall id b, findByID ts q id = Some b ->
                findByID ts (insert' ts q new) id = Some b).
Proof.
  revert q. induction new as [|t rest IH]; intros q Hwf Hnew; cbn [insert'].
  - split_and!; [done|done| |done].
    intros id. split; [by left|]. intros [H|H]; [done|by inversion H].
  - inversion Hnew as [|? ? [tk Ht] Hrest]; subst.
    assert (Hid : idOf ts t = Some (ID tk)) by (unfold idOf; by rewrite Ht).
    rewrite !Hid.
    assert (Hids : queueIDs ts (t :: rest) = ID tk :: queueIDs ts rest).
    { unfold queueIDs, idOf. simpl. by rewrite Ht. }
    destruct (findByID ts q (ID tk)) as [d|] eqn:Hf.
    + destruct (IH q Hwf Hrest) as (H1 & H2 & H3 & H4).
      split_and!; [done|done| |done].
      intros id. rewrite H3, Hids, elem_of_cons.
      split; [tauto|]. intros [H|[->|H]]; [by left| |by right].
      left. apply dec_stable. intros Hn. apply findByID_None_iff in Hn. congruence.
    + apply findByID_None_iff in Hf.
      destruct (IH (q ++ [t]) (wellFormed_snoc ts q t tk Hwf Ht Hf) Hrest)
        as (H1 & H2 & H3 & H4).
      split_and!; [done| | |].
      * etrans; [|exact H2]. by apply prefix_app_r.
      * intros id. rewrite H3, queueIDs_app, (queueIDs_valid ts t tk Ht), Hids.
        rewrite elem_of_app, list_elem_of_singleton, elem_of_cons. tauto.
      * intros id b Hb. apply H4. by apply findByID_app_l.
Qed.

(** X1.  [Insert] only appends: the queue it finds stays as it is at the
    front.  It keeps the queue well formed (task objects only, no ID twice),
    the IDs queued afterwards are those queued before and those of the new
    tasks, and for an ID that was queued before, the task found under it is
    still the older one. *)
Theorem insert_appends_and_keeps_IDs_unique ts q new :
  wellFormed ts q ->
  Forall (fun a => is_Some (ts !! a)) new ->
  wellFormed ts (insert' ts q new) /\
  q `prefix_of` insert' ts q new /\
  (forall id, id ∈ queueIDs ts (insert' ts q new)
              <-> id ∈ queueIDs ts q \/ id ∈ queueIDs ts new) /\
  (forall id b, findByID ts q id = Some b ->
                findByID ts (insert' ts q new) id = Some b).
Proof.
  intros Hwf Hnew.
  destruct (insert_spec ts q new Hwf Hnew) as (Hwf' & Hprefix & Hids & Hfind).
  split_and!; [exact Hwf'|exact Hprefix|exact Hids|exact Hfind].
Qed.

Lemma insert_appends_and_keeps_IDs_unique_witness :
  insert' (tasks twoTasks) [0%nat] [1; 0; 1]%nat = [0; 1]%nat /\
  wellFormed (tasks twoTasks) (insert' (tasks twoTasks) [0%nat] [1; 0; 1]%nat).
Proof.
  assert (Hwf : wellFormed (tasks twoTasks) [0%nat]).
  { split; [repeat constructor; by eexists|].
    vm_compute. apply NoDup_singleton. }
  assert (Hnew : Forall (fun a => is_Some (tasks twoTasks !! a)) [1; 0; 1]%nat).
  { repeat constructor; by eexists. }
  split; [reflexivity|].
  exact (proj1 (insert_appends_and_keeps_IDs_unique (tasks twoTasks) [0%nat]
                  [1; 0; 1]%nat Hwf Hnew)).
Defined.

Lemma id_in_queueIDs ts q a t : a ∈ q -> ts !! a = Some t -> ID t ∈ queueIDs ts q.
Proof.
  intros Ha Ht. unfold queueIDs. apply list_elem_of_omap. exists a. split; [done|].
  unfold idOf. by rewrite Ht.
Qed.

Lemma wellFormed_cons ts x q :
  wellFormed ts (x :: q) ->
  exists t, ts !! x = Some t /\ (ID t ∉ queueIDs ts q) /\ wellFormed ts q.
Proof.
  intros [Hv Hnd]. inversion Hv as [|? ? [t Ht] Hv']; subst. exists t.
  unfold queueIDs, idOf in Hnd. simpl in Hnd. rewrite Ht in Hnd. simpl in Hnd.
  inversion Hnd; subst. by split_and!.
Qed.

Lemma wellFormed_Permutation ts q q' :
  q ≡ₚ q' -> wellFormed ts q -> wellFormed ts q'.
Proof.
  intros Hp [Hv Hnd]. split; [by rewrite <- Hp|].
  unfold queueIDs in *. by rewrite <- Hp.
Qed.

Lemma wellFormed_NoDup ts q : wellFormed ts q -> NoDup q.
Proof.
  induction q as [|x q IH]; intros Hwf; [constructor|].
  destruct (wellFormed_cons ts x q Hwf) as (t & Ht & Hfresh & Hq).
  constructor; [|by apply IH]. intros Hx. apply Hfresh. by eapply id_in_queueIDs.
Qed.

Lemma Next_rotates ts h rest :
  wellFormed ts (h :: rest) -> Next ts (h :: rest) = (Some h, rest ++ [h]).
Proof.
  intros Hwf. destruct (wellFormed_cons ts h rest Hwf) as (t & Ht & Hfresh & _).
  unfold Next. simpl. unfold idOf at 1. rewrite Ht. simpl.
  by rewrite (proj2 (findByID_None_iff ts rest (ID t)) Hfresh).
Qed.

Lemma nextTimes_rotates ts pre : forall suf,
  wellFormed ts (pre ++ suf) ->
  nextTimes (length pre) ts (pre ++ suf) = (pre, suf ++ pre).
Proof.
  induction pre as [|h pre IH]; intros suf Hwf.
  - simpl. by rewrite app_nil_r.
  - rewrite <- app_comm_cons in *. cbn [length nextTimes].
    rewrite (Next_rotates ts h (pre ++ suf) Hwf).
    rewrite <- app_assoc. rewrite (IH (suf ++ [h])).
    + by rewrite <- app_assoc.
    + eapply wellFormed_Permutation; [|exact Hwf].
      rewrite app_assoc. by rewrite <- Permutation_cons_append.
Qed.

(** X2.  On a well-formed queue [Next] rotates: it returns the first task and
    moves it to the end, and on the empty queue it returns nil.  After as many
    calls as the queue is long, every task was returned once, in queue order,
    and the queue is back in its order. *)
Theorem Next_rotates_the_queue ts q :
  wellFormed ts q ->
  Next ts [] = (None, []) /\
  (forall h rest, q = h :: rest -> Next ts q = (Some h, rest ++ [h])) /\
  nextTimes (length q) ts q = (q, q).
Proof.
  intros Hwf. split_and!.
  - done.
  - intros h rest ->. by apply Next_rotates.
  - pose proof (nextTimes_rotates ts q [] ) as H. rewrite app_nil_r in H.
    by apply H.
Qed.

Lemma wellFormed_twoTasks : wellFormed (tasks twoTasks) (queue twoTasks).
Proof.
  split; [repeat constructor; by eexists|].
  by apply (bool_decide_unpack _).
Qed.

Lemma Next_rotates_the_queue_witness :
  Next (tasks twoTasks) [0; 1]%nat = (Some 0%nat, [1; 0]%nat) /\
  nextTimes 2 (tasks twoTasks) [0; 1]%nat = ([0; 1]%nat, [0; 1]%nat).
Proof.
  destruct (Next_rotates_the_queue (tasks twoTasks) [0; 1]%nat wellFormed_twoTasks)
    as (_ & H1 & H2).
  split; [exact (H1 0%nat [1%nat] eq_refl)|exact H2].
Defined.

Lemma indexOfID_first ts pre a suf :
  wellFormed ts (pre ++ a :: suf) ->
  indexOfID ts (pre ++ a :: suf) (idOf ts a) = Some (length pre).
Proof.
  induction pre as [|x pre IH]; intros Hwf; simpl.
  - by destruct (decide (idOf ts a = idOf ts a)).
  - destruct (wellFormed_cons ts x _ Hwf) as (t & Ht & Hfresh & Hrest).
    destruct (decide (idOf ts x = idOf ts a)) as [Heq|Hne].
    + exfalso. destruct Hrest as [Hv _].
      rewrite Forall_app, Forall_cons in Hv. destruct Hv as (_ & [ta Hta] & _).
      apply Hfresh. unfold idOf in Heq. rewrite Ht, Hta in Heq. simplify_eq/=.
      rewrite Heq. eapply id_in_queueIDs; [|done].
      apply elem_of_app. right. left.
    + by rewrite IH.
Qed.

Lemma indexOfID_absent ts q a t :
  ts !! a = Some t -> Forall (fun x => is_Some (ts !! x)) q ->
  ID t ∉ queueIDs ts q -> indexOfID ts q (idOf ts a) = None.
Proof.
  intros Ha. induction q as [|x q IH]; intros Hv Hfresh; simpl; [done|].
  inversion Hv as [|? ? [tx Hx] Hv']; subst.
  unfold queueIDs, idOf in Hfresh. simpl in Hfresh. rewrite Hx in Hfresh.
  simpl in Hfresh. apply not_elem_of_cons in Hfresh as [Hne Hfresh].
  destruct (decide (idOf ts x = idOf ts a)) as [Heq|_].
  - unfold idOf in Heq. rewrite Hx, Ha in Heq. by simplify_eq/=.
  - by rewrite IH.
Qed.

Lemma Remove_last ts pre a :
  wellFormed ts (pre ++ [a]) -> Remove ts (pre ++ [a]) a = pre.
Proof.
  intros Hwf. unfold Remove.
  destruct (decide (length (pre ++ [a]) = 0%nat)) as [H0|_].
  { rewrite length_app in H0. simpl in H0. lia. }
  rewrite (indexOfID_first ts pre a [] Hwf), last_snoc.
  rewrite list_insert_id by (rewrite lookup_app_r, Nat.sub_diag by lia; done).
  rewrite length_app. simpl. rewrite Nat.add_sub. by rewrite take_app_length.
Qed.

Lemma Remove_inner ts pre a mid l :
  wellFormed ts (pre ++ a :: mid ++ [l]) ->
  Remove ts (pre ++ a :: mid ++ [l]) a = pre ++ l :: mid.
Proof.
  intros Hwf. unfold Remove.
  destruct (decide (length (pre ++ a :: mid ++ [l]) = 0%nat)) as [H0|_].
  { rewrite length_app in H0. simpl in H0. lia. }
  rewrite (indexOfID_first ts pre a (mid ++ [l]) Hwf).
  replace (pre ++ a :: mid ++ [l]) with ((pre ++ a :: mid) ++ [l])
    by (by rewrite <- app_assoc).
  rewrite last_snoc.
  replace ((pre ++ a :: mid) ++ [l]) with (pre ++ a :: mid ++ [l])
    by (by rewrite <- app_assoc).
  rewrite insert_app_r_alt, Nat.sub_diag by lia. simpl.
  replace (pre ++ l :: mid ++ [l]) with ((pre ++ l :: mid) ++ [l])
    by (by rewrite <- app_assoc).
  replace (length (pre ++ a :: mid ++ [l]) - 1)%nat with (length (pre ++ l :: mid)).
  - by rewrite take_app_length.
  - rewrite !length_app. simpl. rewrite length_app. simpl. lia.
Qed.

(** X3.  On a well-formed queue [Remove] takes out exactly the given task: the
    other tasks all stay, the queue stays well formed and holds no task of that
    ID afterwards.  The order is kept only when the task was the last one:
    otherwise the last task takes the place of the removed one.  Removing a
    task whose ID is not queued changes nothing. *)
Theorem Remove_takes_out_one_task ts q a t :
  wellFormed ts q ->
  ts !! a = Some t ->
  (a ∈ q ->
   q ≡ₚ a :: Remove ts q a /\
   wellFormed ts (Remove ts q a) /\
   findByID ts (Remove ts q a) (ID t) = None) /\
  (forall pre, q = pre ++ [a] -> Remove ts q a = pre) /\
  (forall pre mid l, q = pre ++ a :: mid ++ [l] -> Remove ts q a = pre ++ l :: mid) /\
  (ID t ∉ queueIDs ts q -> Remove ts q a = q).
Proof.
  intros Hwf Ht.
  assert (Hlast : forall pre, q = pre ++ [a] -> Remove ts q a = pre).
  { intros pre ->. by apply Remove_last. }
  assert (Hinner : forall pre mid l,
             q = pre ++ a :: mid ++ [l] -> Remove ts q a = pre ++ l :: mid).
  { intros pre mid l ->. by apply Remove_inner. }
  split_and!; [|done|done|].
  - intros Ha.
    assert (Hperm : q ≡ₚ a :: Remove ts q a).
    { apply list_elem_of_split in Ha as (pre & suf & Hq).
      destruct (decide (suf = [])) as [->|Hsuf].
      - rewrite (Hlast pre Hq), Hq. symmetry. apply Permutation_cons_append.
      - destruct (exists_last Hsuf) as (mid & l & ->).
        rewrite (Hinner pre mid l Hq), Hq.
        transitivity (a :: pre ++ mid ++ [l]);
          [symmetry; apply Permutation_middle|].
        constructor. apply Permutation_app_head. symmetry.
        apply Permutation_cons_append. }
    assert (Hwf' : wellFormed ts (a :: Remove ts q a))
      by (by eapply wellFormed_Permutation).
    destruct (wellFormed_cons ts a _ Hwf') as (t' & Ht' & Hfresh & Hrest).
    simplify_eq. split_and!; [done|done|]. by apply findByID_None_iff.
  - intros Hfresh. unfold Remove. destruct (decide (length q = 0%nat)); [done|].
    destruct Hwf as [Hv _]. by rewrite (indexOfID_absent ts q a t Ht Hv Hfresh).
Qed.

Lemma Remove_takes_out_one_task_witness :
  Remove (tasks twoTasks) [0; 1]%nat 0%nat = [1%nat] /\
  findByID (tasks twoTasks) (Remove (tasks twoTasks) [0; 1]%nat 0%nat) 2 = None.
Proof.
  destruct (Remove_takes_out_one_task (tasks twoTasks) [0; 1]%nat 0%nat task2
              wellFormed_twoTasks eq_refl) as (Hin & _ & Hinner & _).
  split.
  - exact (Hinner [] [] 1%nat eq_refl).
  - apply Hin. left.
Defined.

(** ** Further facts about the worker step *)

Lemma idOf_insert ts a t t' x :
  ts !! a = Some t -> ID t' = ID t -> idOf (<[a := t']> ts) x = idOf ts x.
Proof.
  intros Ht Hid. unfold idOf. destruct (decide (a = x)) as [->|Hne].
  - rewrite lookup_insert_eq, Ht. simpl. by rewrite Hid.
  - by rewrite lookup_insert_ne.
Qed.

Lemma wellFormed_insert ts a t t' q :
  ts !! a = Some t -> ID t' = ID t -> wellFormed ts q -> wellFormed (<[a := t']> ts) q.
Proof.
  intros Ht Hid [Hv Hnd]. split.
  - eapply Forall_impl; [exact Hv|]. intros x [tx Hx]. simpl.
    destruct (decide (a = x)) as [->|Hne];
      [rewrite lookup_insert_eq|rewrite lookup_insert_ne by done]; by eexists.
  - unfold queueIDs in *.
    replace (omap (idOf (<[a := t']> ts)) q) with (omap (idOf ts) q); [done|].
    apply list_omap_ext, Forall_Forall2_diag, Forall_forall.
    intros x _. symmetry. by eapply idOf_insert.
Qed.

Lemma wellFormed_rotate ts a rest :
  wellFormed ts (a :: rest) -> wellFormed ts (rest ++ [a]).
Proof.
  intros H. eapply wellFormed_Permutation; [|exact H]. apply Permutation_cons_append.
Qed.

Section WorkerStepFacts.

Variable loadServerCommand : ServerCommand -> option Z -> bool.

(** The step on a task that the test of line 149 lets through, that is a
    task that does not have to wait for another one: the queue is rotated, the
    task is executed or proceeded according to its status, and the step is
    completed.  The test is made after the rotation, on the queue that has the
    task itself at its end. *)
Lemma runNext_head m a rest t :
  queue m = a :: rest ->
  wellFormed (tasks m) (queue m) ->
  tasks m !! a = Some t ->
  shouldTaskWaitForAnotherToComplete (set_queue (rest ++ [a]) m) t = false ->
  runNext loadServerCommand m
  = let m0 := set_queue (rest ++ [a]) m in
    let '(err, m1) :=
      if IsWaiting t then executeTask loadServerCommand a m0
      else if IsWorking t then proceedTask a t m0
      else (None, m0) in
    completeStep a err m1.
Proof.
  intros Hq Hwf Ht Hdep. unfold runNext. rewrite Hq in *.
  rewrite (Next_rotates _ _ _ Hwf). cbv zeta.
  change (tasks (set_queue (rest ++ [a]) m)) with (tasks m). rewrite Ht.
  by rewrite Hdep.
Qed.

(** The test lets through every task without [RunAfterID], every task whose
    predecessor is not queued, and every task whose predecessor is complete. *)
Lemma shouldTaskWait_false m t :
  RunAfterID t <= 0 \/
  findByID (tasks m) (queue m) (RunAfterID t) = None \/
  (exists b p, findByID (tasks m) (queue m) (RunAfterID t) = Some b /\
               tasks m !! b = Some p /\ IsComplete p = true) ->
  shouldTaskWaitForAnotherToComplete m t = false.
Proof.
  unfold shouldTaskWaitForAnotherToComplete.
  intros [Hle|[Hnone|(b & p & Hb & Hp & Hc)]].
  - destruct (decide (0 < RunAfterID t)); [lia|done].
  - rewrite Hnone. by destruct (decide (0 < RunAfterID t)).
  - rewrite Hb, Hp, Hc. by destruct (decide (0 < RunAfterID t)).
Qed.

(** The end of the step for a task that is complete by then: the server is
    notified, the task leaves the queue and is saved. *)
Lemma completeStep_complete a m2 t2 rest :
  panicked m2 = None ->
  tasks m2 !! a = Some t2 ->
  IsComplete t2 = true ->
  queue m2 = rest ++ [a] ->
  wellFormed (tasks m2) (queue m2) ->
  completeStep a None m2
  = call (CallSave t2)
         (set_queue rest (match Server t2 with
                          | Some s => notice s m2
                          | None => m2
                          end)).
Proof.
  intros Hpan Ht Hc Hq Hwf. unfold completeStep. rewrite Hpan. cbv zeta.
  rewrite Ht, Hc. rewrite Hq in Hwf.
  destruct (Server t2); simpl; rewrite Hq, (Remove_last _ _ _ Hwf); done.
Qed.

Lemma completeStep_failed a e m1 t rest :
  panicked m1 = None ->
  tasks m1 !! a = Some t ->
  legalTransition (Status t) GDTaskStatusError = true ->
  queue m1 = rest ++ [a] ->
  wellFormed (tasks m1) (queue m1) ->
  completeStep a (Some e) m1
  = call (CallSave (withStatus t GDTaskStatusError))
         (set_queue rest
            (match Server t with
             | Some s => notice s
             | None => fun m => m
             end (set_tasks <[a := withStatus t GDTaskStatusError]>
                    (go (GoAppendTaskOutput a (bytes_of e)) m1)))).
Proof.
  intros Hpan Ht Hl Hq Hwf. unfold completeStep. rewrite Hpan. cbv zeta.
  unfold failTask, setStatusAt. simpl. rewrite Ht. unfold SetStatus. rewrite Hl.
  simpl. rewrite lookup_insert_eq. simpl.
  assert (Hwf' : wellFormed (<[a := withStatus t GDTaskStatusError]> (tasks m1))
                            (rest ++ [a])).
  { rewrite Hq in Hwf. by eapply wellFormed_insert. }
  destruct (Server t); simpl; rewrite Hq, (Remove_last _ _ _ Hwf'); done.
Qed.

(** X4.  A task in status Working that has no command in
    [commandsInProgress] is failed by its next step: the error text is handed
    to a goroutine that appends it to the task's output, the task is set to
    Error, taken out of the queue and saved; [commandsInProgress] is left as it
    is.  The task is the head of a queue without an ID twice, and the test of
    line 149 lets it through: it has no [RunAfterID], or the task of that ID is
    not in the queue or is complete (a task that has to wait is skipped). *)
Theorem runNext_fails_working_task_without_command m a rest t :
  queue m = a :: rest ->
  wellFormed (tasks m) (queue m) ->
  tasks m !! a = Some t ->
  Status t = GDTaskStatusWorking ->
  shouldTaskWaitForAnotherToComplete (set_queue (rest ++ [a]) m) t = false ->
  Load t (commandsInProgress m) = None ->
  panicked m = None ->
  let m' := runNext loadServerCommand m in
  tasks m' = <[a := withStatus t GDTaskStatusError]> (tasks m) /\
  queue m' = rest /\
  calls m' = calls m ++ [CallSave (withStatus t GDTaskStatusError)] /\
  spawned m'
  = spawned m
    ++ [GoAppendTaskOutput a
          (bytes_of "[gdaemon_scheduler.TaskManager] task doesn't exist in working tasks")] /\
  commandsInProgress m' = commandsInProgress m.
Proof.
  intros Hq Hwf Ht Hs Hdep Hload Hpan m'. subst m'.
  rewrite (runNext_head m a rest t Hq Hwf Ht Hdep). cbv zeta.
  unfold IsWaiting, IsWorking. rewrite Hs. simpl.
  unfold proceedTask. simpl. rewrite Hload.
  rewrite (completeStep_failed a _ (set_queue (rest ++ [a]) m) t rest);
    [|done|done|by rewrite Hs|done|].
  - by destruct (Server t).
  - simpl. rewrite Hq in Hwf. by apply wellFormed_rotate.
Qed.

Lemma runNext_complete_command_spec m a rest t c cmd :
  queue m = a :: rest ->
  wellFormed (tasks m) (queue m) ->
  tasks m !! a = Some t ->
  Status t = GDTaskStatusWorking ->
  shouldTaskWaitForAnotherToComplete (set_queue (rest ++ [a]) m) t = false ->
  Load t (commandsInProgress m) = Some (Some c) ->
  cmds m !! c = Some cmd ->
  cs_complete cmd = true ->
  panicked m = None ->
  let m' := runNext loadServerCommand m in
  let final := if decide (cs_result cmd = SuccessResult)
               then GDTaskStatusSuccess else GDTaskStatusError in
  tasks m' = <[a := withStatus t final]> (tasks m) /\
  queue m' = rest /\
  calls m' = calls m ++ [CallSave (withStatus t final)] /\
  spawned m' = spawned m ++ [GoAppendTaskOutput a (cs_output cmd)] /\
  commandsInProgress m' = Delete' t (commandsInProgress m) /\
  cmds m' = <[c := mkCmdState true (cs_result cmd) []]> (cmds m).
Proof.
  intros Hq Hwf Ht Hs Hdep Hload Hcmd Hdone Hpan m' final. subst m' final.
  rewrite (runNext_head m a rest t Hq Hwf Ht Hdep). cbv zeta.
  unfold IsWaiting, IsWorking. rewrite Hs. simpl.
  unfold proceedTask. simpl. rewrite Hload, Hcmd, Hdone.
  assert (Hrot : wellFormed (tasks m) (rest ++ [a])).
  { rewrite Hq in Hwf. by apply wellFormed_rotate. }
  destruct (decide (cs_result cmd = SuccessResult)) as [Hres|Hres].
  - unfold setStatusAt. simpl. rewrite Ht. unfold SetStatus. rewrite Hs. simpl.
    erewrite (completeStep_complete a _ (withStatus t GDTaskStatusSuccess) rest);
      [|done|simpl; apply lookup_insert_eq|done|done|simpl; by eapply wellFormed_insert].
    simpl. by destruct (Server t).
  - unfold failTask, setStatusAt. simpl. rewrite Ht. unfold SetStatus. rewrite Hs.
    simpl.
    erewrite (completeStep_complete a _ (withStatus t GDTaskStatusError) rest);
      [|done|simpl; apply lookup_insert_eq|done|done|simpl; by eapply wellFormed_insert].
    simpl. by destruct (Server t).
Qed.

(** X5.  When the command of a Working task is complete, the step takes the
    command out of [commandsInProgress], sets the task to Success if the
    command's result is 0 and to Error otherwise, hands the command's unread
    output to a goroutine that appends it to the task (the command's buffer is
    empty afterwards), takes the task out of the queue and saves it.
    The task is the head of a queue without an ID twice, and the test of
    line 149 lets it through: it has no [RunAfterID], or the task of that ID is
    not in the queue or is complete (a task that has to wait is skipped). *)
Theorem runNext_finishes_task_with_complete_command m a rest t c cmd :
  queue m = a :: rest ->
  wellFormed (tasks m) (queue m) ->
  tasks m !! a = Some t ->
  Status t = GDTaskStatusWorking ->
  shouldTaskWaitForAnotherToComplete (set_queue (rest ++ [a]) m) t = false ->
  Load t (commandsInProgress m) = Some (Some c) ->
  cmds m !! c = Some cmd ->
  cs_complete cmd = true ->
  panicked m = None ->
  let m' := runNext loadServerCommand m in
  let final := if decide (cs_result cmd = SuccessResult)
               then GDTaskStatusSuccess else GDTaskStatusError in
  tasks m' = <[a := withStatus t final]> (tasks m) /\
  queue m' = rest /\
  calls m' = calls m ++ [CallSave (withStatus t final)] /\
  spawned m' = spawned m ++ [GoAppendTaskOutput a (cs_output cmd)] /\
  commandsInProgress m' = Delete' t (commandsInProgress m) /\
  cmds m' = <[c := mkCmdState true (cs_result cmd) []]> (cmds m).
Proof. exact (runNext_complete_command_spec m a rest t c cmd). Qed.

(** X6.  While the command of a Working task is not complete, the step leaves
    the task Working and in the queue, now at its end, saves nothing, keeps the
    command registered, and hands the output produced so far to a goroutine
    that appends it to the task, emptying the command's buffer.
    The task is the head of a queue without an ID twice, and the test of
    line 149 lets it through: it has no [RunAfterID], or the task of that ID is
    not in the queue or is complete (a task that has to wait is skipped). *)
Theorem runNext_polls_running_command m a rest t c cmd :
  queue m = a :: rest ->
  wellFormed (tasks m) (queue m) ->
  tasks m !! a = Some t ->
  Status t = GDTaskStatusWorking ->
  shouldTaskWaitForAnotherToComplete (set_queue (rest ++ [a]) m) t = false ->
  Load t (commandsInProgress m) = Some (Some c) ->
  cmds m !! c = Some cmd ->
  cs_complete cmd = false ->
  panicked m = None ->
  let m' := runNext loadServerCommand m in
  tasks m' = tasks m /\
  queue m' = rest ++ [a] /\
  calls m' = calls m /\
  spawned m' = spawned m ++ [GoAppendTaskOutput a (cs_output cmd)] /\
  commandsInProgress m' = commandsInProgress m /\
  cmds m' = <[c := mkCmdState false (cs_result cmd) []]> (cmds m).
Proof.
  intros Hq Hwf Ht Hs Hdep Hload Hcmd Hrun Hpan m'. subst m'.
  rewrite (runNext_head m a rest t Hq Hwf Ht Hdep). cbv zeta.
  unfold IsWaiting, IsWorking. rewrite Hs. simpl.
  unfold proceedTask. simpl. rewrite Hload, Hcmd, Hrun.
  unfold completeStep. simpl. rewrite Hpan, Ht. unfold IsComplete. rewrite Hs.
  done.
Qed.

Lemma runNext_complete_task_spec m a rest t :
  queue m = a :: rest ->
  wellFormed (tasks m) (queue m) ->
  tasks m !! a = Some t ->
  IsComplete t = true ->
  shouldTaskWaitForAnotherToComplete (set_queue (rest ++ [a]) m) t = false ->
  panicked m = None ->
  let m' := runNext loadServerCommand m in
  tasks m' = tasks m /\
  queue m' = rest /\
  calls m' = calls m ++ [CallSave t] /\
  commandsInProgress m' = commandsInProgress m /\
  WorkingCount (Stats m') = WorkingCount (Stats m) /\
  WaitingCount (Stats m') = WaitingCount (Stats m) - 1.
Proof.
  intros Hq Hwf Ht Hc Hdep Hpan m'. subst m'.
  rewrite (runNext_head m a rest t Hq Hwf Ht Hdep). cbv zeta.
  assert (Hw : IsWaiting t = false /\ IsWorking t = false).
  { unfold IsComplete, IsWaiting, IsWorking in *. by destruct (Status t). }
  destruct Hw as [-> ->].
  assert (Hrot : wellFormed (tasks m) (rest ++ [a])).
  { rewrite Hq in Hwf. by apply wellFormed_rotate. }
  rewrite (completeStep_complete a _ t rest); [|done|done|done|done|done].
  unfold Stats, Len. rewrite Hq.
  destruct (Server t); simpl; split_and!; try done; lia.
Qed.

(** X7.  A task that is already complete when its turn comes (set to Error by
    the goroutine of its command, say) is taken out of the queue and saved; its
    status stays, and [commandsInProgress] is not touched, so an entry stored
    for it stays counted as working by [Stats].
    The task is the head of a queue without an ID twice, and the test of
    line 149 lets it through: it has no [RunAfterID], or the task of that ID is
    not in the queue or is complete (a task that has to wait is skipped). *)
Theorem runNext_removes_complete_task m a rest t :
  queue m = a :: rest ->
  wellFormed (tasks m) (queue m) ->
  tasks m !! a = Some t ->
  IsComplete t = true ->
  shouldTaskWaitForAnotherToComplete (set_queue (rest ++ [a]) m) t = false ->
  panicked m = None ->
  let m' := runNext loadServerCommand m in
  tasks m' = tasks m /\
  queue m' = rest /\
  calls m' = calls m ++ [CallSave t] /\
  commandsInProgress m' = commandsInProgress m /\
  WorkingCount (Stats m') = WorkingCount (Stats m) /\
  WaitingCount (Stats m') = WaitingCount (Stats m) - 1.
Proof. exact (runNext_complete_task_spec m a rest t). Qed.

(** X8.  A waiting task whose task command is neither the execution of a
    command line nor one of the game-server commands is set to Working and
    saved, then fails with the invalid-task error in the same step: it is set
    to Error, taken out of the queue and saved once more, and no command is
    registered for it.  The task is the head of a queue without an ID twice, and the test of
    line 149 lets it through: it has no [RunAfterID], or the task of that ID is
    not in the queue or is complete (a task that has to wait is skipped). *)
Theorem runNext_fails_unknown_task_command m a rest t :
  queue m = a :: rest ->
  wellFormed (tasks m) (queue m) ->
  tasks m !! a = Some t ->
  Status t = GDTaskStatusWaiting ->
  shouldTaskWaitForAnotherToComplete (set_queue (rest ++ [a]) m) t = false ->
  Task t <> GDTaskCommandExecute ->
  taskServerCommandMap (Task t) = None ->
  panicked m = None ->
  let m' := runNext loadServerCommand m in
  let failed := withStatus (withStatus t GDTaskStatusWorking) GDTaskStatusError in
  tasks m' !! a = Some failed /\
  queue m' = rest /\
  calls m' = calls m ++ [CallSave (withStatus t GDTaskStatusWorking); CallSave failed] /\
  spawned m' = spawned m ++ [GoAppendTaskOutput a (bytes_of ErrInvalidTaskError)] /\
  commandsInProgress m' = commandsInProgress m.
Proof.
  intros Hq Hwf Ht Hs Hdep Hne Hmap Hpan m' failed. subst m' failed.
  rewrite (runNext_head m a rest t Hq Hwf Ht Hdep). cbv zeta.
  unfold IsWaiting. rewrite Hs. simpl.
  unfold executeTask, setStatusAt. simpl. rewrite Ht. unfold SetStatus. rewrite Hs.
  simpl. rewrite lookup_insert_eq.
  destruct (decide (Task (withStatus t GDTaskStatusWorking) = GDTaskCommandExecute))
    as [Heq|_]; [done|].
  unfold executeGameCommand. simpl. rewrite Hmap.
  assert (Hrot : wellFormed (tasks m) (rest ++ [a])).
  { rewrite Hq in Hwf. by apply wellFormed_rotate. }
  erewrite (completeStep_failed a _ _ (withStatus t GDTaskStatusWorking) rest);
    [|done|simpl; apply lookup_insert_eq|done|done|simpl; by eapply wellFormed_insert].
  simpl. destruct (Server t); simpl; rewrite ?lookup_insert_eq, <- ?app_assoc;
    by split_and!.
Qed.

(** X9.  A waiting task with a known task command is dispatched: it is set to
    Working and saved, stays in the queue, now at its end, and a goroutine is
    started for its command.  The command is registered in
    [commandsInProgress] under the task's Working value, at an address that
    was free before; but when the command factory answers with nil, that nil
    is what gets registered and handed to the goroutine.
    The task is the head of a queue without an ID twice, and the test of
    line 149 lets it through: it has no [RunAfterID], or the task of that ID is
    not in the queue or is complete (a task that has to wait is skipped). *)
Theorem runNext_dispatches_waiting_task m a rest t :
  queue m = a :: rest ->
  wellFormed (tasks m) (queue m) ->
  tasks m !! a = Some t ->
  Status t = GDTaskStatusWaiting ->
  shouldTaskWaitForAnotherToComplete (set_queue (rest ++ [a]) m) t = false ->
  Task t = GDTaskCommandExecute \/ is_Some (taskServerCommandMap (Task t)) ->
  panicked m = None ->
  let m' := runNext loadServerCommand m in
  let working := withStatus t GDTaskStatusWorking in
  let c := fresh (dom (cmds m)) in
  tasks m' = <[a := working]> (tasks m) /\
  queue m' = rest ++ [a] /\
  calls m' = calls m ++ [CallSave working] /\
  cmds m !! c = None /\
  (Task t = GDTaskCommandExecute ->
   Load working (commandsInProgress m') = Some (Some c) /\
   cmds m' !! c = Some newExecuteCommand /\
   spawned m' = spawned m ++ [GoExecuteCommand a c]) /\
  (forall cmd, taskServerCommandMap (Task t) = Some cmd ->
     if loadServerCommand cmd (Server t) then
       Load working (commandsInProgress m') = Some (Some c) /\
       cmds m' !! c = Some newGameCommand /\
       spawned m' = spawned m ++ [GoExecuteGameCommand a (Some c)]
     else
       Load working (commandsInProgress m') = Some None /\
       cmds m' = cmds m /\
       spawned m' = spawned m ++ [GoExecuteGameCommand a None]).
Proof.
  intros Hq Hwf Ht Hs Hdep Hknown Hpan m' working c. subst m' working c.
  rewrite (runNext_head m a rest t Hq Hwf Ht Hdep). cbv zeta.
  unfold IsWaiting. rewrite Hs. simpl.
  unfold executeTask, setStatusAt. simpl. rewrite Ht. unfold SetStatus. rewrite Hs.
  simpl. rewrite lookup_insert_eq.
  assert (Hfresh : cmds m !! fresh (dom (cmds m)) = None).
  { apply not_elem_of_dom, is_fresh. }
  assert (Hload : forall v l,
             Load (withStatus t GDTaskStatusWorking)
                  (Store (withStatus t GDTaskStatusWorking) v l) = Some v).
  { intros v l. unfold Load, Store. simpl.
    by destruct (decide (withStatus t GDTaskStatusWorking
                         = withStatus t GDTaskStatusWorking)). }
  destruct (decide (Task (withStatus t GDTaskStatusWorking) = GDTaskCommandExecute))
    as [Heq|Hne]; simpl in *.
  - unfold executeCommand, completeStep. simpl. rewrite Hpan, lookup_insert_eq.
    unfold IsComplete. simpl. split_and!; try done.
    + intros _. rewrite Hload, lookup_insert_eq. done.
    + intros cmd Hcmd. rewrite Heq in Hcmd. done.
  - destruct Hknown as [Hk|[cmd Hcmd]]; [done|].
    unfold executeGameCommand. simpl. rewrite Hcmd.
    destruct (loadServerCommand cmd (Server t)) eqn:Hl;
      unfold completeStep; simpl; rewrite Hpan, lookup_insert_eq;
      unfold IsComplete; simpl; (split_and!; try done).
    + intros cmd' Hcmd'. simplify_eq. rewrite Hl, Hload, lookup_insert_eq. done.
    + intros cmd' Hcmd'. simplify_eq. rewrite Hl, Hload. done.
Qed.

(** X10.  A Working task that is registered in [commandsInProgress] with a nil
    command brings the worker down: the step panics at the type assertion,
    before the task is failed, saved or taken out of the queue.
    The task is the head of a queue without an ID twice, and the test of
    line 149 lets it through: it has no [RunAfterID], or the task of that ID is
    not in the queue or is complete (a task that has to wait is skipped). *)
Theorem runNext_panics_on_nil_command m a rest t :
  queue m = a :: rest ->
  wellFormed (tasks m) (queue m) ->
  tasks m !! a = Some t ->
  Status t = GDTaskStatusWorking ->
  shouldTaskWaitForAnotherToComplete (set_queue (rest ++ [a]) m) t = false ->
  Load t (commandsInProgress m) = Some None ->
  let m' := runNext loadServerCommand m in
  panicked m' = Some "interface conversion: interface is nil"%string /\
  tasks m' = tasks m /\ calls m' = calls m /\ queue m' = rest ++ [a].
Proof.
  intros Hq Hwf Ht Hs Hdep Hload m'. subst m'.
  rewrite (runNext_head m a rest t Hq Hwf Ht Hdep). cbv zeta.
  unfold IsWaiting, IsWorking. rewrite Hs. simpl.
  unfold proceedTask. simpl. rewrite Hload. done.
Qed.

End WorkerStepFacts.

Lemma wellFormed_lostTask : wellFormed (tasks lostTask) (queue lostTask).
Proof.
  split; [repeat constructor; by eexists|]. by apply (bool_decide_unpack _).
Qed.

Lemma runNext_fails_working_task_without_command_witness :
  queue (runNext alwaysLoads lostTask) = [] /\
  calls (runNext alwaysLoads lostTask)
  = [CallSave (withStatus (withStatus task1 GDTaskStatusWorking) GDTaskStatusError)].
Proof.
  destruct (runNext_fails_working_task_without_command alwaysLoads lostTask 0%nat []
              (withStatus task1 GDTaskStatusWorking) eq_refl wellFormed_lostTask
              eq_refl eq_refl) as (_ & H2 & H3 & _); [done|done|done|].
  split; [exact H2|exact H3].
Defined.

Lemma wellFormed_single ts a t : ts !! a = Some t -> wellFormed ts [a].
Proof.
  intros Ht. split; [repeat constructor; by eexists|].
  rewrite (queueIDs_valid ts a t Ht). apply NoDup_singleton.
Qed.

Lemma runNext_finishes_task_with_complete_command_witness :
  let m' := runNext alwaysLoads (runningTask (mkCmdState true 0 (bytes_of "ok"))) in
  tasks m' !! 0%nat = Some (withStatus task1 GDTaskStatusSuccess) /\
  queue m' = [] /\
  commandsInProgress m' = [].
Proof.
  intros m'. subst m'.
  destruct (runNext_finishes_task_with_complete_command alwaysLoads
              (runningTask (mkCmdState true 0 (bytes_of "ok"))) 0%nat []
              (withStatus task1 GDTaskStatusWorking) 7%nat
              (mkCmdState true 0 (bytes_of "ok")) eq_refl
              (wellFormed_single
                 (tasks (runningTask (mkCmdState true 0 (bytes_of "ok")))) 0%nat
                 (withStatus task1 GDTaskStatusWorking) eq_refl) eq_refl eq_refl)
    as (H1 & H2 & _ & _ & H5 & _); [done|done|done|done|done|].
  split_and!; [by rewrite H1|exact H2|by rewrite H5].
Defined.

Lemma runNext_polls_running_command_witness :
  let m' := runNext alwaysLoads (runningTask (mkCmdState false (-1) (bytes_of "..."))) in
  queue m' = [0%nat] /\ calls m' = [] /\
  spawned m' = [GoAppendTaskOutput 0 (bytes_of "...")].
Proof.
  intros m'. subst m'.
  destruct (runNext_polls_running_command alwaysLoads
              (runningTask (mkCmdState false (-1) (bytes_of "..."))) 0%nat []
              (withStatus task1 GDTaskStatusWorking) 7%nat
              (mkCmdState false (-1) (bytes_of "...")) eq_refl
              (wellFormed_single
                 (tasks (runningTask (mkCmdState false (-1) (bytes_of "...")))) 0%nat
                 (withStatus task1 GDTaskStatusWorking) eq_refl) eq_refl eq_refl)
    as (_ & H2 & H3 & H4 & _); [done|done|done|done|done|].
  split_and!; [exact H2|exact H3|exact H4].
Defined.

Lemma runNext_removes_complete_task_witness :
  queue (runNext alwaysLoads failedTask) = [] /\
  WorkingCount (Stats (runNext alwaysLoads failedTask)) = 1 /\
  WaitingCount (Stats (runNext alwaysLoads failedTask)) = -1.
Proof.
  destruct (runNext_removes_complete_task alwaysLoads failedTask 0%nat []
              (withStatus task1 GDTaskStatusError) eq_refl
              (wellFormed_single (tasks failedTask) 0%nat
                 (withStatus task1 GDTaskStatusError) eq_refl) eq_refl eq_refl)
    as (_ & H2 & _ & _ & H5 & H6); [done|done|].
  split_and!; [exact H2|by rewrite H5|by rewrite H6].
Defined.

Lemma runNext_fails_unknown_task_command_witness :
  queue (runNext alwaysLoads unknownTask) = [] /\
  commandsInProgress (runNext alwaysLoads unknownTask) = [] /\
  Status <$> tasks (runNext alwaysLoads unknownTask) !! 0%nat = Some GDTaskStatusError.
Proof.
  destruct (runNext_fails_unknown_task_command alwaysLoads unknownTask 0%nat []
              (mkTask 9 0 None (GDTaskUnknown "gsmove") "" GDTaskStatusWaiting)
              eq_refl
              (wellFormed_single (tasks unknownTask) 0%nat
                 (mkTask 9 0 None (GDTaskUnknown "gsmove") "" GDTaskStatusWaiting)
                 eq_refl) eq_refl eq_refl)
    as (H1 & H2 & _ & _ & H5); [done|done|done|done|].
  split_and!; [exact H2|exact H5|by rewrite H1].
Defined.

Lemma runNext_dispatches_waiting_task_witness :
  queue (runNext alwaysLoads onlyTask1) = [0%nat] /\
  calls (runNext neverLoads onlyTask1)
  = [CallSave (withStatus task1 GDTaskStatusWorking)] /\
  Load (withStatus task1 GDTaskStatusWorking)
       (commandsInProgress (runNext neverLoads onlyTask1)) = Some None /\
  RunAfterID task2 = 1 /\
  calls (runNext alwaysLoads onlyTask2)
  = [CallSave (withStatus task2 GDTaskStatusWorking)].
Proof.
  destruct (runNext_dispatches_waiting_task alwaysLoads onlyTask2 0%nat [] task2
              eq_refl (wellFormed_single (tasks onlyTask2) 0%nat task2 eq_refl) eq_refl eq_refl)
    as (_ & _ & Hdependent & _); [done|right; by eexists|done|].
  destruct (runNext_dispatches_waiting_task alwaysLoads onlyTask1 0%nat [] task1
              eq_refl (wellFormed_single (tasks onlyTask1) 0%nat task1 eq_refl) eq_refl eq_refl)
    as (_ & H2 & _); [done|right; by eexists|done|].
  destruct (runNext_dispatches_waiting_task neverLoads onlyTask1 0%nat [] task1
              eq_refl (wellFormed_single (tasks onlyTask1) 0%nat task1 eq_refl) eq_refl eq_refl)
    as (_ & _ & H3 & _ & _ & H6); [done|right; by eexists|done|].
  split_and!; [exact H2|exact H3| |reflexivity|exact Hdependent].
  exact (proj1 (H6 Start eq_refl)).
Defined.

Lemma runNext_panics_on_nil_command_witness :
  panicked (runNext alwaysLoads nilCommandTask)
  = Some "interface conversion: interface is nil"%string.
Proof.
  destruct (runNext_panics_on_nil_command alwaysLoads nilCommandTask 0%nat []
              (withStatus task1 GDTaskStatusWorking) eq_refl
              (wellFormed_single (tasks nilCommandTask) 0%nat
                 (withStatus task1 GDTaskStatusWorking) eq_refl) eq_refl eq_refl)
    as (H1 & _); [done|done|].
  exact H1.
Defined.

(** ** Further facts about polling the task source *)

Lemma allocTasks_spec new : forall ts ts' addrs,
  allocTasks ts new = (ts', addrs) ->
  (forall a t, ts !! a = Some t -> ts' !! a = Some t) /\
  Forall2 (fun a t => ts' !! a = Some t) addrs new.
Proof.
  induction new as [|t rest IH]; intros ts ts' addrs H; simpl in H.
  - by simplify_eq.
  - destruct (allocTasks (<[fresh (dom ts) := t]> ts) rest) as [ts1 addrs1] eqn:E.
    simplify_eq. destruct (IH _ _ _ E) as [Hkeep Hnew].
    assert (Hfresh : ts !! fresh (dom ts) = None) by apply not_elem_of_dom, is_fresh.
    split.
    + intros a u Ha. apply Hkeep. rewrite lookup_insert_ne; [done|congruence].
    + constructor; [|done]. apply Hkeep, lookup_insert_eq.
Qed.

Lemma wellFormed_extend ts ts' q :
  (forall a t, ts !! a = Some t -> ts' !! a = Some t) ->
  wellFormed ts q -> wellFormed ts' q /\ queueIDs ts' q = queueIDs ts q.
Proof.
  intros Hext [Hv Hnd].
  assert (Hids : queueIDs ts' q = queueIDs ts q).
  { unfold queueIDs. apply list_omap_ext, Forall_Forall2_diag.
    eapply Forall_impl; [exact Hv|]. intros x [t Ht]. simpl.
    unfold idOf. by rewrite Ht, (Hext x t Ht). }
  split; [split|done].
  - eapply Forall_impl; [exact Hv|]. intros x [t Ht]. exists t. by apply Hext.
  - by rewrite Hids.
Qed.

Lemma queueIDs_allocated ts addrs new :
  Forall2 (fun a t => ts !! a = Some t) addrs new ->
  Forall (fun a => is_Some (ts !! a)) addrs /\ queueIDs ts addrs = ID <$> new.
Proof.
  induction 1 as [|a t addrs new Ha _ [IHv IHi]]; [done|]. split.
  - constructor; [by eexists|done].
  - change (a :: addrs) with ([a] ++ addrs).
    by rewrite queueIDs_app, (queueIDs_valid ts a t Ha), IHi.
Qed.

Section PollingFacts.

Variable FindByStatus : list repoCall -> GDTaskStatus -> list GDTask * option error.

(** X11.  Polling the task source.  Within five seconds of the last
    successful poll [updateTasksIfNeeded] does nothing, and does not ask the
    source.  When the source answers with an error, the error is returned and
    neither the queue nor the time of the last poll changes, so the next call
    asks again.  When it answers with tasks, the time of the last poll becomes
    the current time; the queued tasks stay in place at the front of the queue
    and their objects are untouched; the queue stays well formed; and the IDs
    queued afterwards are those queued before and those of the answer: a task
    whose ID is already queued is not queued a second time. *)
Theorem updateTasksIfNeeded_polls_without_disturbing_the_queue now m :
  wellFormed (tasks m) (queue m) ->
  (Since now (lastUpdated m) <= updateTimeout ->
   updateTasksIfNeeded FindByStatus now m = (None, m)) /\
  (updateTimeout < Since now (lastUpdated m) ->
   forall found,
     (forall e, FindByStatus (calls m) GDTaskStatusWaiting = (found, Some e) ->
        updateTasksIfNeeded FindByStatus now m
        = (Some e, call (CallFindByStatus GDTaskStatusWaiting) m)) /\
     (FindByStatus (calls m) GDTaskStatusWaiting = (found, None) ->
      let m' := (updateTasksIfNeeded FindByStatus now m).2 in
      (updateTasksIfNeeded FindByStatus now m).1 = None /\
      lastUpdated m' = now /\
      calls m' = calls m ++ [CallFindByStatus GDTaskStatusWaiting] /\
      (forall a t, tasks m !! a = Some t -> tasks m' !! a = Some t) /\
      queue m `prefix_of` queue m' /\
      wellFormed (tasks m') (queue m') /\
      (forall id, id ∈ queueIDs (tasks m') (queue m')
                  <-> id ∈ queueIDs (tasks m) (queue m) \/ id ∈ ID <$> found))).
Proof.
  intros Hwf. unfold updateTasksIfNeeded. split.
  - intros Hle. by destruct (decide (Since now (lastUpdated m) <= updateTimeout)).
  - intros Hlt found.
    destruct (decide (Since now (lastUpdated m) <= updateTimeout)); [lia|].
    split; [by intros e ->|]. intros ->.
    destruct (allocTasks (tasks (call (CallFindByStatus GDTaskStatusWaiting) m)) found)
      as [ts addrs] eqn:E.
    destruct (allocTasks_spec _ _ _ _ E) as [Hkeep Hnew]. simpl in Hkeep.
    destruct (queueIDs_allocated _ _ _ Hnew) as [Hvalid Hids].
    destruct (wellFormed_extend _ ts _ Hkeep Hwf) as [Hwf' Hsame].
    destruct (insert_spec ts (queue m) addrs Hwf' Hvalid)
      as (H1 & H2 & H3 & _).
    assert (Hq : queue (if decide (0 < length addrs)%nat
                        then set_queue (insert' ts (queue m) addrs)
                               (set_tasks (fun _ => ts)
                                  (call (CallFindByStatus GDTaskStatusWaiting) m))
                        else set_tasks (fun _ => ts)
                               (call (CallFindByStatus GDTaskStatusWaiting) m))
                 = insert' ts (queue m) addrs).
    { destruct (decide (0 < length addrs)%nat) as [|Hn]; [done|].
      destruct addrs; [done|]. simpl in Hn. lia. }
    cbv zeta. simpl. rewrite Hq.
    assert (Ht : tasks (if decide (0 < length addrs)%nat
                        then set_queue (insert' ts (queue m) addrs)
                               (set_tasks (fun _ => ts)
                                  (call (CallFindByStatus GDTaskStatusWaiting) m))
                        else set_tasks (fun _ => ts)
                               (call (CallFindByStatus GDTaskStatusWaiting) m)) = ts)
      by (by destruct (decide (0 < length addrs)%nat)).
    rewrite Ht.
    assert (Hc : calls (if decide (0 < length addrs)%nat
                        then set_queue (insert' ts (queue m) addrs)
                               (set_tasks (fun _ => ts)
                                  (call (CallFindByStatus GDTaskStatusWaiting) m))
                        else set_tasks (fun _ => ts)
                               (call (CallFindByStatus GDTaskStatusWaiting) m))
                 = calls m ++ [CallFindByStatus GDTaskStatusWaiting])
      by (by destruct (decide (0 < length addrs)%nat)).
    rewrite Hc. split_and!; try done.
    intros id. by rewrite H3, Hsame, Hids.
Qed.

End PollingFacts.

(** A task source that answers with tasks 1 and 2, both waiting. *)
Lemma updateTasksIfNeeded_polls_without_disturbing_the_queue_witness :
  let source := fun (_ : list repoCall) (_ : GDTaskStatus) =>
                  ([task1; task2], None : option error) in
  queueIDs (tasks (updateTasksIfNeeded source (10 * Second) onlyTask2).2)
           (queue (updateTasksIfNeeded source (10 * Second) onlyTask2).2)
  = [2; 1] /\
  lastUpdated (updateTasksIfNeeded source (10 * Second) onlyTask2).2 = 10 * Second.
Proof.
  intros source.
  destruct (updateTasksIfNeeded_polls_without_disturbing_the_queue source (10 * Second)
              onlyTask2 (wellFormed_single (tasks onlyTask2) 0%nat task2 eq_refl))
    as [_ Hpoll].
  destruct (Hpoll ltac:(by vm_compute) [task1; task2]) as [_ Hok].
  destruct (Hok eq_refl) as (_ & H2 & _).
  split; [reflexivity|exact H2].
Defined.

(** ** An execute task from its dispatch to its end *)

Lemma Load_Store k v l : Load k (Store k v l) = Some v.
Proof. unfold Load, Store. simpl. by destruct (decide (k = k)). Qed.

Lemma Load_Delete k l : Load k (Delete' k l) = None.
Proof.
  unfold Load, Delete'.
  assert (Hnone : list_find (fun kv : GDTask * option nat => kv.1 = k)
                    (filter (fun kv => kv.1 <> k) l) = None).
  { apply list_find_None, Forall_forall. intros kv Hin.
    by apply list_elem_of_filter in Hin as [Hne _]. }
  by rewrite Hnone.
Qed.

Section LifecycleFacts.

Variable loadServerCommand : ServerCommand -> option Z -> bool.
Variable workPath : string.
Variable execWithWriter : string -> Z * option error * list byte.

(** A task alone in the queue has to wait only for itself. *)
Lemma single_task_passes m a t0 t :
  tasks m !! a = Some t0 ->
  ID t0 = ID t ->
  RunAfterID t <= 0 \/ RunAfterID t <> ID t ->
  shouldTaskWaitForAnotherToComplete (set_queue ([] ++ [a]) m) t = false.
Proof.
  intros Ha Hid Hdep. unfold shouldTaskWaitForAnotherToComplete.
  destruct (decide (0 < RunAfterID t)) as [Hpos|_]; [|done].
  destruct Hdep as [Hle|Hne]; [lia|].
  simpl. unfold idOf. rewrite Ha. simpl.
  destruct (decide (Some (ID t0) = Some (RunAfterID t))) as [Heq|_]; [|done].
  simplify_eq. congruence.
Qed.

(** The dispatch of a waiting execute task, as a whole. *)
Lemma runNext_dispatches_execute m a rest t :
  queue m = a :: rest ->
  wellFormed (tasks m) (queue m) ->
  tasks m !! a = Some t ->
  Status t = GDTaskStatusWaiting ->
  shouldTaskWaitForAnotherToComplete (set_queue (rest ++ [a]) m) t = false ->
  Task t = GDTaskCommandExecute ->
  panicked m = None ->
  runNext loadServerCommand m
  = mkManager (lastUpdated m) (<[a := withStatus t GDTaskStatusWorking]> (tasks m))
      (rest ++ [a])
      (Store (withStatus t GDTaskStatusWorking) (Some (fresh (dom (cmds m))))
             (commandsInProgress m))
      (<[fresh (dom (cmds m)) := newExecuteCommand]> (cmds m))
      (calls m ++ [CallSave (withStatus t GDTaskStatusWorking)])
      (spawned m ++ [GoExecuteCommand a (fresh (dom (cmds m)))])
      (noticed m) (panicked m).
Proof.
  intros Hq Hwf Ht Hs Hdep Htask Hpan.
  rewrite (runNext_head loadServerCommand m a rest t Hq Hwf Ht Hdep). cbv zeta.
  unfold IsWaiting. rewrite Hs. simpl.
  unfold executeTask, setStatusAt. simpl. rewrite Ht. unfold SetStatus. rewrite Hs.
  simpl. rewrite lookup_insert_eq.
  destruct (decide (Task (withStatus t GDTaskStatusWorking) = GDTaskCommandExecute))
    as [_|Hne]; [|done].
  unfold executeCommand, completeStep. simpl. rewrite Hpan, lookup_insert_eq.
  unfold IsComplete. simpl.
  unfold go, set_inProgress, set_cmds, call, set_tasks, set_queue. simpl.
  by rewrite Hpan.
Qed.

(** The step on a task that is complete already, as a whole. *)
Lemma runNext_complete_task_state m a rest t :
  queue m = a :: rest ->
  wellFormed (tasks m) (queue m) ->
  tasks m !! a = Some t ->
  IsComplete t = true ->
  shouldTaskWaitForAnotherToComplete (set_queue (rest ++ [a]) m) t = false ->
  panicked m = None ->
  runNext loadServerCommand m
  = call (CallSave t)
         (set_queue rest (match Server t with
                          | Some s => notice s m
                          | None => m
                          end)).
Proof.
  intros Hq Hwf Ht Hc Hdep Hpan.
  rewrite (runNext_head loadServerCommand m a rest t Hq Hwf Ht Hdep). cbv zeta.
  assert (Hw : IsWaiting t = false /\ IsWorking t = false).
  { unfold IsComplete, IsWaiting, IsWorking in *. by destruct (Status t). }
  destruct Hw as [-> ->].
  assert (Hrot : wellFormed (tasks m) (rest ++ [a])).
  { rewrite Hq in Hwf. by apply wellFormed_rotate. }
  rewrite (completeStep_complete a _ t rest); [|done|done|done|done|done].
  by destruct (Server t).
Qed.

(** X28.  An execute task from its dispatch to its end, when the executor
    reports no error.  The step dispatches the task and starts the goroutine of
    its command; the goroutine runs the command line with the node paths filled
    in; the next step finds the command complete, sets the task to Success if
    the exit code is 0 and to Error otherwise, takes it out of the queue, saves
    it and starts the goroutine that appends the command's output to the task,
    if there is any.  In the end the command is no longer registered and its
    buffer is empty.  The task is alone in the queue and is not set to run after itself:
    it has no [RunAfterID], or one that is not its own ID (a task that runs
    after itself is never dispatched). *)
Theorem execute_task_runs_to_completion m a t code out :
  queue m = [a] ->
  wellFormed (tasks m) (queue m) ->
  tasks m !! a = Some t ->
  Status t = GDTaskStatusWaiting ->
  RunAfterID t <= 0 \/ RunAfterID t <> ID t ->
  Task t = GDTaskCommandExecute ->
  panicked m = None ->
  execWithWriter (expandNodePaths workPath (Command t)) = (code, None, out) ->
  let c := fresh (dom (cmds m)) in
  let working := withStatus t GDTaskStatusWorking in
  let final := withStatus t (if decide (code = 0) then GDTaskStatusSuccess
                             else GDTaskStatusError) in
  let m1 := runNext loadServerCommand m in
  let m2 := runExecuteCommand workPath execWithWriter a c m1 in
  let m3 := runNext loadServerCommand m2 in
  let m4 := runAppendTaskOutput a out m3 in
  spawned m1 = spawned m ++ [GoExecuteCommand a c] /\
  spawned m3 = spawned m1 ++ [GoAppendTaskOutput a out] /\
  tasks m4 = <[a := final]> (tasks m) /\
  queue m4 = [] /\
  calls m4 = calls m ++ [CallSave working; CallSave final]
             ++ (if decide (length out = 0%nat) then []
                 else [CallAppendOutput final out]) /\
  Load working (commandsInProgress m4) = None /\
  cmds m4 !! c = Some (mkCmdState true code []).
Proof.
  intros Hq Hwf Ht Hs Hdep Htask Hpan Hexec c working final m1 m2 m3 m4.
  assert (Hm1 : m1 = mkManager (lastUpdated m) (<[a := working]> (tasks m)) [a]
                       (Store working (Some c) (commandsInProgress m))
                       (<[c := newExecuteCommand]> (cmds m))
                       (calls m ++ [CallSave working])
                       (spawned m ++ [GoExecuteCommand a c]) (noticed m) (panicked m)).
  { exact (runNext_dispatches_execute m a [] t Hq Hwf Ht Hs
             (single_task_passes m a t t Ht eq_refl Hdep) Htask Hpan). }
  assert (Hm2 : m2 = mkManager (lastUpdated m) (<[a := working]> (tasks m)) [a]
                       (Store working (Some c) (commandsInProgress m))
                       (<[c := mkCmdState true code out]>
                          (<[c := newExecuteCommand]> (cmds m)))
                       (calls m ++ [CallSave working])
                       (spawned m ++ [GoExecuteCommand a c]) (noticed m) (panicked m)).
  { subst m2. rewrite Hm1. unfold runExecuteCommand. simpl.
    rewrite !lookup_insert_eq. unfold executeCommand_Execute. simpl.
    by rewrite Hexec. }
  assert (Hstep : tasks m3 = <[a := final]> (tasks m2) /\
                  queue m3 = [] /\
                  calls m3 = calls m2 ++ [CallSave final] /\
                  spawned m3 = spawned m2 ++ [GoAppendTaskOutput a out] /\
                  commandsInProgress m3 = Delete' working (commandsInProgress m2) /\
                  cmds m3 = <[c := mkCmdState true code []]> (cmds m2)).
  { apply (runNext_complete_command_spec loadServerCommand m2 a [] working c
             (mkCmdState true code out)).
    - by rewrite Hm2.
    - rewrite Hm2. apply (wellFormed_single _ a working), lookup_insert_eq.
    - rewrite Hm2. apply lookup_insert_eq.
    - done.
    - rewrite Hm2.
      apply (single_task_passes _ a working working); [apply lookup_insert_eq|done|done].
    - rewrite Hm2. apply Load_Store.
    - rewrite Hm2. apply lookup_insert_eq.
    - done.
    - by rewrite Hm2. }
  destruct Hstep as (Ht3 & Hq3 & Hc3 & Hs3 & Hi3 & Hcm3).
  assert (Hm4 : m4 = if decide (length out = 0%nat) then m3
                     else call (CallAppendOutput final out) m3).
  { subst m4. unfold runAppendTaskOutput. rewrite Ht3, lookup_insert_eq. done. }
  clearbody m3 m4. subst m4.
  rewrite Hm2 in Ht3, Hc3, Hs3, Hi3, Hcm3. rewrite Hm1. clear Hm1 Hm2. clearbody m1 m2.
  cbn [tasks calls spawned commandsInProgress cmds] in *.
  rewrite insert_insert_eq in Ht3.
  split_and!.
  - done.
  - by rewrite Hs3.
  - by destruct (decide (length out = 0%nat)).
  - by destruct (decide (length out = 0%nat)).
  - destruct (decide (length out = 0%nat)); cbn [calls call]; rewrite Hc3, <- ?app_assoc;
      [by rewrite app_nil_r|done].
  - destruct (decide (length out = 0%nat)); cbn [commandsInProgress call];
      rewrite Hi3; apply Load_Delete.
  - destruct (decide (length out = 0%nat)); cbn [cmds call];
      rewrite Hcm3; apply lookup_insert_eq.
Qed.

(** X29.  An execute task whose command the executor cannot run.  The
    goroutine of the command appends the error text to the task's output and
    sets the task to Error; the next step takes the task out of the queue and
    saves it.  The command is complete, but the step never looks at it again:
    what the command wrote stays unread in its buffer, and the command stays
    registered, so that [Stats] goes on counting a working task and reports a
    negative number of waiting ones for the empty queue.
    The task is alone in the queue and is not set to run after itself:
    it has no [RunAfterID], or one that is not its own ID (a task that runs
    after itself is never dispatched). *)
Theorem execute_task_with_executor_error_stays_registered m a t code e out :
  queue m = [a] ->
  wellFormed (tasks m) (queue m) ->
  tasks m !! a = Some t ->
  Status t = GDTaskStatusWaiting ->
  RunAfterID t <= 0 \/ RunAfterID t <> ID t ->
  Task t = GDTaskCommandExecute ->
  panicked m = None ->
  execWithWriter (expandNodePaths workPath (Command t)) = (code, Some e, out) ->
  e <> ""%string ->
  let c := fresh (dom (cmds m)) in
  let working := withStatus t GDTaskStatusWorking in
  let failed := withStatus t GDTaskStatusError in
  let m2 := runExecuteCommand workPath execWithWriter a c (runNext loadServerCommand m) in
  let m3 := runNext loadServerCommand m2 in
  tasks m2 = <[a := failed]> (tasks m) /\
  tasks m3 = <[a := failed]> (tasks m) /\
  queue m3 = [] /\
  calls m3 = calls m ++ [CallSave working; CallAppendOutput working (bytes_of e);
                         CallSave failed] /\
  spawned m3 = spawned m ++ [GoExecuteCommand a c] /\
  Load working (commandsInProgress m3) = Some (Some c) /\
  cmds m3 !! c = Some (mkCmdState true code out) /\
  0 < WorkingCount (Stats m3) /\
  WaitingCount (Stats m3) < 0.
Proof.
  intros Hq Hwf Ht Hs Hdep Htask Hpan Hexec He c working failed m2 m3.
  assert (Hbytes : length (bytes_of e) <> 0%nat).
  { destruct e as [|ch e']; [done|]. unfold bytes_of. simpl. lia. }
  assert (Hm2 : m2 = mkManager (lastUpdated m) (<[a := failed]> (tasks m)) [a]
                       (Store working (Some c) (commandsInProgress m))
                       (<[c := mkCmdState true code out]>
                          (<[c := newExecuteCommand]> (cmds m)))
                       (calls m ++ [CallSave working;
                                    CallAppendOutput working (bytes_of e)])
                       (spawned m ++ [GoExecuteCommand a c]) (noticed m) (panicked m)).
  { subst m2.
    rewrite (runNext_dispatches_execute m a [] t Hq Hwf Ht Hs
               (single_task_passes m a t t Ht eq_refl Hdep) Htask Hpan).
    fold c working. unfold runExecuteCommand. simpl.
    rewrite !lookup_insert_eq. unfold executeCommand_Execute. simpl.
    rewrite Hexec. unfold appendTaskOutput.
    destruct (decide (length (bytes_of e) = 0%nat)) as [H0|_]; [done|].
    unfold failTask, setStatusAt, call, set_cmds, set_tasks.
    cbn [tasks cmds calls lastUpdated queue commandsInProgress spawned noticed panicked].
    rewrite lookup_insert_eq. unfold SetStatus.
    cbn [Status withStatus legalTransition snd fst].
    rewrite insert_insert_eq, <- app_assoc. subst working failed. simpl.
    by rewrite insert_insert_eq. }
  assert (Hm3 : m3 = call (CallSave failed)
                       (set_queue [] (match Server failed with
                                      | Some s => notice s m2
                                      | None => m2
                                      end))).
  { apply (runNext_complete_task_state m2 a [] failed).
    - by rewrite Hm2.
    - rewrite Hm2. apply (wellFormed_single _ a failed), lookup_insert_eq.
    - rewrite Hm2. apply lookup_insert_eq.
    - done.
    - rewrite Hm2.
      apply (single_task_passes _ a failed failed); [apply lookup_insert_eq|done|done].
    - by rewrite Hm2. }
  clearbody m3. subst m3. rewrite Hm2. clear Hm2. clearbody m2.
  unfold Stats, Len, Store.
  destruct (Server failed);
    cbn [tasks queue calls spawned commandsInProgress cmds call set_queue notice
         WorkingCount WaitingCount length];
    rewrite <- ?app_assoc, lookup_insert_eq;
    (split_and!; [done|done|done|done|done|apply Load_Store|done|lia|lia]).
Qed.

End LifecycleFacts.

Lemma execute_task_runs_to_completion_witness :
  let m1 := runNext neverLoads onlyTask3 in
  let m2 := runExecuteCommand "/srv/gameap" exitsWith2 0%nat 0%nat m1 in
  let m3 := runNext neverLoads m2 in
  let m4 := runAppendTaskOutput 0%nat (bytes_of "backup failed") m3 in
  tasks m4 !! 0%nat = Some (withStatus task3 GDTaskStatusError) /\
  queue m4 = [] /\
  calls m4 = [CallSave (withStatus task3 GDTaskStatusWorking);
              CallSave (withStatus task3 GDTaskStatusError);
              CallAppendOutput (withStatus task3 GDTaskStatusError)
                (bytes_of "backup failed")].
Proof.
  intros m1 m2 m3 m4. subst m1 m2 m3 m4.
  assert (Hdep : RunAfterID task3 <= 0 \/ RunAfterID task3 <> ID task3) by (left; done).
  destruct (execute_task_runs_to_completion neverLoads "/srv/gameap" exitsWith2
              onlyTask3 0%nat task3 2 (bytes_of "backup failed")
              eq_refl (wellFormed_single (tasks onlyTask3) 0%nat task3 eq_refl)
              eq_refl eq_refl Hdep eq_refl eq_refl eq_refl)
    as (_ & _ & Htasks & Hqueue & Hcalls & _).
  split_and!; [|exact Hqueue|exact Hcalls].
  apply (f_equal (fun ts => ts !! 0%nat)) in Htasks.
  rewrite lookup_insert_eq in Htasks. exact Htasks.
Defined.

Lemma execute_task_with_executor_error_stays_registered_witness :
  let m2 := runExecuteCommand "/srv/gameap" cannotExec 0%nat 0%nat
              (runNext neverLoads onlyTask3) in
  let m3 := runNext neverLoads m2 in
  queue m3 = [] /\
  Load (withStatus task3 GDTaskStatusWorking) (commandsInProgress m3) = Some (Some 0%nat) /\
  0 < WorkingCount (Stats m3) /\
  WaitingCount (Stats m3) < 0.
Proof.
  intros m2 m3. subst m2 m3.
  assert (Hdep : RunAfterID task3 <= 0 \/ RunAfterID task3 <> ID task3) by (left; done).
  destruct (execute_task_with_executor_error_stays_registered neverLoads "/srv/gameap"
              cannotExec onlyTask3 0%nat task3 (-1) "executable file not found" []
              eq_refl (wellFormed_single (tasks onlyTask3) 0%nat task3 eq_refl)
              eq_refl eq_refl Hdep eq_refl eq_refl eq_refl ltac:(done))
    as (_ & _ & Hqueue & _ & _ & Hload & _ & Hworking & Hwaiting).
  split_and!; [exact Hqueue|exact Hload|exact Hworking|exact Hwaiting].
Defined.

End Scheduler.

(** * Package [processmanager]: the WinSW service manager (winsw.go) *)

Module ProcessManager.

(** Modelled from the spec: [domain.Result], an integer type with the values
    [SuccessResult] and [ErrorResult] (the package [domain] is not part of the
    sources); [domain.Result(code)] is the code itself. *)
Definition SuccessResult : Z := 0.
Definition ErrorResult : Z := 1.

(** winsw.go, lines 26-33 and 74-77. *)
Definition errorCodeCannotStart : Z := 1053.
Definition exitCodeStatusNotActive : Z := 0.
Definition exitCodeStatusActive : Z := 1.

Section WinSW.

(** [executor.ExecWithWriter] on the command line [winsw <verb> <service
    file>] of one server: the exit code and the error, given the verbs run
    before.  What the run writes to [out] is left out. *)
Variable exec : list string -> string -> Z * option error.

(** The file system and the user database as the manager finds them:
    whether the service file exists, what [checkUser] returns and what
    [makeService] returns. *)
Variable serviceFileExists : bool.
Variable checkUser : option error.
Variable makeService : bool * option error.

(** lines 102-114.  The state is the list of verbs run so far. *)
Definition runWinSWCommand (command : string) (h : list string)
  : Z * option error * list string :=
  let '(result, err) := exec h command in
  (result, err, h ++ [command]).

(** lines 79-100. *)
Definition Status (h : list string) : Z * option error * list string :=
  if negb serviceFileExists then (ErrorResult, None, h)
  else
    let '(result, err, h1) := runWinSWCommand "status" h in
    match err with
    | Some e => (ErrorResult, Some (WithMessage e "failed to get daemon status"), h1)
    | None =>
        if decide (result = exitCodeStatusNotActive) then (ErrorResult, None, h1)
        else if decide (result = exitCodeStatusActive) then (SuccessResult, None, h1)
        else (ErrorResult, None, h1)
    end.

(** lines 51-68.  The exit codes of both runs are dropped; a failure to remove
    the service file is logged. *)
Definition Stop (h : list string) : Z * option error * list string :=
  let '(_, err, h1) := runWinSWCommand "stop" h in
  match err with
  | Some e => (ErrorResult, Some (WithMessage e "failed to run stop command"), h1)
  | None =>
      let '(_, err2, h2) := runWinSWCommand "uninstall" h1 in
      match err2 with
      | Some e => (ErrorResult, Some (WithMessage e "failed to run uninstall command"), h2)
      | None => (SuccessResult, None, h2)
      end
  end.

(** lines 216-234.  Errors of the two runs are logged. *)
Definition tryFixReinstallService (h : list string) : Z * option error * list string :=
  let '(_, _, h1) := runWinSWCommand "uninstall" h in
  let '(result, _, h2) := runWinSWCommand "install" h1 in
  if decide (result = SuccessResult) then (SuccessResult, None, h2)
  else (ErrorResult, Some "failed to install service"%string, h2).

(** lines 119-155: the part of [command] before the verb is run.  [None] means
    the verb is reached. *)
Definition prepareService (h : list string) : option error * list string :=
  match checkUser with
  | Some e => (Some (WithMessage e "failed to check user"), h)
  | None =>
      let '(createdNewService, err) := makeService in
      match err with
      | Some e => (Some (WithMessage e "failed to make service"), h)
      | None =>
          if createdNewService then
            let '(result, err1, h1) := runWinSWCommand "install" h in
            match err1 with
            | Some e => (Some (WithMessage e "failed to install service"), h1)
            | None =>
                if decide (result = SuccessResult) then (None, h1)
                else (Some "failed to install service"%string, h1)
            end
          else
            let '(result, err1, h1) := runWinSWCommand "refresh" h in
            match err1 with
            | Some e => (Some (WithMessage e "failed to refresh service"), h1)
            | None =>
                if decide (result = SuccessResult) then (None, h1)
                else
                  let '(result2, err2, h2) := runWinSWCommand "install" h1 in
                  match err2 with
                  | Some e => (Some (WithMessage e "failed to install service"), h2)
                  | None =>
                      if decide (result2 = SuccessResult) then (None, h2)
                      else (Some "failed to refresh and install service"%string, h2)
                  end
            end
      end
  end.

(** lines 116-175. *)
Definition command (command : string) (h : list string)
  : Z * option error * list string :=
  match prepareService h with
  | (Some e, h1) => (ErrorResult, Some e, h1)
  | (None, h1) =>
      let '(result, err, h2) := runWinSWCommand command h1 in
      match err with
      | Some e => (ErrorResult, Some (WithMessage e "failed to exec command"), h2)
      | None =>
          if decide (result = errorCodeCannotStart /\ command = "start"%string) then
            let '(_, errFix, h3) := tryFixReinstallService h2 in
            match errFix with
            | Some e =>
                (ErrorResult,
                 Some (WithMessage e "failed to try fix by reinstalling service"), h3)
            | None =>
                let '(result2, err2, h4) := runWinSWCommand command h3 in
                match err2 with
                | Some e =>
                    (ErrorResult, Some (WithMessage e "failed to exec command"), h4)
                | None => (result2, None, h4)
                end
            end
          else (result, None, h2)
      end
  end.

(** lines 47-49 and 70-72. *)
Definition Start (h : list string) := command "start" h.
Definition Restart (h : list string) := command "restart" h.

End WinSW.

(** ** Service names and files (winsw.go, lines 26-31 and 382-398) *)

Definition servicesConfigPath : string := "C:\gameap\services".
Definition servicePrefix : string := "gameapServer".
Definition outputSizeLimit : Z := 30000.

(** [strconv.Itoa]. *)
Definition Itoa (n : Z) : string := pretty n.

(** lines 382-390. *)
Definition serviceName (serverID : Z) : string := servicePrefix +:+ Itoa serverID.

(** [filepath.Join] of a clean directory and a file name without separators:
    the two, joined by the separator. *)
Definition joinPath (dir file : string) : string := dir +:+ "\" +:+ file.

(** lines 392-394. *)
Definition serviceFile (serverID : Z) : string :=
  joinPath servicesConfigPath (serviceName serverID +:+ ".xml").

(** lines 396-398. *)
Definition logPath (serverID : Z) : string :=
  joinPath servicesConfigPath (serviceName serverID +:+ ".out.log").

(** ** Reading the log (lines 177-208) *)

Section Output.

(** The log file as [GetOutput] finds it: what [os.Open] returns (the content
    of the file, or an error), the errors of [f.Stat] and [f.Seek], and how
    [io.Copy] ends, [Some (n, e)] when it fails with [e] after [n] bytes.  The
    size that [f.Stat] reports is the length of the content. *)
Variable file : error + list byte.
Variable statErr seekErr : option error.
Variable copyErr : option (nat * error).

(** lines 177-208.  [out] is what the writer holds. *)
Definition GetOutput (out : list byte) : Z * option error * list byte :=
  match file with
  | inl e => (ErrorResult, Some (WithMessage e "failed to open file"), out)
  | inr content =>
      match statErr with
      | Some e => (ErrorResult, Some (WithMessage e "failed to get file stat"), out)
      | None =>
          let size := Z.of_nat (length content) in
          let seek :=
            if decide (size > outputSizeLimit) then
              match seekErr with
              | Some e => inl e
              | None => inr (Z.to_nat (size - outputSizeLimit))
              end
            else inr 0%nat in
          match seek with
          | inl e => (ErrorResult, Some (WithMessage e "failed to seek file"), out)
          | inr offset =>
              match copyErr with
              | Some (n, e) =>
                  (ErrorResult, Some (WithMessage e "failed to copy file"),
                   out ++ take n (drop offset content))
              | None => (SuccessResult, None, out ++ drop offset content)
              end
          end
      end
  end.

(** lines 210-214. *)
Definition SendInput (out : list byte) : Z * option error * list byte :=
  (ErrorResult, Some "input is not supported on Windows"%string, out).

End Output.

(** ** The service configuration (lines 249-380 and 400-430) *)

Record onFailure := mkOnFailure { Action : string; Delay : string }.

Record WinSWServiceConfig := mkServiceConfig {
  cfg_ID : string;
  cfg_Name : string;
  Executable : string;
  Arguments : string;
  WorkingDirectory : string;
  StopExecutable : string;
  StopArguments : string;
  StopTimeout : string;
  OnFailure : list onFailure;
  ResetFailure : string;
  Logpath : string;
  LogMode : string;
  Username : string;
  Password : string
}.

(** [os.IsPathSeparator] on Windows. *)
Definition IsPathSeparator (c : Ascii.ascii) : bool :=
  bool_decide (c = "\"%char) || bool_decide (c = "/"%char).

(** [filepath.Ext]: the path is read from its end up to the first separator;
    the first dot met starts the extension.  [back] is what is left to read, in
    reading order, [seen] what was read. *)
Fixpoint extScan (back seen : list Ascii.ascii) : list Ascii.ascii :=
  match back with
  | [] => []
  | c :: back' =>
      if IsPathSeparator c then []
      else if bool_decide (c = "."%char) then c :: seen
      else extScan back' (c :: seen)
  end.

Definition Ext (path : string) : string :=
  String.string_of_list_ascii (extScan (rev (String.list_ascii_of_string path)) []).

(** lines 310-325: the executable and the arguments; [None] when [cmdArr[0]]
    is out of range. *)
Definition commandLine (cmdArr : list string) : option (string * string) :=
  match cmdArr with
  | [] => None
  | first :: rest =>
      let '(executable, argArr) :=
        if decide (Ext first = ".bat"%string)
        then ("cmd.exe"%string, ["/c"%string; first])
        else (first, []) in
      let argArr := argArr ++ rest in
      let arguments :=
        if decide (1 < length cmdArr)%nat then String.concat " " argArr
        else ""%string in
      Some (executable, arguments)
  end.

(** The result of a function that may panic. *)
Inductive returned (A : Type) :=
| Panics (reason : string)
| Returns (value : A).
Arguments Panics {A} reason.
Arguments Returns {A} value.

Section ServiceConfig.

(** The errors [ErrEmptyCommand], [ErrUserNotFound] and
    [ErrInvalidUserPassword] of the package, [shellquote.Split],
    [base64.StdEncoding.DecodeString] and [xml.MarshalIndent], none of them
    part of the sources. *)
Variable ErrEmptyCommand ErrUserNotFound ErrInvalidUserPassword : error.
Variable Split : string -> error + list string.
Variable DecodeString : string -> error + string.
Variable MarshalIndent : WinSWServiceConfig -> error + string.

(** [cfg.Users], and of the server: the full start command that
    [domain.MakeFullCommand] returns, the ID, the user and the working
    directory. *)
Variable users : gmap string string.
Variable cmd : string.
Variable serverID : Z.
Variable serverUser : string.
Variable workDir : string.

(** lines 327-344 and 368-369. *)
Definition serviceConfig (executable arguments password : string) : WinSWServiceConfig :=
  {| cfg_ID := serviceName serverID;
     cfg_Name := serviceName serverID;
     Executable := executable;
     Arguments := arguments;
     WorkingDirectory := workDir;
     StopExecutable := "";
     StopArguments := "";
     StopTimeout := "";
     OnFailure := [mkOnFailure "restart" "1 sec"; mkOnFailure "restart" "2 sec";
                   mkOnFailure "restart" "5 sec"; mkOnFailure "restart" "5 sec"];
     ResetFailure := "1 hour";
     Logpath := "";
     LogMode := "reset";
     Username := serverUser;
     Password := password |}.

(** lines 355-366. *)
Definition readPassword (rawPw : string) : error + string :=
  if String.prefix "base64:" rawPw then
    match DecodeString (String.substring 7 (String.length rawPw - 7) rawPw) with
    | inl e => inl (WithMessage e "failed to decode base64 password")
    | inr pw => inr pw
    end
  else inr rawPw.

(** lines 293-380. *)
Definition buildServiceConfig : returned (error + string) :=
  if decide (cmd = ""%string) then Returns (inl ErrEmptyCommand)
  else
    match Split cmd with
    | inl e => Returns (inl (WithMessage e "failed to split command"))
    | inr cmdArr =>
        match commandLine cmdArr with
        | None => Panics "index out of range [0] with length 0"
        | Some (executable, arguments) =>
            match users !! serverUser with
            | None => Returns (inl ErrUserNotFound)
            | Some rawPw =>
                if decide (rawPw = ""%string) then Returns (inl ErrInvalidUserPassword)
                else
                  match readPassword rawPw with
                  | inl e => Returns (inl e)
                  | inr password =>
                      match MarshalIndent (serviceConfig executable arguments password) with
                      | inl e => Returns (inl (WithMessage e "failed to marshal xml"))
                      | inr out => Returns (inr out)
                      end
                  end
            end
        end
    end.

(** The file system as [makeService] finds it: whether the directory of the
    service files is missing and what [os.MkdirAll] returns then, the errors of
    [os.OpenFile] and of [f.WriteString]. *)
Variable dirMissing : bool.
Variable mkdirErr openErr writeErr : option error.

(** lines 249-291.  The state is the content of the service file, [None] while
    the file does not exist.  Opening the file creates it empty, or truncates
    it; a failed write leaves it as it was opened. *)
Definition makeService (serviceFileContent : option string)
  : returned (bool * option error) * option string :=
  match (if dirMissing then mkdirErr else None) with
  | Some e => (Returns (false, Some (WithMessage e "failed to create directory")),
               serviceFileContent)
  | None =>
      let createdNew := bool_decide (serviceFileContent = None) in
      match openErr with
      | Some e => (Returns (false, Some (WithMessage e "failed to open file")),
                   serviceFileContent)
      | None =>
          let opened := Some ""%string in
          match buildServiceConfig with
          | Panics reason => (Panics reason, opened)
          | Returns (inl e) =>
              (Returns (false, Some (WithMessage e "failed to build service config")), opened)
          | Returns (inr c) =>
              match writeErr with
              | Some e => (Returns (false, Some (WithMessage e "failed to write to file")),
                           opened)
              | None => (Returns (createdNew, None), Some c)
              end
          end
      end
  end.

End ServiceConfig.

(** An executor that answers the n-th run with the n-th entry of [answers]
    (exit code 0 and no error beyond them). *)
Definition replay (answers : list (Z * option error)) (h : list string) (_ : string)
  : Z * option error :=
  default (0, None) (answers !! length h).

(** A [Split] that finds the given words, a decoder that answers with the
    given text, and a marshaller that shows the executable, the arguments and
    the password. *)
Definition splitInto (words : list string) (_ : string) : error + list string :=
  inr words.
Definition decodeTo (text : string) (_ : string) : error + string := inr text.
Definition showCommand (c : WinSWServiceConfig) : error + string :=
  inr (Executable c +:+ "|" +:+ Arguments c +:+ "|" +:+ Password c)%string.

Definition gameapUser : gmap string string := <["gameap"%string := "secret"%string]> ∅.

Section WinSWFacts.

Variable exec : list string -> string -> Z * option error.

(** C7, as amended.  On the service-manager variant, when the executor
    reports no error: [Status], with the service file present, maps the native
    exit code 1 to [SuccessResult] and every other exit code, 0 included, to
    [ErrorResult]; [Start] and [Restart], once the service is prepared, return
    the native exit code of their verb as the result, so that the result is
    [SuccessResult] exactly for the exit code 0 and [ErrorResult] exactly for
    the exit code 1, any other exit code being a result of its own (a start
    that exits with 1053 apart, which is retried after a reinstall); and
    [Stop] returns [SuccessResult] whatever the exit codes of its two runs. *)
Theorem WinSW_exit_code_mapping checkUser makeService h :
  (forall code,
     exec h "status"%string = (code, None) ->
     (Status exec true h).1
     = (if decide (code = 1) then SuccessResult else ErrorResult, None)) /\
  (forall h1 code,
     prepareService exec checkUser makeService h = (None, h1) ->
     exec h1 "start"%string = (code, None) -> code <> 1053 ->
     let run := Start exec checkUser makeService h in
     run.1 = (code, None) /\
     (run.1.1 = SuccessResult <-> code = 0) /\ (run.1.1 = ErrorResult <-> code = 1)) /\
  (forall h1 code,
     prepareService exec checkUser makeService h = (None, h1) ->
     exec h1 "restart"%string = (code, None) ->
     let run := Restart exec checkUser makeService h in
     run.1 = (code, None) /\
     (run.1.1 = SuccessResult <-> code = 0) /\ (run.1.1 = ErrorResult <-> code = 1)) /\
  (forall c1 c2,
     exec h "stop"%string = (c1, None) ->
     exec (h ++ ["stop"%string]) "uninstall"%string = (c2, None) ->
     (Stop exec h).1 = (SuccessResult, None)).
Proof.
  split_and!.
  - intros code Hs. unfold Status, runWinSWCommand. simpl. rewrite Hs.
    unfold exitCodeStatusNotActive, exitCodeStatusActive.
    destruct (decide (code = 0)) as [->|H0]; [done|].
    by destruct (decide (code = 1)).
  - intros h1 code Hprep Hv Hne. cbv zeta. unfold Start, command. rewrite Hprep.
    unfold runWinSWCommand. rewrite Hv. unfold errorCodeCannotStart.
    destruct (decide (code = 1053 /\ "start"%string = "start"%string)) as [[? _]|_];
      [done|]. simpl. by unfold SuccessResult, ErrorResult.
  - intros h1 code Hprep Hv. cbv zeta. unfold Restart, command. rewrite Hprep.
    unfold runWinSWCommand. rewrite Hv. unfold errorCodeCannotStart.
    destruct (decide (code = 1053 /\ "restart"%string = "start"%string)) as [[_ ?]|_];
      [done|]. simpl. by unfold SuccessResult, ErrorResult.
  - intros c1 c2 H1 H2. unfold Stop, runWinSWCommand. rewrite H1, H2. done.
Qed.

(** C8, as amended.  Let the service be prepared and the verb run with exit
    code [code] and no executor error.  If the verb is start and the code is
    1053, the service is reinstalled exactly once (uninstall, then install);
    if that install exits with 0, start is run once more and its result is
    returned, also when it is 1053 again (no second reinstall); if that
    install exits with another code, [ErrorResult] and an error are returned
    and start is not run again.  In every other case nothing is run after the
    verb and its exit code is the result. *)
Theorem WinSW_command_reinstalls_once checkUser makeService verb h h1 code :
  prepareService exec checkUser makeService h = (None, h1) ->
  exec h1 verb = (code, None) ->
  let run := command exec checkUser makeService verb h in
  let fix' := h1 ++ [verb] ++ ["uninstall"; "install"]%string in
  (code = 1053 /\ verb = "start"%string ->
   ((exec (h1 ++ [verb] ++ ["uninstall"%string]) "install"%string).1 = 0 ->
    run.2 = fix' ++ ["start"%string] /\
    forall code2, exec fix' "start"%string = (code2, None) ->
                  run.1 = (code2, None)) /\
   ((exec (h1 ++ [verb] ++ ["uninstall"%string]) "install"%string).1 <> 0 ->
    run.2 = fix' /\
    run.1 = (ErrorResult,
             Some "failed to try fix by reinstalling service: failed to install service"%string)))
  /\
  (~ (code = 1053 /\ verb = "start"%string) ->
   run.2 = h1 ++ [verb] /\ run.1 = (code, None)).
Proof.
  intros Hprep Hverb run fix'. subst run fix'.
  unfold command. rewrite Hprep. unfold tryFixReinstallService, runWinSWCommand.
  rewrite Hverb. unfold errorCodeCannotStart.
  destruct (decide (code = 1053 /\ verb = "start"%string)) as [[-> ->]|Hno].
  - split; [|by intros []]. intros _.
    destruct (exec (h1 ++ ["start"%string]) "uninstall"%string) as [cu eu].
    rewrite <- !app_assoc. simpl.
    destruct (exec (h1 ++ ["start"; "uninstall"]%string) "install"%string)
      as [ci ei] eqn:Hi.
    simpl. unfold SuccessResult.
    destruct (decide (ci = 0)) as [->|Hci].
    + split; [|done]. intros _. rewrite <- ?app_assoc. simpl.
      destruct (exec (h1 ++ ["start"; "uninstall"; "install"]%string) "start"%string)
        as [c2 e2] eqn:H2.
      split; [by destruct e2|]. intros code2 Heq. by simplify_eq.
    + split; [done|]. intros _. by rewrite <- ?app_assoc.
  - split; [done|]. intros _. done.
Qed.

(** X21.  A verb other than start, [Restart]'s among them, never leads to an
    uninstall or a second run: [command] runs install or refresh (with install
    as fallback) and then the verb, so the verbs run are one of seven sequences;
    without an error the verb is the last of them, and nothing is run when the
    user check or the making of the service fails. *)
Theorem WinSW_command_runs_verb_once checkUser makeService verb h :
  verb <> "start"%string ->
  let run := command exec checkUser makeService verb h in
  run.2 ∈ [h; h ++ ["install"%string]; h ++ ["refresh"%string];
           h ++ ["refresh"; "install"]%string;
           h ++ ["install"%string; verb]; h ++ ["refresh"%string; verb];
           h ++ ["refresh"%string; "install"%string; verb]] /\
  (run.1.2 = None ->
   run.2 ∈ [h ++ ["install"%string; verb]; h ++ ["refresh"%string; verb];
            h ++ ["refresh"%string; "install"%string; verb]]) /\
  (is_Some checkUser \/ is_Some makeService.2 -> run.2 = h).
Proof.
  intros Hverb run. subst run.
  unfold command, prepareService, runWinSWCommand.
  destruct checkUser as [e|]; simpl.
  { split_and!; [set_solver|done|done]. }
  destruct makeService as [created [e|]]; simpl.
  { split_and!; [set_solver|done|done]. }
  assert (Hnone : ~ (is_Some (@None error) \/ is_Some (@None error))).
  { intros [[? ?]|[? ?]]; done. }
  destruct created.
  - destruct (exec h "install"%string) as [c1 [e1|]]; simpl.
    { split_and!; [set_solver|done|done]. }
    destruct (decide (c1 = SuccessResult)); simpl; [|split_and!; [set_solver|done|done]].
    destruct (exec (h ++ ["install"%string]) verb) as [c2 [e2|]]; simpl;
      rewrite <- ?app_assoc; simpl.
    { split_and!; [set_solver|done|done]. }
    destruct (decide (c2 = errorCodeCannotStart /\ verb = "start"%string)) as [[_ ?]|_];
      [done|]. simpl.
    split_and!; [set_solver|set_solver|done].
  - destruct (exec h "refresh"%string) as [c1 [e1|]]; simpl.
    { split_and!; [set_solver|done|done]. }
    destruct (decide (c1 = SuccessResult)); simpl.
    + destruct (exec (h ++ ["refresh"%string]) verb) as [c2 [e2|]]; simpl;
        rewrite <- ?app_assoc; simpl.
      { split_and!; [set_solver|done|done]. }
      destruct (decide (c2 = errorCodeCannotStart /\ verb = "start"%string)) as [[_ ?]|_];
        [done|]. simpl.
      split_and!; [set_solver|set_solver|done].
    + destruct (exec (h ++ ["refresh"%string]) "install"%string) as [c2 [e2|]]; simpl;
        rewrite <- ?app_assoc; simpl.
      { split_and!; [set_solver|done|done]. }
      destruct (decide (c2 = SuccessResult)); simpl; [|split_and!; [set_solver|done|done]].
      destruct (exec (h ++ ["refresh"; "install"]%string) verb) as [c3 [e3|]]; simpl;
        rewrite <- ?app_assoc; simpl.
      { split_and!; [set_solver|done|done]. }
      destruct (decide (c3 = errorCodeCannotStart /\ verb = "start"%string)) as [[_ ?]|_];
        [done|]. simpl.
      split_and!; [set_solver|set_solver|done].
Qed.

(** X22.  Whenever [Status], [Stop], [command] (so [Start] and [Restart]) or
    [tryFixReinstallService] returns an error, the result that comes with it is
    [ErrorResult], whatever the exit code of the run that failed. *)
Theorem WinSW_error_comes_with_ErrorResult serviceFileExists checkUser makeService verb h :
  (is_Some (Status exec serviceFileExists h).1.2 ->
   (Status exec serviceFileExists h).1.1 = ErrorResult) /\
  (is_Some (Stop exec h).1.2 -> (Stop exec h).1.1 = ErrorResult) /\
  (is_Some (command exec checkUser makeService verb h).1.2 ->
   (command exec checkUser makeService verb h).1.1 = ErrorResult) /\
  (is_Some (tryFixReinstallService exec h).1.2 ->
   (tryFixReinstallService exec h).1.1 = ErrorResult).
Proof.
  assert (Hno : forall A (P : Prop), is_Some (@None A) -> P).
  { intros A P [? ?]. done. }
  split_and!.
  - unfold Status, runWinSWCommand.
    destruct serviceFileExists; simpl; [|done].
    destruct (exec h "status"%string) as [c [e|]]; simpl; [done|].
    repeat (case_match; simpl; try done); apply Hno.
  - unfold Stop, runWinSWCommand.
    destruct (exec h "stop"%string) as [c [e|]]; simpl; [done|].
    destruct (exec _ "uninstall"%string) as [c2 [e2|]]; simpl; [done|]. apply Hno.
  - unfold command.
    destruct (prepareService exec checkUser makeService h) as [[e|] h1]; [done|].
    unfold runWinSWCommand.
    destruct (exec h1 verb) as [c [e|]]; simpl; [done|].
    destruct (decide (c = errorCodeCannotStart /\ verb = "start"%string)); simpl;
      [|apply Hno].
    destruct (tryFixReinstallService exec (h1 ++ [verb])) as [[r [e|]] h3]; simpl; [done|].
    destruct (exec h3 verb) as [c2 [e2|]]; simpl; [done|]. apply Hno.
  - unfold tryFixReinstallService, runWinSWCommand.
    destruct (exec h "uninstall"%string) as [c1 e1]. simpl.
    destruct (exec _ "install"%string) as [c2 e2]. simpl.
    destruct (decide (c2 = SuccessResult)); simpl; [apply Hno|done].
Qed.

End WinSWFacts.

(** ** Facts about the names, the log and the service configuration *)

Lemma list_ascii_of_string_app s1 s2 :
  String.list_ascii_of_string (s1 +:+ s2)
  = String.list_ascii_of_string s1 ++ String.list_ascii_of_string s2.
Proof. induction s1 as [|c s1 IH]; simpl; [done|by rewrite IH]. Qed.

Lemma list_ascii_of_string_inj s1 s2 :
  String.list_ascii_of_string s1 = String.list_ascii_of_string s2 -> s1 = s2.
Proof.
  intros H. rewrite <- (String.string_of_list_ascii_of_string s1),
              <- (String.string_of_list_ascii_of_string s2). by rewrite H.
Qed.

Lemma string_app_inv_tail s1 s2 t : s1 +:+ t = s2 +:+ t -> s1 = s2.
Proof.
  intros H. apply list_ascii_of_string_inj.
  apply (f_equal String.list_ascii_of_string) in H.
  rewrite !list_ascii_of_string_app in H. by apply app_inv_tail in H.
Qed.

Lemma Ext_bat stem : Ext (stem +:+ ".bat") = ".bat"%string.
Proof.
  unfold Ext. rewrite list_ascii_of_string_app, rev_app_distr. reflexivity.
Qed.

Lemma substring_all s : String.substring 0 (String.length s) s = s.
Proof. induction s as [|c s IH]; simpl; [done|by rewrite IH]. Qed.

(** X23.  Servers are told apart by their service: two servers have the same
    service name, the same service file or the same log only when they have the
    same ID, and no service file is the log of a server. *)
Theorem service_files_are_per_server id1 id2 :
  (serviceName id1 = serviceName id2 <-> id1 = id2) /\
  (serviceFile id1 = serviceFile id2 <-> id1 = id2) /\
  (logPath id1 = logPath id2 <-> id1 = id2) /\
  serviceFile id1 <> logPath id2.
Proof.
  assert (Hname : serviceName id1 = serviceName id2 -> id1 = id2).
  { unfold serviceName, Itoa. intros H. apply (inj _) in H. by apply (inj pretty) in H. }
  split_and!.
  - split; [done|by intros ->].
  - split; [|by intros ->]. unfold serviceFile, joinPath. intros H.
    do 2 apply (inj _) in H. by apply string_app_inv_tail in H; auto.
  - split; [|by intros ->]. unfold logPath, joinPath. intros H.
    do 2 apply (inj _) in H. by apply string_app_inv_tail in H; auto.
  - unfold serviceFile, logPath, joinPath. intros H.
    do 2 apply (inj _) in H.
    apply (f_equal String.list_ascii_of_string) in H.
    rewrite !list_ascii_of_string_app in H.
    apply (f_equal (@rev _)) in H. rewrite !rev_app_distr in H. simpl in H.
    discriminate H.
Qed.

(** X24.  [GetOutput] hands on the end of the log.  When it returns without an
    error the result is [SuccessResult], and what it has written behind the
    writer's content is the last 30000 bytes of the log, or the whole log when
    that is shorter.  When it returns an error the result is [ErrorResult], and
    unless the copying itself failed nothing has been written. *)
Theorem GetOutput_writes_the_end_of_the_log file statErr seekErr copyErr out :
  let run := GetOutput file statErr seekErr copyErr out in
  (run.1.2 = None ->
   run.1.1 = SuccessResult /\
   exists content skipped written,
     file = inr content /\ content = skipped ++ written /\
     run.2 = out ++ written /\
     Z.of_nat (length written) = Z.min (Z.of_nat (length content)) outputSizeLimit) /\
  (is_Some run.1.2 ->
   run.1.1 = ErrorResult /\ (copyErr = None -> run.2 = out)).
Proof.
  intros run. subst run. unfold GetOutput.
  assert (Hno : forall A (P : Prop), is_Some (@None A) -> P).
  { intros A P [? ?]. done. }
  destruct file as [e|content]; simpl; [by split|].
  destruct statErr as [e|]; simpl; [by split|].
  destruct (decide (Z.of_nat (length content) > outputSizeLimit)) as [Hbig|Hsmall].
  - destruct seekErr as [e|]; simpl; [by split|].
    destruct copyErr as [[n e]|]; simpl; [by split|].
    split; [|apply Hno]. intros _. split; [done|].
    exists content, (take (Z.to_nat (Z.of_nat (length content) - outputSizeLimit)) content),
      (drop (Z.to_nat (Z.of_nat (length content) - outputSizeLimit)) content).
    split_and!; [done|by rewrite take_drop|done|].
    rewrite length_drop. unfold outputSizeLimit in *. lia.
  - destruct copyErr as [[n e]|]; simpl; [by split|].
    split; [|apply Hno]. intros _. split; [done|].
    exists content, [], content. split_and!; try done.
    unfold outputSizeLimit in *. lia.
Qed.

Section ServiceConfigFacts.

Variable ErrEmptyCommand ErrUserNotFound ErrInvalidUserPassword : error.
Variable Split : string -> error + list string.
Variable DecodeString : string -> error + string.
Variable MarshalIndent : WinSWServiceConfig -> error + string.
Variable serverID : Z.
Variable serverUser : string.
Variable workDir : string.

Local Notation "'build'" := (buildServiceConfig ErrEmptyCommand ErrUserNotFound
                               ErrInvalidUserPassword).

(** X25.  A start command that is a batch file alone loses the file: the
    configuration built for it is the one of the bare command cmd.exe, with
    no arguments, whatever the file is called.  With at least one more word
    the arguments are /c, the batch file and the other words. *)
Theorem buildServiceConfig_drops_lone_batch_file users cmd stem :
  cmd <> ""%string ->
  Split cmd = inr [stem +:+ ".bat"] ->
  build Split DecodeString MarshalIndent users cmd serverID serverUser workDir
  = build (fun _ => inr ["cmd.exe"%string]) DecodeString MarshalIndent users
          "cmd.exe" serverID serverUser workDir /\
  commandLine [stem +:+ ".bat"] = Some ("cmd.exe", "")%string /\
  forall word words,
    commandLine ((stem +:+ ".bat") :: word :: words)
    = Some ("cmd.exe"%string,
            String.concat " " ("/c"%string :: (stem +:+ ".bat") :: word :: words)).
Proof.
  intros Hcmd Hsplit.
  assert (Hlone : commandLine [stem +:+ ".bat"] = Some ("cmd.exe", "")%string).
  { unfold commandLine. rewrite Ext_bat. simpl.
    destruct (decide (".bat" = ".bat")%string); [|done].
    by destruct (decide (1 < 1)%nat); [lia|]. }
  split_and!.
  - unfold buildServiceConfig. rewrite Hsplit, Hlone.
    destruct (decide (cmd = ""%string)); [done|].
    destruct (decide ("cmd.exe" = "")%string); [done|].
    done.
  - done.
  - intros word words. unfold commandLine. rewrite Ext_bat.
    destruct (decide (".bat" = ".bat")%string); [|done].
    destruct (decide (1 < length ((stem +:+ ".bat") :: word :: words))%nat) as [_|Hlen];
      [done|]. simpl in Hlen. lia.
Qed.

(** X26.  A password written as base64: followed by an encoding is stored
    decoded: the configuration built is the one built for the decoded
    password written plainly, as long as that is not empty and does not start
    with base64: itself.  The test for an empty password comes before the
    decoding, so the entry base64: alone does not give
    [ErrInvalidUserPassword] as the empty entry does, but a configuration
    with an empty password. *)
Theorem buildServiceConfig_decodes_password users cmd enc pw first rest :
  cmd <> ""%string ->
  Split cmd = inr (first :: rest) ->
  DecodeString enc = inr pw ->
  let encoded := <[serverUser := ("base64:" +:+ enc)%string]> users in
  let plain := <[serverUser := pw]> users in
  (pw <> ""%string -> String.prefix "base64:" pw = false ->
   build Split DecodeString MarshalIndent encoded cmd serverID serverUser workDir
   = build Split DecodeString MarshalIndent plain cmd serverID serverUser workDir) /\
  (pw = ""%string ->
   build Split DecodeString MarshalIndent plain cmd serverID serverUser workDir
   = Returns (inl ErrInvalidUserPassword) /\
   exists executable arguments,
     commandLine (first :: rest) = Some (executable, arguments) /\
     build Split DecodeString MarshalIndent encoded cmd serverID serverUser workDir
     = match MarshalIndent (serviceConfig serverID serverUser workDir
                              executable arguments "") with
       | inl e => Returns (inl (WithMessage e "failed to marshal xml"))
       | inr out => Returns (inr out)
       end).
Proof.
  intros Hcmd Hsplit Hdec encoded plain. subst encoded plain.
  assert (Hread : readPassword DecodeString ("base64:" +:+ enc) = inr pw).
  { unfold readPassword.
    change (String.prefix "base64:" ("base64:" +:+ enc)) with (String.prefix "" enc).
    replace (String.prefix "" enc) with true by (by destruct enc).
    change (String.length ("base64:" +:+ enc) - 7)%nat
      with (String.length enc - 0)%nat.
    rewrite Nat.sub_0_r.
    change (String.substring 7 (String.length enc) ("base64:" +:+ enc))
      with (String.substring 0 (String.length enc) enc).
    by rewrite substring_all, Hdec. }
  assert (Hline : exists executable arguments,
             commandLine (first :: rest) = Some (executable, arguments)).
  { unfold commandLine. destruct (decide (Ext first = ".bat"%string)); by eauto. }
  destruct Hline as (executable & arguments & Hline).
  unfold buildServiceConfig. rewrite Hsplit, Hline, !lookup_insert_eq.
  destruct (decide (cmd = ""%string)); [done|].
  destruct (decide (("base64:" +:+ enc)%string = ""%string)) as [Hemp|_];
    [discriminate Hemp|].
  rewrite Hread. split.
  - intros Hpw Hplain. destruct (decide (pw = ""%string)); [done|].
    unfold readPassword. by rewrite Hplain.
  - intros ->. split; [by destruct (decide (""%string = ""%string))|].
    by exists executable, arguments.
Qed.

(** X27.  [makeService] opens the service file before it builds the
    configuration.  With an empty start command the file is therefore left
    empty, whether it held a configuration before or did not exist, and
    [makeService] fails; and on the next call with a command whose
    configuration can be built, the service does not count as newly created,
    although none was written before.  Only a call that finds no file reports
    a new service. *)
Theorem makeService_empties_file_before_building users mkdirErr :
  let make := fun cmd =>
    makeService ErrEmptyCommand ErrUserNotFound ErrInvalidUserPassword Split
      DecodeString MarshalIndent users cmd serverID serverUser workDir
      false mkdirErr None None in
  (forall before,
     make ""%string before
     = (Returns (false, Some (WithMessage ErrEmptyCommand "failed to build service config")),
        Some ""%string)) /\
  (forall cmd c before,
     build Split DecodeString MarshalIndent users cmd serverID serverUser workDir
     = Returns (inr c) ->
     (make cmd (make ""%string before).2).1 = Returns (false, None) /\
     (make cmd (make ""%string before).2).2 = Some c /\
     make cmd None = (Returns (true, None), Some c)).
Proof.
  intros make. subst make. split.
  - intros before. unfold makeService, buildServiceConfig. simpl.
    by destruct (decide (""%string = ""%string)).
  - intros cmd c before Hbuild. unfold makeService at 1 3 5. rewrite Hbuild. simpl.
    unfold makeService, buildServiceConfig. simpl.
    by destruct (decide (""%string = ""%string)).
Qed.

End ServiceConfigFacts.

(** C7 as stated fails on the service-manager variant: [Status] turns the
    native exit code 0 into [ErrorResult] and the exit code 1 into
    [SuccessResult]; [Stop] returns [SuccessResult] although both of its runs
    exit with 3; [Start] turns the exit code 2 into the result 2, which is
    not [ErrorResult]; a start that exits with 0 while the executor reports an
    error gives [ErrorResult]; and a start that exits with 1053 gives
    [SuccessResult] when the start after the reinstall exits with 0. *)
Lemma WinSW_exit_code_counterexample :
  (Status (replay [(0, None)]) true []).1 = (ErrorResult, None) /\
  (Status (replay [(1, None)]) true []).1 = (SuccessResult, None) /\
  ErrorResult <> SuccessResult /\
  (Stop (replay [(3, None); (3, None)]) []).1 = (SuccessResult, None) /\
  (Start (replay [(0, None); (2, None)]) None (true, None) []).1 = (2, None) /\
  2 <> ErrorResult /\
  (Start (replay [(0, None); (0, Some "exec failed"%string)]) None (true, None) []).1.1
  = ErrorResult /\
  (Start (replay [(0, None); (1053, None); (0, None); (0, None); (0, None)])
         None (true, None) []).1 = (SuccessResult, None).
Proof. by vm_compute. Qed.

Lemma WinSW_exit_code_mapping_witness :
  (Status (replay [(0, None); (0, None)]) true []).1 = (ErrorResult, None) /\
  (Start (replay [(0, None); (0, None)]) None (true, None) []).1 = (SuccessResult, None) /\
  (Restart (replay [(0, None); (1, None)]) None (true, None) []).1 = (ErrorResult, None) /\
  (Stop (replay [(0, None); (3, None)]) []).1 = (SuccessResult, None).
Proof.
  destruct (WinSW_exit_code_mapping (replay [(0, None); (0, None)]) None (true, None) [])
    as (Hstatus & Hstart & _ & _).
  destruct (WinSW_exit_code_mapping (replay [(0, None); (1, None)]) None (true, None) [])
    as (_ & _ & Hrestart & _).
  destruct (WinSW_exit_code_mapping (replay [(0, None); (3, None)]) None (true, None) [])
    as (_ & _ & _ & Hstop).
  split_and!.
  - exact (Hstatus 0 eq_refl).
  - assert (Hne : 0 <> 1053) by done.
    exact (proj1 (Hstart ["install"%string] 0 eq_refl eq_refl Hne)).
  - exact (proj1 (Hrestart ["install"%string] 1 eq_refl eq_refl)).
  - exact (Hstop 0 3 eq_refl eq_refl).
Defined.

(** C8 as stated fails: start exits with 1053, and the install of the
    reinstall exits with 1; the verbs run are install, start, uninstall,
    install, start is not run again, and [ErrorResult] is returned with an
    error instead of the result of a retried start. *)
Lemma WinSW_command_reinstall_counterexample :
  command (replay [(0, None); (1053, None); (0, None); (1, None); (0, None)])
          None (true, None) "start" []
  = (ErrorResult,
     Some "failed to try fix by reinstalling service: failed to install service"%string,
     ["install"; "start"; "uninstall"; "install"]%string).
Proof. by vm_compute. Qed.

Lemma WinSW_command_reinstalls_once_witness :
  let exec := replay [(0, None); (1053, None); (0, None); (0, None); (1053, None)] in
  (command exec None (true, None) "start" []).2
  = ["install"; "start"; "uninstall"; "install"; "start"]%string /\
  (command exec None (true, None) "start" []).1 = (1053, None).
Proof.
  intros exec.
  destruct (WinSW_command_reinstalls_once exec None (true, None) "start"%string
              [] ["install"%string] 1053 eq_refl eq_refl) as [Hretry _].
  destruct (Hretry (conj eq_refl eq_refl)) as [Hok _].
  destruct (Hok eq_refl) as [Htrace Hres].
  split; [exact Htrace|exact (Hres 1053 eq_refl)].
Defined.

Lemma WinSW_command_runs_verb_once_witness :
  (Restart (replay []) None (true, None) []).2
  ∈ [["install"; "restart"]; ["refresh"; "restart"];
     ["refresh"; "install"; "restart"]]%string.
Proof.
  assert (Hverb : "restart"%string <> "start"%string) by done.
  destruct (WinSW_command_runs_verb_once (replay []) None (true, None)
              "restart"%string [] Hverb) as (_ & Hlast & _).
  exact (Hlast eq_refl).
Defined.

Lemma WinSW_error_comes_with_ErrorResult_witness :
  (Stop (replay [(3, Some "exec failed"%string)]) []).1.1 = ErrorResult.
Proof.
  destruct (WinSW_error_comes_with_ErrorResult (replay [(3, Some "exec failed"%string)])
              true None (true, None) "start"%string []) as (_ & Hstop & _).
  apply Hstop. by eexists.
Defined.

Lemma GetOutput_writes_the_end_of_the_log_witness :
  exists skipped written,
    String.list_byte_of_string "started" = skipped ++ written /\
    (GetOutput (inr (String.list_byte_of_string "started")) None None None []).2
    = written /\
    Z.of_nat (length written) = 7.
Proof.
  destruct (GetOutput_writes_the_end_of_the_log
              (inr (String.list_byte_of_string "started")) None None None [])
    as [Hok _].
  destruct (Hok eq_refl) as (_ & content & skipped & written & Hfile & Hsplit & Hout & Hlen).
  injection Hfile as <-. exists skipped, written. split_and!; [exact Hsplit|exact Hout|].
  rewrite Hlen. reflexivity.
Defined.

Lemma buildServiceConfig_drops_lone_batch_file_witness :
  buildServiceConfig "empty command" "user not found" "invalid password"
    (splitInto ["start.bat"%string]) (decodeTo "") showCommand gameapUser
    "start.bat" 1 "gameap" "servers/1"
  = Returns (inr "cmd.exe||secret"%string).
Proof.
  assert (Hcmd : "start.bat"%string <> ""%string) by done.
  destruct (buildServiceConfig_drops_lone_batch_file
              "empty command" "user not found" "invalid password"
              (splitInto ["start.bat"%string]) (decodeTo "") showCommand 1 "gameap"
              "servers/1" gameapUser "start.bat" "start" Hcmd eq_refl) as (Hsame & _ & _).
  rewrite Hsame. reflexivity.
Defined.

Lemma buildServiceConfig_decodes_password_witness :
  buildServiceConfig "empty command" "user not found" "invalid password"
    (splitInto ["server.exe"%string]) (decodeTo "") showCommand
    (<["gameap"%string := "base64:"%string]> gameapUser)
    "server.exe" 1 "gameap" "servers/1"
  = Returns (inr "server.exe||"%string) /\
  buildServiceConfig "empty command" "user not found" "invalid password"
    (splitInto ["server.exe"%string]) (decodeTo "") showCommand
    (<["gameap"%string := ""%string]> gameapUser)
    "server.exe" 1 "gameap" "servers/1"
  = Returns (inl "invalid password"%string).
Proof.
  assert (Hcmd : "server.exe"%string <> ""%string) by done.
  destruct (buildServiceConfig_decodes_password
              "empty command" "user not found" "invalid password"
              (splitInto ["server.exe"%string]) (decodeTo "") showCommand 1 "gameap"
              "servers/1" gameapUser "server.exe" "" "" "server.exe" []
              Hcmd eq_refl eq_refl) as [_ Hempty].
  destruct (Hempty eq_refl) as (Hplain & executable & arguments & Hline & Henc).
  injection Hline as <- <-.
  split; [exact Henc|exact Hplain].
Defined.

Lemma makeService_empties_file_before_building_witness :
  makeService "empty command" "user not found" "invalid password"
    (splitInto []) (decodeTo "") showCommand gameapUser "" 1 "gameap" "servers/1"
    false None None None (Some "<service/>"%string)
  = (Returns (false, Some "failed to build service config: empty command"%string),
     Some ""%string).
Proof.
  destruct (makeService_empties_file_before_building
              "empty command" "user not found" "invalid password"
              (splitInto []) (decodeTo "") showCommand 1 "gameap" "servers/1"
              gameapUser None) as [Hempty _].
  exact (Hempty (Some "<service/>"%string)).
Defined.

End ProcessManager.

(** * Package [repositories]: the server repository (server_repository.go) *)

Module Repositories.

(** line 19. *)
Definition serverCacheTTL : Z := 10 * Second.

Definition StatusOK : Z := 200.
Definition StatusNotFound : Z := 404.

(** Modelled from the spec: [domain.Game] and [domain.GameMod] are records of
    the package [domain], which is not part of the sources; they are kept as
    opaque texts. *)
Definition Game := string.
Definition GameMod := string.

(** Modelled from the spec: [domain.Server], the aggregate with its identity,
    the attributes that [NewServer] and [Set] take (in the order of their
    arguments) and the dirty flags, a set of field names
    (["installationStatus"], ["status"]).  Times count nanoseconds from the
    zero [time.Time]. *)
Record Server := mkServer {
  sv_id : Z;
  sv_enabled : bool;
  sv_installStatus : Z;
  sv_blocked : bool;
  sv_name : string;
  sv_uuid : string;
  sv_uuidShort : string;
  sv_game : Game;
  sv_gameMod : GameMod;
  sv_ip : string;
  sv_connectPort : Z;
  sv_queryPort : Z;
  sv_rconPort : Z;
  sv_rconPassword : string;
  sv_dir : string;
  sv_user : string;
  sv_startCommand : string;
  sv_stopCommand : string;
  sv_forceStopCommand : string;
  sv_restartCommand : string;
  sv_processActive : bool;
  sv_lastStatusCheck : Z;
  sv_vars : gmap string string;
  sv_settings : gmap string string;
  sv_updatedAt : Z;
  sv_modified : gset string
}.

Definition ID (s : Server) : Z := sv_id s.
Definition InstallationStatus (s : Server) : Z := sv_installStatus s.
Definition IsActive (s : Server) : bool := sv_processActive s.
Definition LastStatusCheck (s : Server) : Z := sv_lastStatusCheck s.

(** Modelled from the spec: a field is dirty when its name is in the flags; the
    server is dirty when some field is; [UnmarkModifiedFlag] clears the flags. *)
Definition IsValueModified (name : string) (s : Server) : bool :=
  bool_decide (name ∈ sv_modified s).

Definition IsModified (s : Server) : bool :=
  bool_decide (sv_modified s <> ∅).

Definition with_modified (m : gset string) (s : Server) : Server :=
  mkServer (sv_id s) (sv_enabled s) (sv_installStatus s) (sv_blocked s) (sv_name s)
    (sv_uuid s) (sv_uuidShort s) (sv_game s) (sv_gameMod s) (sv_ip s)
    (sv_connectPort s) (sv_queryPort s) (sv_rconPort s) (sv_rconPassword s)
    (sv_dir s) (sv_user s) (sv_startCommand s) (sv_stopCommand s)
    (sv_forceStopCommand s) (sv_restartCommand s) (sv_processActive s)
    (sv_lastStatusCheck s) (sv_vars s) (sv_settings s) (sv_updatedAt s) m.

Definition UnmarkModifiedFlag (s : Server) : Server := with_modified ∅ s.

(** Modelled from the spec: the setters of the status fields mark them dirty. *)
Definition SetInstallationStatus (st : Z) (s : Server) : Server :=
  mkServer (sv_id s) (sv_enabled s) st (sv_blocked s) (sv_name s)
    (sv_uuid s) (sv_uuidShort s) (sv_game s) (sv_gameMod s) (sv_ip s)
    (sv_connectPort s) (sv_queryPort s) (sv_rconPort s) (sv_rconPassword s)
    (sv_dir s) (sv_user s) (sv_startCommand s) (sv_stopCommand s)
    (sv_forceStopCommand s) (sv_restartCommand s) (sv_processActive s)
    (sv_lastStatusCheck s) (sv_vars s) (sv_settings s) (sv_updatedAt s)
    ({["installationStatus"%string]} ∪ sv_modified s).

(** Modelled from the spec: [NewServer] builds a clean server; [Set] replaces
    the attributes and leaves identity and flags. *)
Definition NewServer (id : Z) (enabled : bool) (installStatus : Z) (blocked : bool)
    (name uuid uuidShort : string) (game : Game) (gameMod : GameMod) (ip : string)
    (connectPort queryPort rconPort : Z) (rconPassword dir user : string)
    (startCommand stopCommand forceStopCommand restartCommand : string)
    (processActive : bool) (lastStatusCheck : Z)
    (vars settings : gmap string string) (updatedAt : Z) : Server :=
  mkServer id enabled installStatus blocked name uuid uuidShort game gameMod ip
    connectPort queryPort rconPort rconPassword dir user startCommand stopCommand
    forceStopCommand restartCommand processActive lastStatusCheck vars settings
    updatedAt ∅.

Definition Set' (enabled : bool) (installStatus : Z) (blocked : bool)
    (name uuid uuidShort : string) (game : Game) (gameMod : GameMod) (ip : string)
    (connectPort queryPort rconPort : Z) (rconPassword dir user : string)
    (startCommand stopCommand forceStopCommand restartCommand : string)
    (processActive : bool) (lastStatusCheck : Z)
    (vars settings : gmap string string) (updatedAt : Z) (s : Server) : Server :=
  mkServer (sv_id s) enabled installStatus blocked name uuid uuidShort game gameMod
    ip connectPort queryPort rconPort rconPassword dir user startCommand stopCommand
    forceStopCommand restartCommand processActive lastStatusCheck vars settings
    updatedAt (sv_modified s).

(** A decoded JSON value of a settings entry ([interface{}]): a string or
    something else. *)
Inductive jsonValue := JString (s : string) | JOther.

(** lines 141-167: the decoded response. *)
Record serverStruct := mkServerStruct {
  Vars : gmap string string;
  ForceStopCommand : string;
  Dir : string;
  LastProcessCheck : string;
  Name : string;
  UUID : string;
  UUIDShort : string;
  RestartCommand : string;
  StopCommand : string;
  IP : string;
  StartCommand : string;
  UpdatedAt : string;
  RconPassword : string;
  User : string;
  Game' : Game;
  Settings : list (gmap string jsonValue);
  GameMod' : GameMod;
  ConnectPort : Z;
  ID' : Z;
  InstallStatus : Z;
  RconPort : Z;
  QueryPort : Z;
  Enabled : bool;
  ProcessActive : bool;
  Blocked : bool
}.

(** lines 358-363. *)
Record serverSaveStruct := mkSave {
  save_InstallationStatus : option Z;
  save_LastProcessCheck : option string;
  save_ID : Z;
  save_ProcessActive : Z
}.

(** A request to the API ([domain.APIRequest]) and its answer. *)
Inductive requestBody :=
| NoBody
| SaveBody (s : serverSaveStruct)
| SaveBulkBody (ss : list serverSaveStruct).

Record APIRequest := mkRequest {
  Method : string;
  URL : string;
  Body : requestBody;
  PathParams : list (string * string)
}.

Record Response := mkResponse { StatusCode : Z; ResponseBody : list byte }.

(** lines 28-34 and 169-173.  The servers are shared through pointers: [heap]
    holds the server objects by address; [servers] and [lastUpdated] are the
    maps of [ServerRepository], [apiServers] is [innerRepo.servers];
    [requests] records the requests sent to the API, in order. *)
Record ServerRepository := mkRepo {
  heap : gmap nat Server;
  servers : gmap Z nat;
  lastUpdated : gmap Z Z;
  apiServers : gmap Z nat;
  requests : list APIRequest
}.

Section Repository.

(** [client.Request]: an error or a response, given the state of the
    repository at the time of the call, that is the requests sent before and
    the server objects as they are then.  What is done to a server object
    before a request and what is done after it are thereby told apart. *)
Variable client : ServerRepository -> APIRequest -> error + Response.

(** [json.Unmarshal] into [serverStruct], [time.Parse(layout, value)] and
    [Time.UTC().Format(layout)]. *)
Variable unmarshal : list byte -> error + serverStruct.
Variable parseTime : string -> string -> error + Z.
Variable formatTime : string -> Z -> string.

Definition RFC3339 : string := "2006-01-02T15:04:05Z07:00".
Definition dateTimeLayout : string := "2006-01-02 15:04:05".

(** [strconv.Itoa]. *)
Definition Itoa (n : Z) : string := pretty n.

Definition Request (req : APIRequest) (r : ServerRepository)
  : (error + Response) * ServerRepository :=
  (client r req,
   mkRepo (heap r) (servers r) (lastUpdated r) (apiServers r) (requests r ++ [req])).

(** lines 252-276: the settings of the response, entry by entry. *)
Fixpoint settingsOf (entries : list (gmap string jsonValue))
    (settings : gmap string string) : gmap string string :=
  match entries with
  | [] => settings
  | v :: rest =>
      match v !! "name"%string with
      | Some (JString snameString) =>
          match v !! "value"%string with
          | Some (JString svalueString) =>
              settingsOf rest (<[snameString := svalueString]> settings)
          | _ => settingsOf rest settings
          end
      | _ => settingsOf rest settings
      end
  end.

(** lines 236-245. *)
Definition parseLastProcessCheck (srv : serverStruct) : error + Z :=
  if decide (LastProcessCheck srv <> ""%string) then
    match parseTime dateTimeLayout (LastProcessCheck srv) with
    | inr t => inr t
    | inl _ => parseTime RFC3339 (LastProcessCheck srv)
    end
  else inr 0.

(** The request of [apiServerRepo.FindByID]. *)
Definition findRequest (id : Z) : APIRequest :=
  mkRequest "GET" "/gdaemon_api/servers/{id}" NoBody [("id"%string, Itoa id)].

(** lines 207-356. *)
Definition apiFindByID (id : Z) (r : ServerRepository)
  : option nat * option error * ServerRepository :=
  let '(response, r1) := Request (findRequest id) r in
  match response with
  | inl err => (None, Some err, r1)
  | inr response =>
      if decide (StatusCode response = StatusNotFound) then (None, None, r1)
      else if decide (StatusCode response <> StatusOK) then
        (None,
         Some (WithMessage "invalid response from API"
                 "[repositories.apiServerRepo] failed find game server"), r1)
      else
        match unmarshal (ResponseBody response) with
        | inl err => (None, Some err, r1)
        | inr srv =>
            match parseLastProcessCheck srv with
            | inl err => (None, Some err, r1)
            | inr lastProcessCheck =>
                match parseTime RFC3339 (UpdatedAt srv) with
                | inl err => (None, Some err, r1)
                | inr updatedAt =>
                    let settings := settingsOf (Settings srv) ∅ in
                    match apiServers r1 !! ID' srv ≫= fun a => pair a <$> heap r1 !! a with
                    | Some (a, server) =>
                        let installationStatus :=
                          if negb (IsValueModified "installationStatus" server)
                             && bool_decide (InstallationStatus server <> InstallStatus srv)
                          then InstallStatus srv
                          else InstallationStatus server in
                        let '(processActive, lastStatusCheck) :=
                          if negb (IsValueModified "status" server)
                             && bool_decide (IsActive server <> ProcessActive srv)
                          then (ProcessActive srv, lastProcessCheck)
                          else (IsActive server, LastStatusCheck server) in
                        let server' :=
                          Set' (Enabled srv) installationStatus (Blocked srv) (Name srv)
                            (UUID srv) (UUIDShort srv) (Game' srv) (GameMod' srv) (IP srv)
                            (ConnectPort srv) (QueryPort srv) (RconPort srv)
                            (RconPassword srv) (Dir srv) (User srv) (StartCommand srv)
                            (StopCommand srv) (ForceStopCommand srv) (RestartCommand srv)
                            processActive lastStatusCheck (Vars srv) settings updatedAt
                            server in
                        (Some a, None,
                         mkRepo (<[a := server']> (heap r1)) (servers r1) (lastUpdated r1)
                                (apiServers r1) (requests r1))
                    | None =>
                        let server :=
                          NewServer (ID' srv) (Enabled srv) (InstallStatus srv)
                            (Blocked srv) (Name srv) (UUID srv) (UUIDShort srv)
                            (Game' srv) (GameMod' srv) (IP srv) (ConnectPort srv)
                            (QueryPort srv) (RconPort srv) (RconPassword srv) (Dir srv)
                            (User srv) (StartCommand srv) (StopCommand srv)
                            (ForceStopCommand srv) (RestartCommand srv)
                            (ProcessActive srv) lastProcessCheck (Vars srv) settings
                            updatedAt in
                        let a := fresh (dom (heap r1)) in
                        (Some a, None,
                         mkRepo (<[a := server]> (heap r1)) (servers r1) (lastUpdated r1)
                                (<[ID' srv := a]> (apiServers r1)) (requests r1))
                    end
                end
            end
        end
  end.

(** lines 124-126. *)
Definition store (id : Z) (server : option nat) (r : ServerRepository)
  : ServerRepository :=
  match server with
  | Some a =>
      mkRepo (heap r) (<[id := a]> (servers r)) (lastUpdated r) (apiServers r)
             (requests r)
  | None => r
  end.

(** lines 102-108, and again 114-120, followed by lines 124-128. *)
Definition fetch (now id : Z) (r : ServerRepository)
  : option nat * option error * ServerRepository :=
  let '(server, err, r1) := apiFindByID id r in
  match err with
  | Some e => (None, Some e, r1)
  | None =>
      let r2 :=
        match server with
        | Some _ =>
            mkRepo (heap r1) (servers r1) (<[id := now]> (lastUpdated r1))
                   (apiServers r1) (requests r1)
        | None => r1
        end in
      (server, None, store id server r2)
  end.

(** The tests of lines 101 and 113: whether [FindByID] asks the API. *)
Definition refetches (now id : Z) (r : ServerRepository) : bool :=
  match servers r !! id with
  | None => true
  | Some a =>
      match lastUpdated r !! id, heap r !! a with
      | Some last, Some server =>
          bool_decide (wrap64 (Until now last + serverCacheTTL) < 0)
          && negb (IsModified server)
      | _, _ => false
      end
  end.

(** lines 92-129, at the clock reading [now]. *)
Definition FindByID (now : Z) (id : Z) (r : ServerRepository)
  : option nat * option error * ServerRepository :=
  match servers r !! id with
  | None => fetch now id r
  | Some a =>
      match lastUpdated r !! id, heap r !! a with
      | Some last, Some server =>
          if bool_decide (wrap64 (Until now last + serverCacheTTL) < 0)
             && negb (IsModified server)
          then fetch now id r
          else (Some a, None, store id (Some a) r)
      | _, _ => (Some a, None, store id (Some a) r)
      end
  end.

(** lines 365-384. *)
Definition saveStructFromServer (server : Server) : serverSaveStruct :=
  let s0 := mkSave None None (ID server) 0 in
  let s1 := if IsValueModified "installationStatus" server
            then mkSave (Some (InstallationStatus server)) (save_LastProcessCheck s0)
                        (save_ID s0) (save_ProcessActive s0)
            else s0 in
  let s2 := if IsActive server && IsValueModified "status" server
            then mkSave (save_InstallationStatus s1) (save_LastProcessCheck s1)
                        (save_ID s1) 1
            else s1 in
  if negb (bool_decide (LastStatusCheck server = 0)) && IsValueModified "status" server
  then mkSave (save_InstallationStatus s2)
              (Some (formatTime dateTimeLayout (LastStatusCheck server)))
              (save_ID s2) (save_ProcessActive s2)
  else s2.

(** The request of [Save] for a server. *)
Definition saveRequest (sv : Server) : APIRequest :=
  mkRequest "PUT" "/gdaemon_api/servers/{id}" (SaveBody (saveStructFromServer sv))
            [("id"%string, Itoa (ID sv))].

Definition unmarkAt (a : nat) (r : ServerRepository) : ServerRepository :=
  mkRepo (alter UnmarkModifiedFlag a (heap r)) (servers r) (lastUpdated r)
         (apiServers r) (requests r).

Definition invalidResponse (msg : string) : error :=
  WithMessage "invalid response from API" msg.

(** lines 386-416.  [a] is the address of the server object; an address
    outside the heap stands for no server, and nothing is done for it. *)
Definition Save (a : nat) (r : ServerRepository) : option error * ServerRepository :=
  match heap r !! a with
  | None => (None, r)
  | Some server =>
      let serverSaveValues := saveStructFromServer server in
      let r1 := unmarkAt a r in
      let '(resp, r2) :=
        Request (mkRequest "PUT" "/gdaemon_api/servers/{id}" (SaveBody serverSaveValues)
                           [("id"%string, Itoa (ID server))]) r1 in
      match resp with
      | inl err =>
          (Some (WithMessage err "[repositories.apiServerRepo] failed to saving server"),
           r2)
      | inr resp =>
          if decide (StatusCode resp <> StatusOK) then
            (Some (invalidResponse "[repositories.apiServerRepo] failed to saving server"),
             r2)
          else (None, r2)
      end
  end.

(** lines 419-423: the loop of [SaveBulk]. *)
Fixpoint collectSaveValues (addrs : list nat) (r : ServerRepository)
  : list serverSaveStruct * ServerRepository :=
  match addrs with
  | [] => ([], r)
  | a :: rest =>
      match heap r !! a with
      | Some server =>
          let v := saveStructFromServer server in
          let '(vs, r') := collectSaveValues rest (unmarkAt a r) in
          (v :: vs, r')
      | None => collectSaveValues rest r
      end
  end.

(** lines 418-447. *)
Definition SaveBulk (addrs : list nat) (r : ServerRepository)
  : option error * ServerRepository :=
  let '(serverSaveValues, r1) := collectSaveValues addrs r in
  let '(resp, r2) :=
    Request (mkRequest "PATCH" "/gdaemon_api/servers" (SaveBulkBody serverSaveValues) []) r1 in
  match resp with
  | inl err =>
      (Some (WithMessage err "[repositories.apiServerRepo] failed to bulk saving servers"),
       r2)
  | inr resp =>
      if decide (StatusCode resp <> StatusOK) then
        (Some (invalidResponse "[repositories.apiServerRepo] failed to bulk saving servers"),
         r2)
      else (None, r2)
  end.

End Repository.

(** ** Concrete data *)

(** A server whose installation status was changed locally. *)
Definition cleanServer : Server :=
  NewServer 1 true 0 false "cs" "uuid" "short" "cstrike" "classic" "127.0.0.1"
    27015 27015 27015 "rcon" "servers/1" "gameap" "./start.sh" "./stop.sh" "" ""
    false 5 ∅ ∅ 7.

Definition dirtyServer : Server := SetInstallationStatus 1 cleanServer.

Definition repoWith (server : Server) : ServerRepository :=
  mkRepo (<[0%nat := server]> ∅) (<[1 := 0%nat]> ∅) (<[1 := 0]> ∅) (<[1 := 0%nat]> ∅) [].

(** The clean server cached with a time stamp some 292 years ahead. *)
Definition futureRepo : ServerRepository :=
  mkRepo (<[0%nat := cleanServer]> ∅) (<[1 := 0%nat]> ∅) (<[1 := 2 ^ 63]> ∅)
         (<[1 := 0%nat]> ∅) [].

(** API clients: one whose requests fail, one that answers 500, one that
    answers 200. *)
Definition failingClient (_ : ServerRepository) (_ : APIRequest) : error + Response :=
  inl "connection refused"%string.
Definition brokenClient (_ : ServerRepository) (_ : APIRequest) : error + Response :=
  inr (mkResponse 500 []).
Definition okClient (_ : ServerRepository) (_ : APIRequest) : error + Response :=
  inr (mkResponse 200 []).

Definition notFoundClient (_ : ServerRepository) (_ : APIRequest) : error + Response :=
  inr (mkResponse 404 []).

(** A client that looks at the server object at address 0 when it is called:
    it answers 200 when the object holds no dirty flag, and 500 when it holds
    one. *)
Definition observingClient (r : ServerRepository) (_ : APIRequest) : error + Response :=
  match heap r !! 0%nat with
  | Some server =>
      if IsModified server then inr (mkResponse 500 []) else inr (mkResponse 200 [])
  | None => inr (mkResponse 404 [])
  end.

Definition noFormat (_ : string) (_ : Z) : string := "".

(** A repository that has not seen any server yet. *)
Definition emptyRepo : ServerRepository := mkRepo ∅ ∅ ∅ ∅ [].

(** What the API holds for the server 1: renamed, not active, last process
    check at time 9. *)
Definition apiServer : serverStruct :=
  mkServerStruct ∅ "" "servers/1" "9" "renamed" "uuid" "short" "" "./stop.sh"
    "127.0.0.1" "./start.sh" "8" "rcon" "gameap" "cstrike" [] "classic" 27015 1 0
    27015 27015 true false false.

Definition decodeApiServer (_ : list byte) : error + serverStruct := inr apiServer.

(** A parser that reads the texts "8" and "9". *)
Definition parseDigits (_ : string) (value : string) : error + Z :=
  if decide (value = "9"%string) then inr 9
  else if decide (value = "8"%string) then inr 8
  else inl "cannot parse"%string.

Section RepositoryFacts.

Variable client : ServerRepository -> APIRequest -> error + Response.
Variable unmarshal : list byte -> error + serverStruct.
Variable parseTime : string -> string -> error + Z.
Variable formatTime : string -> Z -> string.

Lemma UnmarkModifiedFlag_clean sv : IsModified (UnmarkModifiedFlag sv) = false.
Proof.
  unfold IsModified. simpl. apply bool_decide_eq_false. intros H. by apply H.
Qed.

Lemma Save_heap a r sv :
  heap r !! a = Some sv ->
  heap (Save client formatTime a r).2 = alter UnmarkModifiedFlag a (heap r).
Proof.
  intros Ha. unfold Save. rewrite Ha. unfold Request. simpl.
  destruct (client _ _) as [e|resp]; [done|].
  by destruct (decide (StatusCode resp <> StatusOK)).
Qed.

Lemma collectSaveValues_heap addrs : forall r a,
  heap (collectSaveValues formatTime addrs r).2 !! a
  = if decide (a ∈ addrs) then UnmarkModifiedFlag <$> heap r !! a else heap r !! a.
Proof.
  induction addrs as [|x addrs IH]; intros r a; simpl.
  - destruct (decide (a ∈ [])) as [H|H]; [by inversion H|done].
  - destruct (heap r !! x) as [sv|] eqn:Hx.
    + specialize (IH (unmarkAt x r) a).
      destruct (collectSaveValues formatTime addrs (unmarkAt x r)) as [vs r'].
      simpl in *. rewrite IH. unfold unmarkAt. simpl.
      destruct (decide (a = x)) as [->|Hne].
      * rewrite lookup_alter_eq, Hx. simpl.
        destruct (decide (x ∈ addrs)); destruct (decide (x ∈ x :: addrs)) as [|Hn];
          try done; exfalso; apply Hn; left.
      * rewrite lookup_alter_ne by done.
        destruct (decide (a ∈ addrs)) as [Hin|Hin];
          destruct (decide (a ∈ x :: addrs)) as [Hin'|Hin']; try done.
        -- exfalso. apply Hin'. by right.
        -- exfalso. inversion Hin'; subst; done.
    + rewrite IH.
      destruct (decide (a ∈ addrs)) as [Hin|Hin];
        destruct (decide (a ∈ x :: addrs)) as [Hin'|Hin']; try done.
      * exfalso. apply Hin'. by right.
      * inversion Hin'; subst; [|done]. by rewrite Hx.
Qed.

Lemma SaveBulk_heap addrs r a :
  heap (SaveBulk client formatTime addrs r).2 !! a
  = if decide (a ∈ addrs) then UnmarkModifiedFlag <$> heap r !! a else heap r !! a.
Proof.
  unfold SaveBulk. pose proof (collectSaveValues_heap addrs r a) as H.
  destruct (collectSaveValues formatTime addrs r) as [vs r1]. unfold Request. simpl in *.
  destruct (client _ _) as [e|resp]; [done|].
  by destruct (decide (StatusCode resp <> StatusOK)).
Qed.

Lemma apiFindByID_requests id r :
  requests (apiFindByID client unmarshal parseTime id r).2
  = requests r ++ [findRequest id].
Proof.
  unfold apiFindByID, Request. simpl.
  repeat (case_match; simpl; try done).
Qed.

(** With a time stamp that is not in the future, the test of line 113 says
    that the entry is older than the TTL. *)
Lemma cache_entry_expired now last :
  last <= now ->
  wrap64 (Until now last + serverCacheTTL) < 0 <-> serverCacheTTL < now - last.
Proof.
  intros Hle. unfold Until, Sub, wrap64, serverCacheTTL, minDuration, maxDuration, Second.
  destruct (decide (last - now < - 2 ^ 63)) as [H1|H1].
  - rewrite Z.mod_small by lia. lia.
  - destruct (decide (2 ^ 63 - 1 < last - now)) as [H2|H2]; [lia|].
    rewrite Z.mod_small by lia. lia.
Qed.

Lemma fetch_requests now id r :
  requests (fetch client unmarshal parseTime now id r).2
  = requests r ++ [findRequest id].
Proof.
  unfold fetch. pose proof (apiFindByID_requests id r) as H.
  destruct (apiFindByID client unmarshal parseTime id r) as [[[a|] [e|]] r1];
    simpl in *; done.
Qed.

Lemma FindByID_requests now id r :
  requests (FindByID client unmarshal parseTime now id r).2
  = if refetches now id r then requests r ++ [findRequest id] else requests r.
Proof.
  unfold FindByID, refetches.
  destruct (servers r !! id) as [a|]; [|apply fetch_requests].
  destruct (lastUpdated r !! id) as [last|]; [|done].
  destruct (heap r !! a) as [sv|]; [|done].
  destruct (bool_decide _ && negb _); [apply fetch_requests|done].
Qed.

(** C4, as amended.  A save (single [Save] and [SaveBulk]) clears the server's
    dirty flags as soon as its save values are read, before the request is
    sent: the API client is called in the state in which the flags of the
    server are clear already, and the save returns nil exactly when the client,
    called in that state, answers with the status 200.  After the call the
    flags are clear whatever the client answers, be it success, a failed
    request or a status other than 200. *)
Theorem Save_clears_flags_before_request a r sv :
  heap r !! a = Some sv ->
  IsModified (UnmarkModifiedFlag sv) = false /\
  (let atRequest := unmarkAt a r in
   heap atRequest !! a = Some (UnmarkModifiedFlag sv) /\
   ((Save client formatTime a r).1 = None
    <-> exists resp, client atRequest (saveRequest formatTime sv) = inr resp /\
                     StatusCode resp = StatusOK) /\
   heap (Save client formatTime a r).2 !! a = Some (UnmarkModifiedFlag sv)) /\
  (forall addrs, a ∈ addrs ->
     let collected := collectSaveValues formatTime addrs r in
     heap collected.2 !! a = Some (UnmarkModifiedFlag sv) /\
     ((SaveBulk client formatTime addrs r).1 = None
      <-> exists resp,
            client collected.2
                   (mkRequest "PATCH" "/gdaemon_api/servers"
                              (SaveBulkBody collected.1) []) = inr resp /\
            StatusCode resp = StatusOK) /\
     heap (SaveBulk client formatTime addrs r).2 !! a = Some (UnmarkModifiedFlag sv)).
Proof.
  intros Ha. cbv zeta. split_and!.
  - apply UnmarkModifiedFlag_clean.
  - unfold unmarkAt. simpl. by rewrite lookup_alter_eq, Ha.
  - unfold Save, Request. rewrite Ha. simpl.
    change (mkRequest "PUT" "/gdaemon_api/servers/{id}"
              (SaveBody (saveStructFromServer formatTime sv))
              [("id"%string, Itoa (ID sv))]) with (saveRequest formatTime sv).
    destruct (client (unmarkAt a r) (saveRequest formatTime sv)) as [e|resp]; simpl.
    + split; [done|]. intros (resp & ? & _). simplify_eq.
    + destruct (decide (StatusCode resp <> StatusOK)) as [Hne|Heq]; simpl.
      * split; [done|]. intros (resp' & Hr & Hok). by simplify_eq.
      * split; [|done]. intros _. exists resp. split; [done|]. by apply dec_stable.
  - rewrite (Save_heap a r sv Ha), lookup_alter_eq, Ha. done.
  - intros addrs Hin. split_and!.
    + rewrite collectSaveValues_heap. destruct (decide (a ∈ addrs)); [|done].
      by rewrite Ha.
    + unfold SaveBulk, Request.
      destruct (collectSaveValues formatTime addrs r) as [vs r1]. simpl.
      destruct (client r1 _) as [e|resp]; simpl.
      * split; [done|]. intros (resp & ? & _). simplify_eq.
      * destruct (decide (StatusCode resp <> StatusOK)) as [Hne|Heq]; simpl.
        -- split; [done|]. intros (resp' & Hr & Hok). by simplify_eq.
        -- split; [|done]. intros _. exists resp. split; [done|]. by apply dec_stable.
    + rewrite SaveBulk_heap. destruct (decide (a ∈ addrs)); [|done].
      by rewrite Ha.
Qed.

(** When the test of line 101 or of line 113 asks for it, [FindByID] is the
    fetch. *)
Lemma FindByID_refetch now id r :
  refetches now id r = true ->
  FindByID client unmarshal parseTime now id r = fetch client unmarshal parseTime now id r.
Proof.
  unfold FindByID, refetches.
  destruct (servers r !! id) as [a|]; [|done].
  destruct (lastUpdated r !! id) as [last|]; [|done].
  destruct (heap r !! a) as [sv|]; [|done].
  by intros ->.
Qed.

(** C9, as amended.  For [FindByID(id)] at the clock reading [now]:
    (1) if the server is cached and locally dirty, the API is not asked and
    the cached server is returned as it is;
    (2) with a time stamp that is not in the future, the API is asked exactly
    when the cache entry is absent, or is older than the 10-second TTL and the
    server is not dirty;
    (3) when [FindByID] asks the API and the answer is merged into an
    existing server, [FindByID] returns that server, cached under the ID with
    the current time; in it a dirty installation status and a dirty
    process-active flag keep their local values and take the API's values when
    not dirty; the time of the last status check takes the API's value only
    when status is not dirty and the API's process-active flag differs from the
    local one, and keeps its local value otherwise; every other attribute is
    overwritten from the API; the identity and the dirty flags stay. *)
Theorem FindByID_cache_and_merge now id r :
  (forall a sv,
     servers r !! id = Some a -> heap r !! a = Some sv -> IsModified sv = true ->
     (FindByID client unmarshal parseTime now id r).1 = (Some a, None) /\
     requests (FindByID client unmarshal parseTime now id r).2 = requests r /\
     heap (FindByID client unmarshal parseTime now id r).2 = heap r)
  /\
  ((forall last, lastUpdated r !! id = Some last -> last <= now) ->
   (requests (FindByID client unmarshal parseTime now id r).2 <> requests r
    <->
    servers r !! id = None \/
    exists a last sv,
      servers r !! id = Some a /\ lastUpdated r !! id = Some last /\
      heap r !! a = Some sv /\
      serverCacheTTL < now - last /\ IsModified sv = false))
  /\
  (forall resp srv lpc upd a sv,
     refetches now id r = true ->
     client r (findRequest id) = inr resp ->
     StatusCode resp = StatusOK ->
     unmarshal (ResponseBody resp) = inr srv ->
     parseLastProcessCheck parseTime srv = inr lpc ->
     parseTime RFC3339 (UpdatedAt srv) = inr upd ->
     apiServers r !! ID' srv = Some a ->
     heap r !! a = Some sv ->
     (FindByID client unmarshal parseTime now id r).1 = (Some a, None) /\
     servers (FindByID client unmarshal parseTime now id r).2 !! id = Some a /\
     lastUpdated (FindByID client unmarshal parseTime now id r).2 !! id = Some now /\
     heap (FindByID client unmarshal parseTime now id r).2 !! a
     = Some (mkServer (sv_id sv) (Enabled srv)
               (if IsValueModified "installationStatus" sv
                then sv_installStatus sv else InstallStatus srv)
               (Blocked srv) (Name srv) (UUID srv) (UUIDShort srv) (Game' srv)
               (GameMod' srv) (IP srv) (ConnectPort srv) (QueryPort srv)
               (RconPort srv) (RconPassword srv) (Dir srv) (User srv)
               (StartCommand srv) (StopCommand srv) (ForceStopCommand srv)
               (RestartCommand srv)
               (if IsValueModified "status" sv
                then sv_processActive sv else ProcessActive srv)
               (if negb (IsValueModified "status" sv)
                   && bool_decide (sv_processActive sv <> ProcessActive srv)
                then lpc else sv_lastStatusCheck sv)
               (Vars srv) (settingsOf (Settings srv) ∅) upd (sv_modified sv))).
Proof.
  split_and!.
  - intros a sv Ha Hsv Hdirty. unfold FindByID. rewrite Ha, Hsv.
    destruct (lastUpdated r !! id) as [last|]; simpl.
    + rewrite Hdirty, andb_false_r. simpl. done.
    + done.
  - intros Hpast. rewrite FindByID_requests. unfold refetches.
    destruct (servers r !! id) as [a|] eqn:Ha.
    2:{ split; [by left|]. intros _ Heq.
        apply (f_equal length) in Heq. rewrite length_app in Heq. simpl in Heq. lia. }
    destruct (lastUpdated r !! id) as [last|] eqn:Hl.
    2:{ split; [done|]. intros [|(? & ? & ? & ? & ? & _)]; done. }
    destruct (heap r !! a) as [sv|] eqn:Hsv.
    2:{ split; [done|]. intros [|(a' & ? & ? & Ha' & _ & Hsv' & _)]; [done|].
        simplify_eq. }
    pose proof (cache_entry_expired now last (Hpast last eq_refl)) as Hexp.
    destruct (bool_decide (wrap64 (Until now last + serverCacheTTL) < 0)
              && negb (IsModified sv)) eqn:Hc.
    + apply andb_true_iff in Hc as [Hc1 Hc2].
      apply bool_decide_eq_true in Hc1. apply negb_true_iff in Hc2.
      split.
      * intros _. right. exists a, last, sv. split_and!; try done. by apply Hexp.
      * intros _ Heq. apply (f_equal length) in Heq.
        rewrite length_app in Heq. simpl in Heq. lia.
    + split; [done|].
      intros [|(a' & last' & sv' & Ha' & Hl' & Hsv' & Hold & Hclean)]; [done|].
      simplify_eq. apply Hexp in Hold.
      rewrite Hclean, bool_decide_eq_true_2 in Hc by done. done.
  - intros resp srv lpc upd a sv Hre Hresp Hok Hsrv Hlpc Hupd Ha Hsv.
    rewrite (FindByID_refetch now id r Hre).
    unfold fetch, apiFindByID, Request. simpl. rewrite Hresp.
    destruct (decide (StatusCode resp = StatusNotFound)) as [Hnf|_].
    { rewrite Hok in Hnf. done. }
    destruct (decide (StatusCode resp <> StatusOK)) as [Hne|_]; [done|].
    rewrite Hsrv, Hlpc, Hupd. simpl. rewrite Ha. simpl. rewrite Hsv. simpl.
    unfold InstallationStatus, IsActive, LastStatusCheck, Set'.
    destruct (IsValueModified "installationStatus" sv);
      destruct (IsValueModified "status" sv); simpl;
      repeat case_bool_decide; simpl; rewrite ?lookup_insert_eq;
      split_and!; try done; repeat f_equal; try done.
    all: try (by destruct (sv_processActive sv), (ProcessActive srv)).
Qed.

(** ** Further facts about saving *)

Lemma clean_server_has_no_dirty_field sv name :
  IsModified sv = false -> IsValueModified name sv = false.
Proof.
  unfold IsModified, IsValueModified. intros H.
  apply bool_decide_eq_false in H. apply dec_stable in H. rewrite H.
  by apply bool_decide_eq_false.
Qed.

Lemma saveStructFromServer_clean sv :
  IsModified sv = false ->
  saveStructFromServer formatTime sv = mkSave None None (ID sv) 0.
Proof.
  intros Hs. unfold saveStructFromServer.
  rewrite !(clean_server_has_no_dirty_field sv _ Hs). simpl.
  by rewrite !andb_false_r.
Qed.

Lemma saveStructFromServer_unmarked sv :
  saveStructFromServer formatTime (UnmarkModifiedFlag sv)
  = mkSave None None (ID sv) 0.
Proof.
  apply (saveStructFromServer_clean (UnmarkModifiedFlag sv)), UnmarkModifiedFlag_clean.
Qed.

(** X14.  What a save sends.  The installation status is sent exactly when
    its flag is set, and [process_active] is 1 exactly when the server is
    active and its status flag is set.  So for a server without dirty fields,
    and for any server right after its flags were cleared, the save values
    hold the ID alone, with [process_active] 0 also when the server is
    active. *)
Theorem saveStructFromServer_sends_dirty_fields_only sv :
  save_ID (saveStructFromServer formatTime sv) = ID sv /\
  (is_Some (save_InstallationStatus (saveStructFromServer formatTime sv))
   <-> IsValueModified "installationStatus" sv = true) /\
  (save_ProcessActive (saveStructFromServer formatTime sv) = 1
   <-> IsActive sv = true /\ IsValueModified "status" sv = true) /\
  (IsModified sv = false ->
   saveStructFromServer formatTime sv = mkSave None None (ID sv) 0) /\
  saveStructFromServer formatTime (UnmarkModifiedFlag sv) = mkSave None None (ID sv) 0.
Proof.
  split_and!.
  - unfold saveStructFromServer.
    by destruct (IsValueModified "installationStatus" sv), (IsActive sv),
         (IsValueModified "status" sv), (bool_decide (LastStatusCheck sv = 0)).
  - unfold saveStructFromServer.
    destruct (IsValueModified "installationStatus" sv), (IsActive sv),
      (IsValueModified "status" sv), (bool_decide (LastStatusCheck sv = 0));
      simpl; split; (done || (intros [? ?]; done) || by eexists).
  - unfold saveStructFromServer.
    destruct (IsValueModified "installationStatus" sv), (IsActive sv),
      (IsValueModified "status" sv), (bool_decide (LastStatusCheck sv = 0));
      simpl; split; (done || (intros [? ?]; done)).
  - apply saveStructFromServer_clean.
  - apply saveStructFromServer_unmarked.
Qed.

(** X15.  [Save] sends exactly one PUT request, with the save values as they
    were before the flags were cleared and the server's ID as path parameter.
    It returns an error when the request fails or is answered with a status
    other than 200, and nil otherwise.  A second [Save] of the same server
    right after it sends the ID alone. *)
Theorem Save_sends_values_read_before_clearing a r sv :
  heap r !! a = Some sv ->
  let run := Save client formatTime a r in
  requests run.2 = requests r ++ [saveRequest formatTime sv] /\
  (forall e, client (unmarkAt a r) (saveRequest formatTime sv) = inl e ->
     run.1 = Some (WithMessage e "[repositories.apiServerRepo] failed to saving server")) /\
  (forall resp, client (unmarkAt a r) (saveRequest formatTime sv) = inr resp ->
     (run.1 = None <-> StatusCode resp = 200)) /\
  requests (Save client formatTime a run.2).2
  = requests r ++ [saveRequest formatTime sv; saveRequest formatTime (UnmarkModifiedFlag sv)] /\
  Body (saveRequest formatTime (UnmarkModifiedFlag sv)) = SaveBody (mkSave None None (ID sv) 0).
Proof.
  intros Ha run. subst run.
  assert (Hreq : forall r0 s0, heap r0 !! a = Some s0 ->
            requests (Save client formatTime a r0).2 = requests r0 ++ [saveRequest formatTime s0]).
  { intros r0 s0 H0. unfold Save, Request. rewrite H0. simpl.
    destruct (client _ _) as [e|resp]; [done|].
    by destruct (decide (StatusCode resp <> StatusOK)). }
  split_and!.
  - by apply Hreq.
  - intros e He. unfold Save, Request. rewrite Ha. simpl.
    change (mkRequest "PUT" "/gdaemon_api/servers/{id}"
              (SaveBody (saveStructFromServer formatTime sv))
              [("id"%string, Itoa (ID sv))]) with (saveRequest formatTime sv).
    by rewrite He.
  - intros resp Hresp. unfold Save, Request. rewrite Ha. simpl.
    change (mkRequest "PUT" "/gdaemon_api/servers/{id}"
              (SaveBody (saveStructFromServer formatTime sv))
              [("id"%string, Itoa (ID sv))]) with (saveRequest formatTime sv).
    rewrite Hresp. unfold StatusOK.
    destruct (decide (StatusCode resp <> 200)) as [Hne|Heq]; simpl.
    + split; [done|]. intros H. by apply Hne in H.
    + split; [|done]. intros _. by apply dec_stable.
  - rewrite (Hreq _ (UnmarkModifiedFlag sv)).
    + rewrite (Hreq r sv Ha). by rewrite <- app_assoc.
    + rewrite (Save_heap a r sv Ha), lookup_alter_eq, Ha. done.
  - unfold saveRequest. simpl. f_equal. apply saveStructFromServer_unmarked.
Qed.


Lemma Forall2_unmark a r addrs svs :
  a ∉ addrs ->
  Forall2 (fun x sv => heap r !! x = Some sv) addrs svs ->
  Forall2 (fun x sv => heap (unmarkAt a r) !! x = Some sv) addrs svs.
Proof.
  intros Hn H. induction H as [|x sv addrs svs Hx _ IH]; constructor.
  - unfold unmarkAt. simpl. rewrite lookup_alter_ne; [done|].
    intros ->. apply Hn. left.
  - apply IH. intros Hin. apply Hn. by right.
Qed.

Lemma collectSaveValues_distinct addrs : forall r svs,
  NoDup addrs ->
  Forall2 (fun a sv => heap r !! a = Some sv) addrs svs ->
  (collectSaveValues formatTime addrs r).1 = saveStructFromServer formatTime <$> svs /\
  requests (collectSaveValues formatTime addrs r).2 = requests r.
Proof.
  induction addrs as [|a addrs IH]; intros r svs Hnd Hall.
  - by inversion Hall.
  - inversion Hall as [|? sv ? svs' Ha Hrest]; subst.
    inversion Hnd as [|? ? Hfresh Hnd']; subst. simpl. rewrite Ha.
    destruct (IH (unmarkAt a r) svs' Hnd' (Forall2_unmark a r addrs svs' Hfresh Hrest))
      as [Hv Hr].
    destruct (collectSaveValues formatTime addrs (unmarkAt a r)) as [vs r'].
    simpl in *. by rewrite Hv, Hr.
Qed.

(** X16.  [SaveBulk] over distinct servers sends exactly one PATCH request
    whose body holds, in list order, each server's save values as they were
    before the call; an empty list is sent as an empty body all the same.  A
    server that is listed a second time contributes its ID alone there, its
    flags having been cleared at its first place. *)
Theorem SaveBulk_sends_one_request r :
  (forall addrs svs,
     NoDup addrs ->
     Forall2 (fun a sv => heap r !! a = Some sv) addrs svs ->
     requests (SaveBulk client formatTime addrs r).2
     = requests r
       ++ [mkRequest "PATCH" "/gdaemon_api/servers"
             (SaveBulkBody (saveStructFromServer formatTime <$> svs)) []]) /\
  (forall a sv,
     heap r !! a = Some sv ->
     requests (SaveBulk client formatTime [a; a] r).2
     = requests r
       ++ [mkRequest "PATCH" "/gdaemon_api/servers"
             (SaveBulkBody [saveStructFromServer formatTime sv;
                            mkSave None None (ID sv) 0]) []]).
Proof.
  split.
  - intros addrs svs Hnd Hall. unfold SaveBulk, Request.
    destruct (collectSaveValues_distinct addrs r svs Hnd Hall) as [Hv Hr].
    destruct (collectSaveValues formatTime addrs r) as [vs r1]. simpl in *.
    rewrite Hv, Hr. destruct (client _ _) as [e|resp]; [done|].
    by destruct (decide (StatusCode resp <> StatusOK)).
  - intros a sv Ha.
    unfold SaveBulk, Request. simpl. rewrite Ha. simpl.
    rewrite lookup_alter_eq, Ha. simpl.
    rewrite saveStructFromServer_unmarked.
    destruct (client _ _) as [e|resp]; [done|].
    by destruct (decide (StatusCode resp <> StatusOK)).
Qed.

(** ** Further facts about finding *)

Lemma apiFindByID_error id r e :
  (apiFindByID client unmarshal parseTime id r).1.2 = Some e ->
  (apiFindByID client unmarshal parseTime id r).1.1 = None /\
  heap (apiFindByID client unmarshal parseTime id r).2 = heap r /\
  servers (apiFindByID client unmarshal parseTime id r).2 = servers r /\
  lastUpdated (apiFindByID client unmarshal parseTime id r).2 = lastUpdated r /\
  apiServers (apiFindByID client unmarshal parseTime id r).2 = apiServers r.
Proof.
  unfold apiFindByID, Request. simpl.
  repeat (case_match; simpl; try done).
Qed.

Lemma apiFindByID_found id r a r' :
  apiFindByID client unmarshal parseTime id r = (Some a, None, r') ->
  is_Some (heap r' !! a) /\ servers r' = servers r /\ lastUpdated r' = lastUpdated r.
Proof.
  unfold apiFindByID, Request. simpl.
  repeat (case_match; simpl; try done); intros; simplify_eq/=;
    rewrite lookup_insert_eq; split_and!; by eauto.
Qed.

(** X17.  When [FindByID] returns an error (the request failed, the status
    is neither 200 nor 404, the body or a time stamp could not be read), it
    returns no server and leaves the server objects, both server maps and the
    time stamps as they were; the one request it made is all that changed. *)
Theorem FindByID_error_changes_nothing now id r e :
  (FindByID client unmarshal parseTime now id r).1.2 = Some e ->
  let r' := (FindByID client unmarshal parseTime now id r).2 in
  (FindByID client unmarshal parseTime now id r).1.1 = None /\
  heap r' = heap r /\ servers r' = servers r /\
  lastUpdated r' = lastUpdated r /\ apiServers r' = apiServers r /\
  requests r' = requests r ++ [findRequest id].
Proof.
  assert (Hfetch :
    (fetch client unmarshal parseTime now id r).1.2 = Some e ->
    (fetch client unmarshal parseTime now id r).1.1 = None /\
    heap (fetch client unmarshal parseTime now id r).2 = heap r /\
    servers (fetch client unmarshal parseTime now id r).2 = servers r /\
    lastUpdated (fetch client unmarshal parseTime now id r).2 = lastUpdated r /\
    apiServers (fetch client unmarshal parseTime now id r).2 = apiServers r /\
    requests (fetch client unmarshal parseTime now id r).2
    = requests r ++ [findRequest id]).
  { intros He. pose proof (fetch_requests now id r) as Hreq.
    unfold fetch in *.
    pose proof (apiFindByID_error id r) as Herr.
    destruct (apiFindByID client unmarshal parseTime id r) as [[sv [e'|]] r1];
      simpl in *; [|done].
    destruct (Herr e' eq_refl) as (_ & H1 & H2 & H3 & H4). by split_and!. }
  intros He r'. subst r'. unfold FindByID in *.
  destruct (servers r !! id) as [a|]; [|by apply Hfetch].
  destruct (lastUpdated r !! id) as [last|]; [|done].
  destruct (heap r !! a) as [sv|]; [|done].
  destruct (bool_decide _ && negb _); [by apply Hfetch|done].
Qed.

(** X18.  When the API answers 404, [FindByID] returns neither a server nor
    an error and caches nothing: the server objects, both server maps and the
    time stamps stay as they were, so a server that was cached before stays
    cached, with its old time stamp. *)
Theorem FindByID_not_found_keeps_cache now id r resp :
  refetches now id r = true ->
  client r (findRequest id) = inr resp ->
  StatusCode resp = StatusNotFound ->
  let r' := (FindByID client unmarshal parseTime now id r).2 in
  (FindByID client unmarshal parseTime now id r).1 = (None, None) /\
  heap r' = heap r /\ servers r' = servers r /\
  lastUpdated r' = lastUpdated r /\ apiServers r' = apiServers r.
Proof.
  intros Hre Hresp Hnf r'. subst r'.
  assert (Hfetch : fetch client unmarshal parseTime now id r
                   = (None, None,
                      mkRepo (heap r) (servers r) (lastUpdated r) (apiServers r)
                             (requests r ++ [findRequest id]))).
  { unfold fetch, apiFindByID, Request. simpl. rewrite Hresp.
    by destruct (decide (StatusCode resp = StatusNotFound)). }
  unfold FindByID, refetches in *.
  destruct (servers r !! id) as [a|]; [|by rewrite Hfetch].
  destruct (lastUpdated r !! id) as [last|]; [|done].
  destruct (heap r !! a) as [sv|]; [|done].
  rewrite Hre. by rewrite Hfetch.
Qed.

(** X19.  The cache serves repeated lookups.  When the first [FindByID] of an
    ID returns a server, a later [FindByID] of that ID no more than ten seconds
    after it returns the same server object without asking the API, and
    changes no server object. *)
Theorem FindByID_serves_from_cache_within_TTL now now' id r a r1 :
  servers r !! id = None ->
  FindByID client unmarshal parseTime now id r = (Some a, None, r1) ->
  now <= now' ->
  now' - now <= serverCacheTTL ->
  (FindByID client unmarshal parseTime now' id r1).1 = (Some a, None) /\
  requests (FindByID client unmarshal parseTime now' id r1).2 = requests r1 /\
  heap (FindByID client unmarshal parseTime now' id r1).2 = heap r1.
Proof.
  intros Hnew Hfirst Hle Hfresh. unfold FindByID in Hfirst. rewrite Hnew in Hfirst.
  unfold fetch in Hfirst.
  destruct (apiFindByID client unmarshal parseTime id r) as [[sv err] r0] eqn:Hapi.
  destruct err as [e|]; [done|]. simplify_eq/=.
  destruct (apiFindByID_found id r a r0 Hapi) as ([s Hs] & _ & _).
  unfold FindByID. simpl. rewrite !lookup_insert_eq. rewrite Hs.
  assert (Hnot : bool_decide (wrap64 (Until now' now + serverCacheTTL) < 0) = false).
  { apply bool_decide_eq_false. rewrite (cache_entry_expired now' now Hle). lia. }
  rewrite Hnot. done.
Qed.

(** X20.  The first fetch of a server the repository does not know yet
    builds a new server object at a free address, with the attributes of the
    answer and no dirty flag, and leaves the existing server objects as they
    are.  The outer map caches it under the requested ID with the current time,
    the inner map under the ID of the answer. *)
Theorem FindByID_first_fetch_creates_clean_server now id r resp srv lpc upd :
  servers r !! id = None ->
  apiServers r !! ID' srv = None ->
  client r (findRequest id) = inr resp ->
  StatusCode resp = StatusOK ->
  unmarshal (ResponseBody resp) = inr srv ->
  parseLastProcessCheck parseTime srv = inr lpc ->
  parseTime RFC3339 (UpdatedAt srv) = inr upd ->
  let a := fresh (dom (heap r)) in
  let server :=
    NewServer (ID' srv) (Enabled srv) (InstallStatus srv) (Blocked srv) (Name srv)
      (UUID srv) (UUIDShort srv) (Game' srv) (GameMod' srv) (IP srv) (ConnectPort srv)
      (QueryPort srv) (RconPort srv) (RconPassword srv) (Dir srv) (User srv)
      (StartCommand srv) (StopCommand srv) (ForceStopCommand srv) (RestartCommand srv)
      (ProcessActive srv) lpc (Vars srv) (settingsOf (Settings srv) ∅) upd in
  let r' := (FindByID client unmarshal parseTime now id r).2 in
  (FindByID client unmarshal parseTime now id r).1 = (Some a, None) /\
  heap r !! a = None /\
  heap r' = <[a := server]> (heap r) /\
  IsModified server = false /\
  servers r' = <[id := a]> (servers r) /\
  lastUpdated r' = <[id := now]> (lastUpdated r) /\
  apiServers r' = <[ID' srv := a]> (apiServers r).
Proof.
  intros Hnew Hinner Hresp Hok Hsrv Hlpc Hupd a server r'. subst a server r'.
  unfold FindByID. rewrite Hnew. unfold fetch, apiFindByID, Request. simpl.
  rewrite Hresp.
  destruct (decide (StatusCode resp = StatusNotFound)) as [Hnf|_].
  { rewrite Hok in Hnf. done. }
  destruct (decide (StatusCode resp <> StatusOK)) as [Hne|_]; [done|].
  rewrite Hsrv, Hlpc, Hupd. simpl. rewrite Hinner. simpl.
  split_and!; try done.
  apply not_elem_of_dom, is_fresh.
Qed.

End RepositoryFacts.

(** C4 as stated fails: the request of [Save] fails, or is answered with the
    status 500, and the installation-status flag that was set is cleared all the
    same; likewise for [SaveBulk]. *)
Lemma Save_failed_flush_counterexample :
  IsValueModified "installationStatus" dirtyServer = true /\
  (Save failingClient noFormat 0 (repoWith dirtyServer)).1
  = Some "[repositories.apiServerRepo] failed to saving server: connection refused"%string /\
  (IsModified <$> heap (Save failingClient noFormat 0 (repoWith dirtyServer)).2 !! 0%nat)
  = Some false /\
  is_Some (Save brokenClient noFormat 0 (repoWith dirtyServer)).1 /\
  (IsModified <$> heap (Save brokenClient noFormat 0 (repoWith dirtyServer)).2 !! 0%nat)
  = Some false /\
  is_Some (SaveBulk failingClient noFormat [0%nat] (repoWith dirtyServer)).1 /\
  (IsModified <$> heap (SaveBulk failingClient noFormat [0%nat] (repoWith dirtyServer)).2
                  !! 0%nat)
  = Some false.
Proof. vm_compute. split_and!; eauto. Qed.

Lemma Save_clears_flags_before_request_witness :
  IsValueModified "installationStatus" dirtyServer = true /\
  (Save observingClient noFormat 0 (repoWith dirtyServer)).1 = None /\
  heap (Save failingClient noFormat 0 (repoWith dirtyServer)).2 !! 0%nat
  = Some (UnmarkModifiedFlag dirtyServer) /\
  IsModified (UnmarkModifiedFlag dirtyServer) = false.
Proof.
  destruct (Save_clears_flags_before_request observingClient noFormat 0%nat
              (repoWith dirtyServer) dirtyServer eq_refl) as (_ & (_ & Hnil & _) & _).
  destruct (Save_clears_flags_before_request failingClient noFormat 0%nat
              (repoWith dirtyServer) dirtyServer eq_refl) as (Hclean & (_ & _ & Hheap) & _).
  split_and!; [reflexivity| |exact Hheap|exact Hclean].
  apply Hnil. exists (mkResponse 200 []). split; reflexivity.
Defined.

(** C9 as stated fails at the merge: the cached server is clean and not
    active, the cache entry is older than the TTL, and the API answers with a
    new name, the same process-active flag and 9 as time of the last process
    check.  The refetch overwrites the name, but the time of the last status
    check, which is not dirty, keeps its local value 5.  And at the edge of the
    64-bit durations the API is asked for an entry that is not older than the
    TTL: for a time stamp 2^63 nanoseconds ahead [time.Until] saturates, and
    adding the TTL wraps around to a negative duration. *)
Lemma FindByID_merge_counterexample :
  let r' := (FindByID okClient decodeApiServer parseDigits (11 * Second) 1
               (repoWith cleanServer)).2 in
  requests r' = [findRequest 1] /\
  parseLastProcessCheck parseDigits apiServer = inr 9 /\
  sv_name <$> heap r' !! 0%nat = Some "renamed"%string /\
  IsValueModified "status" <$> heap r' !! 0%nat = Some false /\
  sv_lastStatusCheck <$> heap r' !! 0%nat = Some 5 /\
  5 <> 9 /\
  lastUpdated futureRepo !! 1 = Some (2 ^ 63) /\
  ~ serverCacheTTL < 0 - 2 ^ 63 /\
  requests (FindByID okClient decodeApiServer parseDigits 0 1 futureRepo).2
  = [findRequest 1].
Proof. by vm_compute. Qed.

Lemma FindByID_cache_and_merge_witness :
  let run := FindByID okClient decodeApiServer parseDigits (11 * Second) 1
               (repoWith dirtyServer) in
  run.1 = (Some 0%nat, None) /\ requests run.2 = [] /\
  (requests (FindByID okClient decodeApiServer parseDigits (11 * Second) 1
               (repoWith cleanServer)).2 <> []) /\
  sv_name
    <$> heap (FindByID okClient decodeApiServer parseDigits (11 * Second) 1
                (repoWith cleanServer)).2 !! 0%nat
  = Some "renamed"%string /\
  sv_lastStatusCheck
    <$> heap (FindByID okClient decodeApiServer parseDigits (11 * Second) 1
                (repoWith cleanServer)).2 !! 0%nat
  = Some 5.
Proof.
  intros run. subst run.
  destruct (FindByID_cache_and_merge okClient decodeApiServer parseDigits
              (11 * Second) 1 (repoWith dirtyServer)) as (Hdirty & _ & _).
  destruct (Hdirty 0%nat dirtyServer eq_refl eq_refl eq_refl) as (H1 & H2 & _).
  destruct (FindByID_cache_and_merge okClient decodeApiServer parseDigits
              (11 * Second) 1 (repoWith cleanServer)) as (_ & Hiff & Hmerge).
  destruct (Hmerge (mkResponse 200 []) apiServer 9 8 0%nat cleanServer
              eq_refl eq_refl eq_refl eq_refl eq_refl eq_refl eq_refl eq_refl)
    as (_ & _ & _ & Hmerged).
  split_and!; [exact H1|exact H2| | |].
  - apply Hiff.
    + intros last Hl. vm_compute in Hl. simplify_eq. done.
    + right. exists 0%nat, 0, cleanServer. by split_and!.
  - by rewrite Hmerged.
  - by rewrite Hmerged.
Defined.

Lemma Save_sends_values_read_before_clearing_witness :
  requests (Save failingClient noFormat 0%nat (repoWith dirtyServer)).2
  = [saveRequest noFormat dirtyServer] /\
  (Save failingClient noFormat 0%nat (repoWith dirtyServer)).1
  = Some "[repositories.apiServerRepo] failed to saving server: connection refused"%string /\
  Body (saveRequest noFormat dirtyServer) = SaveBody (mkSave (Some 1) None 1 0).
Proof.
  destruct (Save_sends_values_read_before_clearing failingClient noFormat 0%nat
              (repoWith dirtyServer) dirtyServer eq_refl) as (H1 & H2 & _).
  split_and!; [exact H1|exact (H2 _ eq_refl)|reflexivity].
Defined.

Lemma SaveBulk_sends_one_request_witness :
  requests (SaveBulk okClient noFormat [0%nat] (repoWith dirtyServer)).2
  = [mkRequest "PATCH" "/gdaemon_api/servers"
       (SaveBulkBody [mkSave (Some 1) None 1 0]) []] /\
  requests (SaveBulk okClient noFormat [0%nat; 0%nat] (repoWith dirtyServer)).2
  = [mkRequest "PATCH" "/gdaemon_api/servers"
       (SaveBulkBody [mkSave (Some 1) None 1 0; mkSave None None 1 0]) []].
Proof.
  destruct (SaveBulk_sends_one_request okClient noFormat (repoWith dirtyServer))
    as [Hdistinct Htwice].
  split.
  - apply (Hdistinct [0%nat] [dirtyServer]).
    + apply NoDup_singleton.
    + by repeat constructor.
  - exact (Htwice 0%nat dirtyServer eq_refl).
Defined.

Lemma FindByID_error_changes_nothing_witness :
  let run := FindByID failingClient decodeApiServer parseDigits (11 * Second) 1
               (repoWith cleanServer) in
  run.1.2 = Some "connection refused"%string /\
  run.1.1 = None /\
  heap run.2 = heap (repoWith cleanServer) /\
  requests run.2 = [findRequest 1].
Proof.
  intros run. subst run.
  destruct (FindByID_error_changes_nothing failingClient decodeApiServer parseDigits
              (11 * Second) 1 (repoWith cleanServer) _ eq_refl)
    as (H1 & H2 & _ & _ & _ & H3).
  split_and!; [reflexivity|exact H1|exact H2|exact H3].
Defined.

Lemma FindByID_not_found_keeps_cache_witness :
  let run := FindByID notFoundClient decodeApiServer parseDigits (11 * Second) 1
               (repoWith cleanServer) in
  run.1 = (None, None) /\
  heap run.2 = heap (repoWith cleanServer) /\
  servers run.2 !! 1 = Some 0%nat /\
  lastUpdated run.2 !! 1 = Some 0.
Proof.
  intros run. subst run.
  destruct (FindByID_not_found_keeps_cache notFoundClient decodeApiServer parseDigits
              (11 * Second) 1 (repoWith cleanServer) (mkResponse 404 [])
              eq_refl eq_refl eq_refl) as (H1 & H2 & H3 & H4 & _).
  split_and!; [exact H1|exact H2|by rewrite H3|by rewrite H4].
Defined.

Lemma FindByID_serves_from_cache_within_TTL_witness :
  let first := FindByID okClient decodeApiServer parseDigits 100 1 emptyRepo in
  let again := FindByID okClient decodeApiServer parseDigits (100 + 10 * Second) 1 first.2 in
  first.1 = (Some 0%nat, None) /\
  requests first.2 = [findRequest 1] /\
  again.1 = (Some 0%nat, None) /\
  requests again.2 = [findRequest 1].
Proof.
  intros first again. subst first again.
  destruct (FindByID_serves_from_cache_within_TTL okClient decodeApiServer parseDigits
              100 (100 + 10 * Second) 1 emptyRepo 0%nat
              (FindByID okClient decodeApiServer parseDigits 100 1 emptyRepo).2)
    as (H1 & H2 & _).
  - reflexivity.
  - reflexivity.
  - vm_compute. discriminate.
  - vm_compute. discriminate.
  - split_and!; [reflexivity|reflexivity|exact H1|by rewrite H2].
Defined.

Lemma FindByID_first_fetch_creates_clean_server_witness :
  let run := FindByID okClient decodeApiServer parseDigits 100 1 emptyRepo in
  run.1 = (Some 0%nat, None) /\
  sv_name <$> heap run.2 !! 0%nat = Some "renamed"%string /\
  sv_lastStatusCheck <$> heap run.2 !! 0%nat = Some 9 /\
  IsModified <$> heap run.2 !! 0%nat = Some false /\
  servers run.2 !! 1 = Some 0%nat /\
  lastUpdated run.2 !! 1 = Some 100.
Proof.
  intros run. subst run.
  destruct (FindByID_first_fetch_creates_clean_server okClient decodeApiServer parseDigits
              100 1 emptyRepo (mkResponse 200 []) apiServer 9 8
              eq_refl eq_refl eq_refl eq_refl eq_refl eq_refl eq_refl)
    as (H1 & _ & H2 & _ & H3 & H4 & _).
  split_and!; [exact H1|by rewrite H2|by rewrite H2|by rewrite H2|by rewrite H3|by rewrite H4].
Defined.

End Repositories.
